(** * Marian-on-CNTK emulation layer (Source/Dynamite/marian.h)

    A shallow embedding of the adapter header: the shape and axis mappers,
    the Options dictionary, the operator library that emits engine graph
    nodes, the dropout mask generator, the parameter graph and the
    optimizer wrapper.  Definitions come first, the properties follow. *)

From Stdlib Require Import ZArith List Lia Bool String Ascii.
From Stdlib Require Import Floats.SpecFloat.
From stdpp Require Import gmap strings list fin_maps pretty.

Open Scope Z_scope.

(* ===================================================================== *)
(** ** Machine integers and floats *)
(* ===================================================================== *)

(** [int] is a 32-bit two's complement integer, [size_t] a 64-bit unsigned
    one.  Values are carried as [Z]; the conversions below are the
    wrap-arounds the compiler inserts. *)

Definition INT_MIN : Z := - 2 ^ 31.
Definition INT_MAX : Z := 2 ^ 31 - 1.
Definition SIZE_MAX : Z := 2 ^ 64 - 1.

Definition is_int (z : Z) : Prop := INT_MIN <= z <= INT_MAX.
Definition is_size_t (z : Z) : Prop := 0 <= z <= SIZE_MAX.

(** conversion of any integer value to [int] *)
Definition to_int (z : Z) : Z := (z + 2 ^ 31) mod 2 ^ 32 - 2 ^ 31.
(** conversion of any integer value to [size_t] *)
Definition to_size_t (z : Z) : Z := z mod 2 ^ 64.
(** conversion of any integer value to [unsigned int] *)
Definition to_unsigned (z : Z) : Z := z mod 2 ^ 32.

(** [float] is IEEE binary32, [double] is IEEE binary64. *)
Definition float := spec_float.
Definition double := spec_float.

Module F32.
Definition prec : Z := 24.
Definition emax : Z := 128.
Definition of_Z (z : Z) : float := binary_normalize prec emax z 0 false.
Definition zero : float := S754_zero false.
Definition one : float := of_Z 1.
Definition add : float -> float -> float := SFadd prec emax.
Definition sub : float -> float -> float := SFsub prec emax.
Definition mul : float -> float -> float := SFmul prec emax.
Definition div : float -> float -> float := SFdiv prec emax.
Definition eqb : float -> float -> bool := SFeqb.
Definition ltb : float -> float -> bool := SFltb.
End F32.

Module F64.
Definition prec : Z := 53.
Definition emax : Z := 1024.
Definition of_Z (z : Z) : double := binary_normalize prec emax z 0 false.
Definition zero : double := S754_zero false.
Definition one : double := of_Z 1.
Definition div : double -> double -> double := SFdiv prec emax.
Definition eqb : double -> double -> bool := SFeqb.
(** the cast [(float)d] *)
Definition to_float (d : double) : float :=
  match d with
  | S754_finite s m e =>
      binary_normalize F32.prec F32.emax (cond_Zopp s (Zpos m)) e s
  | other => other
  end.
End F64.

(* ===================================================================== *)
(** ** Failures *)
(* ===================================================================== *)

(** [CNTK::InvalidArgument] and [CNTK::LogicError] throw.  [EngineFault]
    stands for what happens inside the engine when it is handed an empty
    handle or an index outside a shape: the header neither checks nor
    catches these. *)
Inductive exn : Type :=
| InvalidArgument (msg : string)
| LogicError (msg : string)
| EngineFault (msg : string).

Inductive result (A : Type) : Type :=
| OK (a : A)
| Raise (e : exn).
Arguments OK {A} a.
Arguments Raise {A} e.

Definition bind {A B : Type} (m : result A) (k : A -> result B) : result B :=
  match m with
  | OK a => k a
  | Raise e => Raise e
  end.

Notation "'do' x <- m ; k" := (bind m (fun x => k))
  (at level 10, x name, m at level 100, k at level 200).

Definition is_OK {A : Type} (r : result A) : bool :=
  match r with OK _ => true | Raise _ => false end.

(* ===================================================================== *)
(** ** Shapes *)
(* ===================================================================== *)

(** Modelled from the spec: [CNTK::NDShape] is engine code; it is the
    engine's shape, a vector of [size_t] extents in the engine's axis
    order (axis 0 innermost). *)
Abbreviation NDShape := (list Z).

(** Modelled from the spec: [NDShape::Rank], the number of axes. *)
Definition Rank (s : NDShape) : Z := to_size_t (Z.of_nat (length s)).

(** Modelled from the spec: [NDShape::operator[]], the extent of one
    axis; the engine does not define an access outside the shape. *)
Definition NDShape_at (s : NDShape) (i : Z) : result Z :=
  if (0 <=? i) && (i <? Z.of_nat (length s)) then
    match s !! Z.to_nat i with
    | Some d => OK d
    | None => Raise (EngineFault "NDShape index")
    end
  else Raise (EngineFault "NDShape index").

(** Modelled from the spec: [NDShape::TotalSize], the element count,
    computed in [size_t]. *)
Definition TotalSize (s : NDShape) : Z :=
  fold_left (fun acc d => to_size_t (acc * d)) s 1.

(** Modelled from the spec: shape.h is not part of the sources.  A Marian
    [Shape] is an ordered sequence of [int] extents; [resize] gives it the
    requested rank, new slots holding the extent 1, and [set] overwrites
    one slot. *)
Abbreviation Shape := (list Z).

(** Modelled from the spec: the default-constructed [Shape] of shape.h,
    a single extent 1. *)
Definition Shape_default : Shape := [1].

(** Modelled from the spec: [Shape::resize] of shape.h; the sequence is
    cut or padded with extents 1 to the requested rank. *)
Definition Shape_resize (n : nat) (s : Shape) : Shape :=
  take n s ++ replicate (n - length s)%nat 1.

(** Modelled from the spec: [Shape::set] of shape.h; slot [i] takes the
    value, converted to [int]. *)
Definition Shape_set (i : Z) (v : Z) (s : Shape) : Shape :=
  <[Z.to_nat i := to_int v]> s.

(** Modelled from the spec: [Shape::elements] of shape.h; the product of
    the extents, computed in [int]. *)
Definition Shape_elements (s : Shape) : Z :=
  fold_left (fun acc d => to_int (acc * d)) s 1.

Module ShapeProxy.
(** [int operator[](int index)]: flips the axis order and interprets
    negative indices. *)
Definition at_ (m_viewShape : NDShape) (index : Z) : result Z :=
  let rank := Rank m_viewShape in
  if index <? 0 then
    do d <- NDShape_at m_viewShape (to_size_t (to_int (- to_int (index + 1))));
    OK (to_int d)
  else
    do d <- NDShape_at m_viewShape
                       (to_size_t (rank - to_size_t (to_int (index + 1))));
    OK (to_int d).

(** [operator Shape()]: the loop [for (i = 0; i < rank; i++)
    shape.set(i, m_viewShape[rank - 1 - i])], as a recursion on the
    indices still to visit. *)
Fixpoint fill (m_viewShape : NDShape) (rank : Z) (todo : list nat)
         (shape : Shape) : result Shape :=
  match todo with
  | [] => OK shape
  | i :: rest =>
      do d <- NDShape_at m_viewShape (to_size_t (rank - 1 - Z.of_nat i));
      fill m_viewShape rank rest (Shape_set (Z.of_nat i) d shape)
  end.

Definition to_Shape (m_viewShape : NDShape) : result Shape :=
  let rank := Rank m_viewShape in
  let shape := Shape_resize (Z.to_nat rank) Shape_default in
  fill m_viewShape rank (seq 0 (Z.to_nat rank)) shape.

Definition size (m_viewShape : NDShape) : Z := Rank m_viewShape.
Definition elements (m_viewShape : NDShape) : Z := to_int (TotalSize m_viewShape).
End ShapeProxy.

(* ===================================================================== *)
(** ** Mapping to and from the engine *)
(* ===================================================================== *)

(** [CNTK::Axis], built from a static axis index.  The index is carried
    as the header computes it. *)
Inductive Axis : Type := StaticAxis (index : Z).

Module mappers.
(** order of axes is reverse in Marian *)
Definition ToNDShape (shape : Shape) : NDShape :=
  map to_size_t (rev shape).

(** The body of [ToCNTKAxis] once [rank = x.Shape().Rank()] has been
    read.  [axisIndex += rank] is computed in [size_t] and stored back
    into the [int]. *)
Definition ToCNTKAxis_rank (rank : Z) (axisIndex : Z) : result Axis :=
  let axisIndex :=
    if axisIndex <? 0 then to_int (to_size_t (to_size_t axisIndex + rank))
    else axisIndex in
  if (axisIndex <? 0) || (rank <=? to_size_t axisIndex) then
    Raise (InvalidArgument "marian::ToCNTKAxis: axis out of range")
  else OK (StaticAxis (to_size_t (rank - 1 - to_size_t axisIndex))).
End mappers.

(* ===================================================================== *)
(** ** Wide strings *)
(* ===================================================================== *)

(** [std::wstring]: a sequence of [wchar_t], 16-bit unsigned code units.
    [char] is the signed 8-bit type of the toolchain. *)
Abbreviation wstring := (list Z) (only parsing).

Definition char_value (c : ascii) : Z :=
  let u := Z.of_N (N_of_ascii c) in
  if u <? 128 then u else u - 256.

Definition to_wchar (z : Z) : Z := z mod 2 ^ 16.
Definition to_char (z : Z) : ascii := ascii_of_N (Z.to_N (z mod 2 ^ 8)).

Module wide.
(** [std::wstring(s.begin(), s.end())] *)
Definition widen (s : string) : wstring :=
  map (fun c => to_wchar (char_value c)) (list_ascii_of_string s).

(** [std::string(s.begin(), s.end())]
    note: simplistic conversion that only works for 7-bit ASCII *)
Definition narrow (s : wstring) : string :=
  string_of_list_ascii (map to_char s).
End wide.

(* ===================================================================== *)
(** ** Configuration dictionary *)
(* ===================================================================== *)

(** Modelled from the spec: [CNTK::NDArrayView] is engine code; as far as
    the header looks into it, it is a shape over a buffer of floats. *)
Record NDArrayView : Type := mkNDArrayView {
  view_shape : NDShape;
  view_data : list float;
  view_readOnly : bool
}.

(** Modelled from the spec: [CNTK::DictionaryValue] is engine code; a
    kind-tagged value, with the kinds the header stores or reads.  A
    string is held as the engine holds it, as a wide string. *)
#[warnings="-register-all"]
Inductive DictionaryValue : Type :=
| DV_None
| DV_Bool (b : bool)
| DV_Int (i : Z)
| DV_Float (f : float)
| DV_String (s : wstring)
| DV_Vector (v : list DictionaryValue)
| DV_NDArrayView (v : NDArrayView).

(** Modelled from the spec: [CNTK::Dictionary] is engine code; a mapping
    from string keys to kind-tagged values.  Keys are the wide strings
    [widen] makes of the narrow ones, character by character; the narrow
    string stands for its widening. *)
Abbreviation Dictionary := (gmap string DictionaryValue).

Module Dict.
(** Modelled from the spec: [Dictionary::Keys], the keys present, each
    once. *)
Definition Keys (d : Dictionary) : list string := (map_to_list d).*1.

(** Modelled from the spec: [Dictionary::Contains], a pure existence
    check. *)
Definition Contains (d : Dictionary) (key : string) : bool :=
  bool_decide (is_Some (d !! key)).

(** Modelled from the spec: the mutable [Dictionary::operator[]]; a
    missing key is created with an empty value before the reference is
    handed out. *)
Definition subscript (d : Dictionary) (key : string)
  : DictionaryValue * Dictionary :=
  match d !! key with
  | Some v => (v, d)
  | None => (DV_None, <[key := DV_None]> d)
  end.

(** Modelled from the spec: the [const] [Dictionary::operator[]]; a
    missing key is an error. *)
Definition at_ (d : Dictionary) (key : string) : result DictionaryValue :=
  match d !! key with
  | Some v => OK v
  | None => Raise (EngineFault "Dictionary: key not found")
  end.

(** Modelled from the spec: [DictionaryValue::Value<T>], which fails on
    a value stored under another kind. *)
Definition Value_Float (v : DictionaryValue) : result float :=
  match v with
  | DV_Float f => OK f
  | _ => Raise (EngineFault "DictionaryValue: wrong type")
  end.

Definition Value_String (v : DictionaryValue) : result wstring :=
  match v with
  | DV_String s => OK s
  | _ => Raise (EngineFault "DictionaryValue: wrong type")
  end.

Definition Value_NDArrayView (v : DictionaryValue) : result NDArrayView :=
  match v with
  | DV_NDArrayView a => OK a
  | _ => Raise (EngineFault "DictionaryValue: wrong type")
  end.
End Dict.

(** [Options] objects are reached through [Ptr<Options>]; the store maps
    an address to the dictionary living there, so that two pointers may
    name the same object. *)
Abbreviation OptionsStore := (gmap nat Dictionary).

Module Options.
Definition load (h : OptionsStore) (p : nat) : result Dictionary :=
  match h !! p with
  | Some d => OK d
  | None => Raise (EngineFault "null Options")
  end.

(** [set<T>(key, value)] *)
Definition set (key : string) (value : DictionaryValue) (d : Dictionary)
  : Dictionary := <[key := value]> d.

(** [set<std::string>(key, value)] and [set<const char*>(key, value)]:
    the value is stored widened *)
Definition set_string (key : string) (value : string) (d : Dictionary)
  : Dictionary := set key (DV_String (wide.widen value)) d.

Definition has (d : Dictionary) (key : string) : bool := Dict.Contains d key.

Definition get_float (d : Dictionary) (key : string) : result float :=
  do v <- Dict.at_ d key; Dict.Value_Float v.

(** [get<std::string>(key)]: Marian uses narrow strings, the stored wide
    string is narrowed *)
Definition get_string (d : Dictionary) (key : string) : result string :=
  do v <- Dict.at_ d key;
  do wstr <- Dict.Value_String v;
  OK (wide.narrow wstr).

Definition str (d : Dictionary) : result string :=
  Raise (LogicError "Option serialization not supported").

(** one turn of the loop in [merge]:
    [if (!Contains(key)) Base::operator[](key) = other->operator[](key);] *)
Definition merge_key (this other : nat) (key : string) (h : OptionsStore)
  : result OptionsStore :=
  do d <- load h this;
  if Dict.Contains d key then OK h
  else
    do o <- load h other;
    let '(v, o') := Dict.subscript o key in
    let h := <[other := o']> h in
    do d <- load h this;
    OK (<[this := <[key := v]> d]> h).

Fixpoint merge_loop (this other : nat) (keys : list string) (h : OptionsStore)
  : result OptionsStore :=
  match keys with
  | [] => OK h
  | key :: rest =>
      do h <- merge_key this other key h;
      merge_loop this other rest h
  end.

(** add all items from 'other' to 'this' unless an item already exists *)
Definition merge (this other : nat) (h : OptionsStore) : result OptionsStore :=
  do o <- load h other;
  merge_loop this other (Dict.Keys o) h.
End Options.

(* ===================================================================== *)
(** ** Engine graph nodes and the expression wrapper *)
(* ===================================================================== *)

(** Modelled from the spec: [CNTK::Parameter] is engine code; a handle
    to a trainable tensor.  [p_uid] is the identity of the allocation:
    two parameters are the same handle exactly when they are the same
    record. *)
Record ParameterHandle : Type := mkParameter {
  p_uid : nat;
  p_shape : NDShape;
  p_name : string
}.

(** Modelled from the spec: the engine's graph nodes, one constructor
    per engine entry point the header calls, holding the operands and
    attributes of the call. *)
Inductive Node : Type :=
| ParameterNode (p : ParameterHandle)
| ConstantNode (shape : NDShape) (data : list float) (isVolatile : bool)
| ScalarNode (value : float)
| Negate (a : Node)
| Plus (a b : Node)
| Minus (a b : Node)
| ElementTimes (a b : Node)
| ElementDivide (a b : Node)
| Log (a : Node)
| Exp (a : Node)
| ReduceSum (a : Node) (axis : Axis)
| ReduceMean (a : Node) (axis : Axis)
| Reshape (a : Node) (shape : NDShape)
| OneHotOp (a : Node) (numClasses : Z) (outputSparse : bool) (axis : Axis)
| CrossEntropyWithSoftmax (o y : Node) (axis : Axis)
| LogSoftmax (x : Node) (axis : Axis) (name : string)
| Alias (x : Node) (name : string).

(** [Expr] derives from [CNTK::Variable]; the default-constructed one is
    the empty handle. *)
Abbreviation Expr := (option Node).

Inductive AlgorithmType : Type := Sgd | Adam.

(** What the header cannot know about the engine, taken as parameters:
    the shape the engine infers for the output of an operation, the
    tensors it stores and how it fills them, its reverse-mode pass and
    the update rule of its learners. *)

Class Engine : Type := {
  OutputShape : Node -> NDShape;
  Tensor : Type;
  FillTensor : Dictionary -> NDShape -> Tensor;
  CloneTensor : NDArrayView -> NDShape -> Tensor;
  Backward : Node -> gmap nat Tensor -> gmap nat (option Tensor)
             -> gmap nat (option Tensor);
  ApplyGradient : AlgorithmType -> float -> nat -> ParameterHandle
                  -> option Tensor -> Tensor -> Tensor
}.

(** The C runtime's generator behind [srand] and [rand], taken as a
    parameter. *)
Class LibC : Type := {
  RAND_MAX : Z;
  RandState : Type;
  srand : Z -> RandState;
  rand : RandState -> Z * RandState
}.

(** The scalar operand of the mixed operators: the header repeats each
    overload for [float], [int] and [double]. *)
Inductive Number : Type :=
| Float (a : float)
| Int (a : Z)
| Double (a : double).

(** [a == k] for a literal [k], compared in the type of [a] *)
Definition Number_eq (a : Number) (k : Z) : bool :=
  match a with
  | Float f => F32.eqb f (F32.of_Z k)
  | Int i => i =? k
  | Double d => F64.eqb d (F64.of_Z k)
  end.

(** the cast [(float)x] *)
Definition Number_to_float (a : Number) : float :=
  match a with
  | Float f => f
  | Int i => F32.of_Z i
  | Double d => F64.to_float d
  end.

Module inits.
(** Modelled from the spec: [CNTK::ConstantInitializer] is engine code;
    an initializer is an opaque descriptor held in a dictionary, here
    the kind and the fill value. *)
Definition ConstantInitializer (value : float) : Dictionary :=
  <["initializerType" := DV_String (wide.widen "constant")]>
    (<["value" := DV_Float value]> ∅).
Definition zeros : Dictionary := ConstantInitializer (F32.of_Z 0).
Definition ones : Dictionary := ConstantInitializer (F32.of_Z 1).
Definition from_value (value : float) : Dictionary := ConstantInitializer value.

(** initializers are just dictionaries: the buffer is wrapped in a view
    of shape [{ inputData.size() }] under the key "from_vector" *)
Definition WrappedVectorInitializer (inputData : list float) : Dictionary :=
  <["from_vector" :=
      DV_NDArrayView (mkNDArrayView [to_size_t (Z.of_nat (length inputData))]
                                    inputData true)]> ∅.
Definition from_vector (inputData : list float) : Dictionary :=
  WrappedVectorInitializer inputData.
End inits.

Module marian.
Section WithEngine.
Context `{Engine} `{LibC}.

(** [Variable::Shape()]: what a leaf was created with, what a reshape
    asked for, and otherwise what the engine inferred *)
Fixpoint Node_Shape (n : Node) : NDShape :=
  match n with
  | ParameterNode p => p_shape p
  | ConstantNode shape _ _ => shape
  | ScalarNode _ => []
  | Reshape _ shape => shape
  | Alias x _ => Node_Shape x
  | _ => OutputShape n
  end.

(** [Variable::Name()]: the name a node was given, empty otherwise *)
Definition Node_Name (n : Node) : string :=
  match n with
  | ParameterNode p => p_name p
  | LogSoftmax _ _ name => name
  | Alias _ name => name
  | _ => ""
  end.

(** handing an expression to the engine: the empty handle has no node
    behind it *)
Definition deref (x : Expr) : result Node :=
  match x with
  | Some n => OK n
  | None => Raise (EngineFault "empty Variable")
  end.

(** [x.Shape()] *)
Definition Expr_Shape (x : Expr) : result NDShape :=
  do n <- deref x; OK (Node_Shape n).

(** [x.Name()] *)
Definition Expr_Name (x : Expr) : result string :=
  do n <- deref x; OK (Node_Name n).

(** [mappers::ToCNTKAxis(const Expr& x, int axisIndex)] *)
Definition ToCNTKAxis (x : Expr) (axisIndex : Z) : result Axis :=
  do viewShape <- Expr_Shape x;
  let rank := Rank viewShape in
  mappers.ToCNTKAxis_rank rank axisIndex.

(** *** Expr with Expr *)

(** an engine call on one operand, and on two *)
Definition lift1 (f : Node -> Node) (a : Expr) : result Expr :=
  do a <- deref a; OK (Some (f a)).

Definition lift2 (f : Node -> Node -> Node) (a b : Expr) : result Expr :=
  do a <- deref a; do b <- deref b; OK (Some (f a b)).

(** [operator-(a)], [operator+(a, b)], [operator-(a, b)],
    [operator*(a, b)] and [operator/(a, b)] on two expressions *)
Definition neg : Expr -> result Expr := lift1 Negate.
Definition add : Expr -> Expr -> result Expr := lift2 Plus.
Definition sub : Expr -> Expr -> result Expr := lift2 Minus.
Definition mul : Expr -> Expr -> result Expr := lift2 ElementTimes.
Definition div : Expr -> Expr -> result Expr := lift2 ElementDivide.

(** *** Expr with a scalar *)

(** [InternalOps::Scalar(Number x)] *)
Definition Scalar (x : Number) : Expr := Some (ScalarNode (Number_to_float x)).

(** The mixed overloads: [_ne] has the scalar on the left, as in
    [operator+(float a, const Expr& b)], and [_en] has it on the right,
    as in [operator+(const Expr& a, float b)]. *)
Definition add_ne (a : Number) (b : Expr) : result Expr :=
  if Number_eq a 0 then OK b else add (Scalar a) b.
Definition add_en (a : Expr) (b : Number) : result Expr :=
  if Number_eq b 0 then OK a else add a (Scalar b).

Definition sub_ne (a : Number) (b : Expr) : result Expr :=
  if Number_eq a 0 then neg b else sub (Scalar a) b.
Definition sub_en (a : Expr) (b : Number) : result Expr :=
  if Number_eq b 0 then OK a else sub a (Scalar b).

Definition mul_ne (a : Number) (b : Expr) : result Expr :=
  if Number_eq a 1 then OK b else mul (Scalar a) b.
Definition mul_en (a : Expr) (b : Number) : result Expr :=
  if Number_eq b 1 then OK a else mul a (Scalar b).

Definition div_ne (a : Number) (b : Expr) : result Expr :=
  div (Scalar a) b.
Definition div_en (a : Expr) (b : Number) : result Expr :=
  if Number_eq b 1 then OK a else div a (Scalar b).

(** *** Unary and reducing operators *)

(** [log(a)] and [exp(a)] *)
Definition log : Expr -> result Expr := lift1 Log.
Definition exp : Expr -> result Expr := lift1 Exp.

(** [flatten(a)]: reshape to the one axis [{ a.Shape().TotalSize() }] *)
Definition flatten (a : Expr) : result Expr :=
  do n <- deref a;
  OK (Some (Reshape n [TotalSize (Node_Shape n)])).

(** [sum(a, axis = ax)] and [mean(a, axis = ax)] *)
Definition sum (a : Expr) (ax : Z) : result Expr :=
  do axis <- ToCNTKAxis a ax;
  do n <- deref a;
  OK (Some (ReduceSum n axis)).

Definition mean (a : Expr) (ax : Z) : result Expr :=
  do axis <- ToCNTKAxis a ax;
  do n <- deref a;
  OK (Some (ReduceMean n axis)).

(** [logsoftmax(x)], along engine axis 0 *)
Definition logsoftmax (x : Expr) : result Expr :=
  do n <- deref x;
  OK (Some (LogSoftmax n (StaticAxis 0)
              ("LogSoftmax(" +:+ Node_Name n +:+ ",Axis(0))"))).

(** o = unnormalized log prob; y = label as an index, not one-hot *)
Definition cross_entropy (o y : Expr) : result Expr :=
  do on <- deref o;
  do numClasses <- NDShape_at (Node_Shape on) 0;
  do yn <- deref y;
  let yOneHot := OneHotOp yn numClasses true (StaticAxis 0) in
  OK (Some (Alias (CrossEntropyWithSoftmax on yOneHot (StaticAxis 0))
              ("CrossEntropyWithSoftmax(" +:+ Node_Name on +:+ ",OneHot("
                 +:+ Node_Name yn +:+ ",)" +:+ pretty numClasses +:+ ")"))).

(** [square(a)] *)
Definition square (a : Expr) : result Expr := mul a a.

(** *** Constants *)

(** [InternalOps::Constant(const CNTK::NDShape& viewShape, init,
    isVolatile)] *)
Definition Constant (viewShape : NDShape) (init : Dictionary)
           (isVolatile : bool) : result Expr :=
  if Dict.Contains init "from_vector" then
    do v <- Dict.at_ init "from_vector";
    do initData <- Dict.Value_NDArrayView v;
    if negb (TotalSize (view_shape initData) =? TotalSize viewShape) then
      Raise (InvalidArgument "marian::constant: vector size does not match viewShape")
    else OK (Some (ConstantNode viewShape (view_data initData) isVolatile))
  else
    Raise (InvalidArgument "BUGBUG: no public Constant() from ParameterInitializer?").

(** [InternalOps::Constant(const Shape& npShape, init, isVolatile)] *)
Definition Constant_np (npShape : Shape) (init : Dictionary)
           (isVolatile : bool) : result Expr :=
  let viewShape := mappers.ToNDShape npShape in
  Constant viewShape init isVolatile.

(** [constant(npShape, init)], without a graph *)
Definition constant (npShape : Shape) (init : Dictionary) : result Expr :=
  Constant_np npShape init false.

(** *** Dropout *)

(** The process state [DropoutMask] touches: its function-local
    [static int seed] and the state of the C generator. *)
Record Runtime : Type := mkRuntime {
  seed : Z;
  rng : RandState
}.

(** the [n] evaluations of the lambda
    [(rand() < RAND_MAXxP) ? invKeepProb : 0], in index order *)
Fixpoint draw (n : nat) (RAND_MAXxP invKeepProb : float) (g : RandState)
  : list float * RandState :=
  match n with
  | O => ([], g)
  | S n' =>
      let '(r, g) := rand g in
      let m := if F32.ltb (F32.of_Z r) RAND_MAXxP then invKeepProb
               else F32.of_Z 0 in
      let '(rest, g) := draw n' RAND_MAXxP invKeepProb g in
      (m :: rest, g)
  end.

(** [std::vector<float> DropoutMask(size_t n, float dropProb)] *)
Definition DropoutMask (n : Z) (dropProb : float) (rt : Runtime)
  : list float * Runtime :=
  let g := srand (to_unsigned (seed rt)) in
  let seed' := to_int (seed rt + 1) in
  let keepProb := F32.sub (F32.of_Z 1) dropProb in
  let RAND_MAXxP := F32.mul keepProb (F32.of_Z RAND_MAX) in
  let invKeepProb := F32.div (F32.of_Z 1) keepProb in
  let '(mask, g) := draw (Z.to_nat n) RAND_MAXxP invKeepProb g in
  (mask, mkRuntime seed' g).

(** [Expr DropoutMask(float prob, const Shape& shape)] *)
Definition DropoutMask_Shape (prob : float) (shape : Shape) (rt : Runtime)
  : result Expr * Runtime :=
  let '(mask, rt) := DropoutMask (to_size_t (Shape_elements shape)) prob rt in
  (Constant_np shape (inits.WrappedVectorInitializer mask) false, rt).

(** [Expr DropoutMask(float prob, const ShapeProxy& shape)] *)
Definition DropoutMask_Proxy (prob : float) (shape : NDShape) (rt : Runtime)
  : result Expr * Runtime :=
  let '(mask, rt) :=
    DropoutMask (to_size_t (ShapeProxy.elements shape)) prob rt in
  (Constant shape (inits.WrappedVectorInitializer mask) false, rt).

(** [dropout(const Expr& x, const Expr& mask)] *)
Definition dropout_mask (x mask : Expr) : result Expr := mul x mask.

(** [dropout(const Expr& x, float dropProb)] *)
Definition dropout (x : Expr) (dropProb : float) (rt : Runtime)
  : result Expr * Runtime :=
  match Expr_Shape x with
  | Raise e => (Raise e, rt)
  | OK shape =>
      let '(mask, rt) := DropoutMask_Proxy dropProb shape rt in
      (do mask <- mask; dropout_mask x mask, rt)
  end.

(** *** Training cost *)

(** The operands of a binary operator are built left to right. *)
Definition Cost (logits indices mask : Expr) (costType : string)
           (smoothing : float) : result Expr :=
  do ce <- cross_entropy logits indices;
  do ce <-
    (if F32.ltb (F32.of_Z 0) smoothing then
       do ls <- logsoftmax logits;
       do ceq <- mean ls (-1);
       do l <- mul_ne (Float (F32.sub (F32.of_Z 1) smoothing)) ce;
       do r <- mul_ne (Float smoothing) ceq;
       sub l r
     else OK ce);
  do ce <- (if mask is Some _ then mul ce mask else OK ce);
  if String.eqb costType "ce-mean" || String.eqb costType "cross-entropy" then
    do s <- sum ce (-3); mean s (-2)
  else if String.eqb costType "ce-mean-words" then
    do a <- sum ce (-3); do a <- sum a (-2);
    do b <- sum mask (-3); do b <- sum b (-2);
    div a b
  else if String.eqb costType "ce-sum" then
    do a <- sum ce (-3); sum a (-2)
  else if String.eqb costType "perplexity" then
    do a <- sum ce (-3); do a <- sum a (-2);
    do b <- sum mask (-3); do b <- sum b (-2);
    do q <- div a b;
    exp q
  else if String.eqb costType "ce-rescore" then
    do a <- sum ce (-3); neg a
  else
    do s <- sum ce (-3); mean s (-2).

(** *** Guided alignment *)

(** [data::CorpusBatch], as far as [guidedAlignmentCost] reads it *)
Record CorpusBatch : Type := mkCorpusBatch {
  m_guidedAlignment : list float
}.

(** the literal [1e-6], a [double], stored into [float eps] *)
Definition eps : float :=
  F64.to_float (F64.div (F64.of_Z 1) (F64.of_Z 1000000)).

(** [guidedAlignmentCost(graph, batch, options, att)]; the graph is not
    used by the body. *)
Definition guidedAlignmentCost (batch : CorpusBatch) (options : Dictionary)
           (att : Expr) : result Expr :=
  do attShape <- Expr_Shape att;
  do dimBatch <- ShapeProxy.at_ attShape 0;
  do dimSrc <- ShapeProxy.at_ attShape 2;
  do dimTrg <- ShapeProxy.at_ attShape 3;
  do aln <- Constant_np [dimBatch; 1; dimSrc; dimTrg]
                        (inits.from_vector (m_guidedAlignment batch)) false;
  do guidedCostType <- Options.get_string options "guided-alignment-cost";
  do alnCost <-
    (if String.eqb guidedCostType "mse" then
       do d <- sub att aln; do q <- square d; do f <- flatten q;
       do s <- sum f 0;
       div_en s (Int (to_int (2 * dimBatch)))
     else if String.eqb guidedCostType "mult" then
       do p <- mul att aln; do f <- flatten p; do s <- sum f 0;
       do t <- add_en s (Float eps); do l <- log t; do m <- neg l;
       div_en m (Int dimBatch)
     else if String.eqb guidedCostType "ce" then
       do t <- add_en att (Float eps); do l <- log t; do p <- mul aln l;
       do f <- flatten p; do s <- sum f 0; do m <- neg s;
       div_en m (Int dimBatch)
     else
       Raise (InvalidArgument "Unknown alignment cost type"));
  do guidedScalar <- Options.get_float options "guided-alignment-weight";
  mul_ne (Float guidedScalar) alnCost.

(** *** ExpressionGraph *)

(** The engine side of an allocation: the next free handle identity and
    the tensor each live parameter holds. *)
Record EngineState : Type := mkEngineState {
  next_uid : nat;
  values : gmap nat Tensor
}.

(** Modelled from the spec: the [CNTK::Parameter] constructors are
    engine code; creating a parameter allocates a new trainable tensor
    of the given shape, distinct from every earlier one. *)
Definition NewParameter (shape : NDShape) (name : string) (value : Tensor)
           (e : EngineState) : ParameterHandle * EngineState :=
  let p := mkParameter (next_uid e) shape name in
  (p, mkEngineState (S (next_uid e)) (<[next_uid e := value]> (values e))).

(** [m_allGradients] is keyed by the parameter handle, that is by the
    identity of the allocation; an entry holding [None] is a null
    [NDArrayViewPtr]. *)
Record ExpressionGraph : Type := mkExpressionGraph {
  m_allParametersMap : gmap string ParameterHandle;
  m_allParameters : list ParameterHandle;
  m_inferenceOnly : bool;
  m_allGradients : gmap nat (option Tensor)
}.

(** [ExpressionGraph()] *)
Definition ExpressionGraph_new : ExpressionGraph :=
  mkExpressionGraph ∅ [] false ∅.

Definition setInference (inference : bool) (g : ExpressionGraph)
  : ExpressionGraph :=
  mkExpressionGraph (m_allParametersMap g) (m_allParameters g) inference
                    (m_allGradients g).

Definition graph_constant (g : ExpressionGraph) (npShape : Shape)
           (init : Dictionary) : result Expr :=
  Constant_np npShape init (m_inferenceOnly g).

(** the three statements both branches of case 1 end with:
    [m_allParametersMap.insert], [m_allParameters.push_back] and
    [m_allGradients[p] = nullptr] *)
Definition register (name : string) (p : ParameterHandle)
           (g : ExpressionGraph) : ExpressionGraph :=
  mkExpressionGraph (<[name := p]> (m_allParametersMap g))
                    (m_allParameters g ++ [p])
                    (m_inferenceOnly g)
                    (<[p_uid p := None]> (m_allGradients g)).

(** [Expr param(name, shape, init, fixed)] *)
Definition param (name : string) (shape : Shape) (init : Dictionary)
           (fixed : bool) (g : ExpressionGraph) (e : EngineState)
  : result (Expr * ExpressionGraph * EngineState) :=
  let viewShape := mappers.ToNDShape shape in
  match m_allParametersMap g !! name with
  | None => (* case 1: create a new parameter *)
      if Dict.Contains init "from_vector" then
        do v <- Dict.at_ init "from_vector";
        do initData <- Dict.Value_NDArrayView v;
        if negb (TotalSize (view_shape initData) =? TotalSize viewShape) then
          Raise (InvalidArgument
                   "marian::constant: vector size does not match viewShape")
        else
          let initVal := CloneTensor initData viewShape in
          let '(p, e) := NewParameter viewShape "" initVal e in
          OK (Some (ParameterNode p), register name p g, e)
      else
        let '(p, e) :=
          NewParameter viewShape name (FillTensor init viewShape) e in
        OK (Some (ParameterNode p), register name p g, e)
  | Some p => (* case 2: retrieve an existing parameter *)
      if negb (bool_decide (p_shape p = viewShape)) then
        Raise (InvalidArgument
                 ("marian::param: Requested shape for existing parameter '"
                    +:+ name +:+ "' does not match original shape"))
      else OK (Some (ParameterNode p), g, e)
  end.

(** [Expr get(name)] *)
Definition get (name : string) (g : ExpressionGraph) : Expr :=
  match m_allParametersMap g !! name with
  | Some p => Some (ParameterNode p)
  | None => None
  end.

(** [backprop(root)]: [root.Backward(m_allGradients)] *)
Definition backprop (root : Expr) (g : ExpressionGraph) (e : EngineState)
  : result ExpressionGraph :=
  do n <- deref root;
  OK (mkExpressionGraph (m_allParametersMap g) (m_allParameters g)
                        (m_inferenceOnly g)
                        (Backward n (values e) (m_allGradients g))).

Definition backward (root : Expr) (g : ExpressionGraph) (e : EngineState)
  : result ExpressionGraph := backprop root g e.

(** *** OptimizerWrapper *)

(** Modelled from the spec: the learner is engine code, an opaque
    "apply gradient" service.  It is built over a list of parameters
    and each update applies one gradient step to each of them, reading
    that parameter's entry of the gradient map. *)
Record Learner : Type := mkLearner {
  l_algorithm : AlgorithmType;
  l_eta : float;
  l_parameters : list ParameterHandle;
  l_updates : nat
}.

(** Modelled from the spec: the learner reads the gradient of a
    parameter from the map it is handed; a missing or null entry is no
    gradient. *)
Definition gradient_of (gradients : gmap nat (option Tensor))
           (p : ParameterHandle) : option Tensor :=
  match gradients !! p_uid p with
  | Some g => g
  | None => None
  end.

(** Modelled from the spec: [Learner::Update], one gradient step on each
    parameter the learner was built over. *)
Definition Learner_Update (l : Learner) (gradients : gmap nat (option Tensor))
           (e : EngineState) : Learner * EngineState :=
  let step (vals : gmap nat Tensor) (p : ParameterHandle) :=
    alter (ApplyGradient (l_algorithm l) (l_eta l) (l_updates l) p
                         (gradient_of gradients p))
          (p_uid p) vals in
  (mkLearner (l_algorithm l) (l_eta l) (l_parameters l) (S (l_updates l)),
   mkEngineState (next_uid e) (fold_left step (l_parameters l) (values e))).

(** [m_eta] and [m_algorithmType] are what the lambda stored in
    [m_LazyCreateLearner] captures; [m_learner] is [None] until the
    first update. *)
Record OptimizerWrapper : Type := mkOptimizerWrapper {
  m_eta : float;
  m_algorithmType : AlgorithmType;
  m_learner : option Learner
}.

(** [OptimizerWrapper(eta, algorithmType)] *)
Definition Optimizer (eta : float) (algorithmType : AlgorithmType)
  : OptimizerWrapper :=
  mkOptimizerWrapper eta algorithmType None.

(** the stored lambda: a learner over [graph->m_allParameters] *)
Definition m_LazyCreateLearner (o : OptimizerWrapper) (graph : ExpressionGraph)
  : Learner :=
  match m_algorithmType o with
  | Sgd => mkLearner Sgd (m_eta o) (m_allParameters graph) 0
  | Adam => mkLearner Adam (m_eta o) (m_allParameters graph) 0
  end.

(** [void update(const Ptr<ExpressionGraph>& graph)] *)
Definition update (o : OptimizerWrapper) (graph : ExpressionGraph)
           (e : EngineState) : OptimizerWrapper * EngineState :=
  let learner :=
    match m_learner o with
    | None => m_LazyCreateLearner o graph
    | Some l => l
    end in
  let '(learner, e) := Learner_Update learner (m_allGradients graph) e in
  (mkOptimizerWrapper (m_eta o) (m_algorithmType o) (Some learner), e).

(** *** Client programs *)

(** A training program is a sequence of calls on one graph and one
    optimizer.  A call that throws leaves both as they were. *)
Record Session : Type := mkSession {
  graph : ExpressionGraph;
  optimizer : OptimizerWrapper;
  engine : EngineState
}.

Inductive Call : Type :=
| CallParam (name : string) (shape : Shape) (init : Dictionary) (fixed : bool)
| CallSetInference (inference : bool)
| CallBackward (root : Expr)
| CallUpdate.

Definition step (s : Session) (c : Call) : Session :=
  match c with
  | CallParam name shape init fixed =>
      match param name shape init fixed (graph s) (engine s) with
      | OK (_, g, e) => mkSession g (optimizer s) e
      | Raise _ => s
      end
  | CallSetInference b =>
      mkSession (setInference b (graph s)) (optimizer s) (engine s)
  | CallBackward root =>
      match backward root (graph s) (engine s) with
      | OK g => mkSession g (optimizer s) (engine s)
      | Raise _ => s
      end
  | CallUpdate =>
      let '(o, e) := update (optimizer s) (graph s) (engine s) in
      mkSession (graph s) o e
  end.

Definition run (s : Session) (calls : list Call) : Session :=
  fold_left step calls s.
End WithEngine.
End marian.

(* ===================================================================== *)
(** ** Reference instances *)
(* ===================================================================== *)

(** A small engine to run the definitions on: reductions keep the rank
    and collapse the reduced axis, element-wise operators take the shape
    of their higher-rank operand, tensors are integers and a gradient
    step adds one. *)
Module reference.
Definition collapse (s : NDShape) (axis : Axis) : NDShape :=
  match axis with StaticAxis i => <[Z.to_nat i := 1]> s end.

Definition broadcast (a b : NDShape) : NDShape :=
  if (length a <? length b)%nat then b else a.

Fixpoint infer (n : Node) : NDShape :=
  match n with
  | ParameterNode p => p_shape p
  | ConstantNode shape _ _ => shape
  | ScalarNode _ => []
  | Negate a | Log a | Exp a => infer a
  | Plus a b | Minus a b | ElementTimes a b | ElementDivide a b =>
      broadcast (infer a) (infer b)
  | ReduceSum a axis | ReduceMean a axis => collapse (infer a) axis
  | Reshape _ shape => shape
  | OneHotOp a numClasses _ _ => numClasses :: infer a
  | CrossEntropyWithSoftmax o _ axis => collapse (infer o) axis
  | LogSoftmax x _ _ => infer x
  | Alias x _ => infer x
  end.

Definition engine : Engine := {|
  OutputShape := infer;
  Tensor := Z;
  FillTensor := fun _ _ => 0;
  CloneTensor := fun _ _ => 0;
  Backward := fun _ _ gradients => (fun _ => Some 1) <$> gradients;
  ApplyGradient := fun _ _ _ _ _ value => value + 1
|}.

(** The generator of the Microsoft C runtime, the toolchain this
    header is written for: [holdrand = holdrand * 214013 + 2531011;
    return (holdrand >> 16) & 0x7fff;]. *)
Definition msvcrt : LibC := {|
  RAND_MAX := 32767;
  RandState := Z;
  srand := fun seed => seed;
  rand := fun holdrand =>
    let holdrand := (holdrand * 214013 + 2531011) mod 2 ^ 32 in
    (Z.land (Z.shiftr holdrand 16) 32767, holdrand)
|}.

(** a leaf of a given engine shape *)
Definition leaf (shape : NDShape) : Expr := Some (ConstantNode shape [] false).
End reference.

(* ===================================================================== *)
(** ** The specification's reading of the composite operators *)
(* ===================================================================== *)

Module Spec.
Section WithEngine.
Context `{Engine} `{LibC}.

(** [Cost], following the specification's words: the per-token
    cross-entropy, interpolated with the uniform-target term when
    smoothing is positive, multiplied by the mask when one is supplied,
    then reduced as the table says. *)
Inductive Reduction : Type :=
| MeanOverBatchOfSequenceSum
| TokenSumOverMaskSum
| TokenSum
| ExpOfPerTokenMean
| NegativeSequenceSum.

Definition reduction_of (costType : string) : Reduction :=
  if decide (costType = "ce-mean" \/ costType = "cross-entropy")
  then MeanOverBatchOfSequenceSum
  else if decide (costType = "ce-mean-words") then TokenSumOverMaskSum
  else if decide (costType = "ce-sum") then TokenSum
  else if decide (costType = "perplexity") then ExpOfPerTokenMean
  else if decide (costType = "ce-rescore") then NegativeSequenceSum
  else MeanOverBatchOfSequenceSum.

(** the layout is [... x time x batch x 1]: axis -3 runs over the
    positions of a sequence, axis -2 over the batch *)
Definition sum_over_sequence (x : Expr) : result Expr := marian.sum x (-3).
Definition sum_over_batch (x : Expr) : result Expr := marian.sum x (-2).
Definition mean_over_batch (x : Expr) : result Expr := marian.mean x (-2).
Definition sum_over_tokens (x : Expr) : result Expr :=
  do s <- sum_over_sequence x; sum_over_batch s.

Definition smoothed (logits ce : Expr) (smoothing : float) : result Expr :=
  if F32.ltb F32.zero smoothing then
    do ls <- marian.logsoftmax logits;
    do meanLogSoftmax <- marian.mean ls (-1);
    do l <- marian.mul_ne (Float (F32.sub F32.one smoothing)) ce;
    do r <- marian.mul_ne (Float smoothing) meanLogSoftmax;
    marian.sub l r
  else OK ce.

Definition masked (ce mask : Expr) : result Expr :=
  match mask with
  | Some _ => marian.mul ce mask
  | None => OK ce
  end.

Definition per_token_ce (logits indices mask : Expr) (smoothing : float)
  : result Expr :=
  do ce <- marian.cross_entropy logits indices;
  do ce <- smoothed logits ce smoothing;
  masked ce mask.

Definition reduce (r : Reduction) (ce mask : Expr) : result Expr :=
  match r with
  | MeanOverBatchOfSequenceSum =>
      do s <- sum_over_sequence ce; mean_over_batch s
  | TokenSumOverMaskSum =>
      do a <- sum_over_tokens ce; do b <- sum_over_tokens mask;
      marian.div a b
  | TokenSum => sum_over_tokens ce
  | ExpOfPerTokenMean =>
      do a <- sum_over_tokens ce; do b <- sum_over_tokens mask;
      do q <- marian.div a b;
      marian.exp q
  | NegativeSequenceSum =>
      do s <- sum_over_sequence ce; marian.neg s
  end.

Definition Cost (logits indices mask : Expr) (costType : string)
           (smoothing : float) : result Expr :=
  do ce <- per_token_ce logits indices mask smoothing;
  reduce (reduction_of costType) ce mask.

(** [guidedAlignmentCost], following the specification's words: one of
    three losses between the attention and the reference alignment,
    divided by a multiple of the batch size, scaled by the weight; any
    other kind is an error. *)
Inductive AlignmentLoss : Type := MSE | MULT | CE.

Definition alignment_loss_of (costType : string) : option AlignmentLoss :=
  if decide (costType = "mse") then Some MSE
  else if decide (costType = "mult") then Some MULT
  else if decide (costType = "ce") then Some CE
  else None.

Definition sum_all (x : Expr) : result Expr :=
  do f <- marian.flatten x; marian.sum f 0.

Definition raw_loss (l : AlignmentLoss) (att aln : Expr) : result Expr :=
  match l with
  | MSE =>
      do d <- marian.sub att aln; do q <- marian.square d; sum_all q
  | MULT =>
      do p <- marian.mul att aln; do s <- sum_all p;
      do t <- marian.add_en s (Float marian.eps);
      do l <- marian.log t; marian.neg l
  | CE =>
      do t <- marian.add_en att (Float marian.eps);
      do l <- marian.log t; do p <- marian.mul aln l;
      do s <- sum_all p; marian.neg s
  end.

(** [divisor l dimBatch] is what the loss [l] is divided by *)
Definition alignment_cost (divisor : AlignmentLoss -> Z -> Z)
           (batch : marian.CorpusBatch) (options : Dictionary) (att : Expr)
  : result Expr :=
  do attShape <- marian.Expr_Shape att;
  do dimBatch <- ShapeProxy.at_ attShape 0;
  do dimSrc <- ShapeProxy.at_ attShape 2;
  do dimTrg <- ShapeProxy.at_ attShape 3;
  do aln <- marian.Constant_np [dimBatch; 1; dimSrc; dimTrg]
              (inits.from_vector (marian.m_guidedAlignment batch)) false;
  do costType <- Options.get_string options "guided-alignment-cost";
  do normalized <-
    (match alignment_loss_of costType with
     | Some l =>
         do raw <- raw_loss l att aln;
         marian.div_en raw (Int (divisor l dimBatch))
     | None => Raise (InvalidArgument "Unknown alignment cost type")
     end);
  do weight <- Options.get_float options "guided-alignment-weight";
  marian.mul_ne (Float weight) normalized.

(** what the header divides by: twice the batch size for the squared
    error, the batch size for the other two *)
Definition divisor_amended (l : AlignmentLoss) (dimBatch : Z) : Z :=
  match l with
  | MSE => to_int (2 * dimBatch)
  | MULT | CE => dimBatch
  end.

(** A run of the process as far as the C generator is concerned:
    dropout masks being drawn, and anything else that reseeds or
    advances the generator in between. *)
Inductive Event : Type :=
| DropoutCall (n : Z) (dropProb : float)
| OtherRandUse (f : RandState -> RandState).

Definition dropout_calls (events : list Event) : list (Z * float) :=
  omap (fun ev => match ev with
                  | DropoutCall n p => Some (n, p)
                  | OtherRandUse _ => None
                  end) events.

Fixpoint masks_of_run (events : list Event) (rt : marian.Runtime)
  : list (list float) :=
  match events with
  | [] => []
  | DropoutCall n p :: rest =>
      let '(mask, rt) := marian.DropoutMask n p rt in
      mask :: masks_of_run rest rt
  | OtherRandUse f :: rest =>
      masks_of_run rest (marian.mkRuntime (marian.seed rt) (f (marian.rng rt)))
  end.

(** the process starts with the static counter at 1 *)
Definition process_start (g : RandState) : marian.Runtime :=
  marian.mkRuntime 1 g.

(** the mask a call draws when the counter stands at [seed] *)
Definition mask_of_seed (seed : Z) (n : Z) (dropProb : float) : list float :=
  let keepProb := F32.sub (F32.of_Z 1) dropProb in
  fst (marian.draw (Z.to_nat n) (F32.mul keepProb (F32.of_Z RAND_MAX))
                   (F32.div (F32.of_Z 1) keepProb)
                   (srand (to_unsigned seed))).

(** the counter after [k] calls, starting from [seed] *)
Fixpoint seed_after (k : nat) (seed : Z) : Z :=
  match k with
  | O => seed
  | S k' => seed_after k' (to_int (seed + 1))
  end.
End WithEngine.
End Spec.


(* ===================================================================== *)
(** ** Auxiliary notions used by the statements *)
(* ===================================================================== *)

(** the mathematical element count of a sequence of extents *)
Definition product (l : list Z) : Z := fold_right Z.mul 1 l.

(** the scalars that read 0, and those that read 1, in the three operand
    types *)
Definition zeros_of_all_types : list Number :=
  [Int 0; Float (S754_zero false); Float (S754_zero true);
   Double (S754_zero false); Double (S754_zero true)].

Definition ones_of_all_types : list Number :=
  [Int 1; Float F32.one; Double F64.one].

(** what one turn of the loop does to the destination dictionary *)
Definition merge_dict (B A : Dictionary) (key : string) : Dictionary :=
  if Dict.Contains A key then A else <[key := default DV_None (B !! key)]> A.

(** an initializer fits a shape when it is not a wrapped buffer, or when
    its buffer has as many elements as the shape *)
Definition init_fits (init : Dictionary) (shape : Shape) : bool :=
  match init !! "from_vector" with
  | None => true
  | Some (DV_NDArrayView view) =>
      TotalSize (view_shape view) =? TotalSize (mappers.ToNDShape shape)
  | Some _ => false
  end.

(** the name the engine is given for a new parameter: the buffer branch
    passes none *)
Definition engine_name (init : Dictionary) (name : string) : string :=
  if Dict.Contains init "from_vector" then "" else name.

(** the decimal literals 0.1 and 0.2 as [float] *)
Definition f_0_1 : float := F64.to_float (F64.div (F64.of_Z 1) (F64.of_Z 10)).
Definition f_0_2 : float := F64.to_float (F64.div (F64.of_Z 2) (F64.of_Z 10)).

(** Handles are handed out in increasing order: every registered
    parameter was allocated before the engine's next free identity. *)
Definition allocated `{Engine} (s : marian.Session) : Prop :=
  forall p, p ∈ marian.m_allParameters (marian.graph s) ->
            (p_uid p < marian.next_uid (marian.engine s))%nat.

(** Relative to a moment with parameters [old] and next identity [n]:
    whatever is registered now was there then, or was allocated since. *)
Definition since `{Engine} (old : list ParameterHandle) (n : nat)
           (s : marian.Session) : Prop :=
  (n <= marian.next_uid (marian.engine s))%nat /\
  forall p, p ∈ marian.m_allParameters (marian.graph s) ->
            p ∈ old \/ (n <= p_uid p)%nat.


(** the masks of a sequence of calls when the counter stands at [seed]
    before the first of them *)
Fixpoint masks_from `{LibC} (seed : Z) (calls : list (Z * float))
  : list (list float) :=
  match calls with
  | [] => []
  | (n, p) :: rest =>
      Spec.mask_of_seed seed n p :: masks_from (to_int (seed + 1)) rest
  end.

(** The engine nodes of the per-token cross-entropy, written out from
    the specification's words: the cross-entropy of the logits against
    the one-hot encoding of the indices over the classes; interpolated,
    when smoothing is positive, as (1 - smoothing) * ce - smoothing *
    (mean of the log-softmax over the classes); multiplied by the mask
    when there is one.  A factor that reads 1 leaves its operand as it
    is. *)
Definition times_scalar (k : float) (x : Node) : Node :=
  if F32.eqb k (F32.of_Z 1) then x else ElementTimes (ScalarNode k) x.





(** The engine nodes of the three alignment losses, written out from the
    specification's words; [flat_sum] is the sum over all elements, and
    a divisor that reads 1 leaves its operand as it is. *)
Definition flat_sum `{Engine} (x : Node) : Node :=
  ReduceSum (Reshape x [TotalSize (marian.Node_Shape x)]) (StaticAxis 0).

Definition divided_by (k : Z) (x : Node) : Node :=
  if k =? 1 then x else ElementDivide x (ScalarNode (F32.of_Z k)).

Definition alignment_node `{Engine} (l : Spec.AlignmentLoss) (att aln : Node)
           (dimBatch : Z) : Node :=
  match l with
  | Spec.MSE =>
      divided_by (2 * dimBatch)
                 (flat_sum (ElementTimes (Minus att aln) (Minus att aln)))
  | Spec.MULT =>
      divided_by dimBatch
                 (Negate (Log (Plus (flat_sum (ElementTimes att aln))
                                    (ScalarNode marian.eps))))
  | Spec.CE =>
      divided_by dimBatch
                 (Negate (flat_sum
                            (ElementTimes aln
                               (Log (Plus att (ScalarNode marian.eps))))))
  end.


(** the alignment cost kinds [guidedAlignmentCost] tells apart *)
Definition alignment_cost_types : list string := ["mse"; "mult"; "ce"].

(** a guided-alignment configuration with unit weight *)
Definition alignment_options (costType : string) : Dictionary :=
  <["guided-alignment-cost" := DV_String (wide.widen costType)]>
    (<["guided-alignment-weight" := DV_Float F32.one]> ∅).

(** a float that is not below zero: a zero, a positive number, plus
    infinity, or not a number *)
Definition not_negative (f : float) : Prop :=
  match f with
  | S754_finite true _ _ | S754_infinity true => False
  | _ => True
  end.

(** a runtime whose [rand] never returns a negative number *)
Definition rand_not_negative `{LibC} : Prop :=
  forall g : RandState, 0 <= fst (rand g).

(** where the Microsoft generator, seeded with 1, first returns
    [RAND_MAX] *)
Definition first_max_draw : nat := Z.to_nat 38723.

(** The engine nodes of each row of the table.  In the engine's order
    the operands are laid out [1 x batch x time ...]: engine axis 2 runs
    over the positions of a sequence, engine axis 1 over the batch. *)
Definition reduction_node (r : Spec.Reduction) (ce mask : Node) : Node :=
  let sequence_sum x := ReduceSum x (StaticAxis 2) in
  let token_sum x := ReduceSum (sequence_sum x) (StaticAxis 1) in
  match r with
  | Spec.MeanOverBatchOfSequenceSum => ReduceMean (sequence_sum ce) (StaticAxis 1)
  | Spec.TokenSumOverMaskSum => ElementDivide (token_sum ce) (token_sum mask)
  | Spec.TokenSum => token_sum ce
  | Spec.ExpOfPerTokenMean => Exp (ElementDivide (token_sum ce) (token_sum mask))
  | Spec.NegativeSequenceSum => Negate (sequence_sum ce)
  end.

(** an operand with a time and a batch axis, before and after the sum
    over time *)
Definition batch_laid_out `{Engine} (x : Node) : Prop :=
  3 <= Rank (marian.Node_Shape x) <= 2 ^ 31 /\
  2 <= Rank (marian.Node_Shape (ReduceSum x (StaticAxis 2))) <= 2 ^ 31.

(* ===================================================================== *)
(** ** Further parts of the header *)
(* ===================================================================== *)

(** Modelled from the spec: [CNTK::Transform] is engine code; it applies
    a function to each element of a collection, in order, and collects
    the results.  A call that throws ends the traversal. *)
Fixpoint Transform {A B : Type} (f : A -> result B) (l : list A)
  : result (list B) :=
  match l with
  | [] => OK []
  | a :: rest =>
      do b <- f a;
      do bs <- Transform f rest;
      OK (b :: bs)
  end.

(** [ToCNTKAxes] once the rank has been read: every index is converted,
    then the vector is reversed. *)
Definition ToCNTKAxes_rank (rank : Z) (axisIndices : list Z)
  : result (list Axis) :=
  do res <- Transform (mappers.ToCNTKAxis_rank rank) axisIndices;
  OK (rev res).

(** the normalized form of an axis index for a rank:
    [axis < 0 ? axis + rank : axis] *)
Definition normalize_axis (rank axisIndex : Z) : Z :=
  if axisIndex <? 0 then axisIndex + rank else axisIndex.

Definition axis_in_range (rank axisIndex : Z) : Prop :=
  0 <= normalize_axis rank axisIndex < rank.

(** the indices 0, 1, ..., n - 1 *)
Definition iota (n : nat) : list Z := map Z.of_nat (seq 0 n).

(** *** Typed access to options *)

Module OptionsGet.
(** Modelled from the spec: [DictionaryValue::Value<int>] and
    [Value<std::vector<DictionaryValue>>], which fail on a value stored
    under another kind. *)
Definition Value_Int (v : DictionaryValue) : result Z :=
  match v with
  | DV_Int i => OK i
  | _ => Raise (EngineFault "DictionaryValue: wrong type")
  end.

Definition Value_Vector (v : DictionaryValue) : result (list DictionaryValue) :=
  match v with
  | DV_Vector l => OK l
  | _ => Raise (EngineFault "DictionaryValue: wrong type")
  end.

(** [VectorOf(const std::initializer_list<T>& v)] for [T = int] and for
    [T = std::wstring], the string type a [DictionaryValue] can be made
    of: each element becomes a [DictionaryValue] *)
Definition VectorOf_int (v : list Z) : list DictionaryValue := map DV_Int v.
Definition VectorOf_wstring (v : list wstring) : list DictionaryValue :=
  map DV_String v.

(** Modelled from the spec: [Dictionary::GetOrElse]; the default stands
    in for a missing key only, a value of another kind still fails. *)
Definition GetOrElse_float (d : Dictionary) (key : string) (deflt : float)
  : result float :=
  if Dict.Contains d key then do v <- Dict.at_ d key; Dict.Value_Float v
  else OK deflt.

(** [get<T>(key, deflt)] *)
Definition get_float_or (d : Dictionary) (key : string) (deflt : float)
  : result float := GetOrElse_float d key deflt.

(** [get<std::string>(key, deflt)] *)
Definition get_string_or (d : Dictionary) (key : string) (deflt : string)
  : result string :=
  if Dict.Contains d key then Options.get_string d key else OK deflt.

(** [get<std::vector<int>>(key)] *)
Definition get_vector_int (d : Dictionary) (key : string) : result (list Z) :=
  do v <- Dict.at_ d key;
  do intArray <- Value_Vector v;
  Transform Value_Int intArray.

(** [get<std::vector<std::string>>(key)] *)
Definition get_vector_string (d : Dictionary) (key : string)
  : result (list string) :=
  do v <- Dict.at_ d key;
  do intArray <- Value_Vector v;
  Transform (fun v => do wstr <- Dict.Value_String v; OK (wide.narrow wstr))
            intArray.
End OptionsGet.

(** a code unit that survives [narrow] followed by [widen]: a 7-bit one,
    or the sign extension of a negative [char] *)
Definition survives_narrowing (u : Z) : Prop :=
  0 <= u < 128 \/ 65408 <= u < 65536.

(** the keys a dictionary holds, as a set *)
Definition key_set (d : Dictionary) : gset string := dom d.

(** *** Further operators *)

(** Engine entry points the header calls besides those of [Node], taken
    as parameters: each builds the node of its call. *)
Class EngineOps : Type := {
  CNTK_Sigmoid : Node -> Node;
  CNTK_Tanh : Node -> string -> Node;
  CNTK_ReLU : Node -> Node;
  CNTK_Sqrt : Node -> Node;
  CNTK_Times : Node -> Node -> Node;
  CNTK_Transpose1 : Node -> Node;
  CNTK_Transpose : Node -> list Axis -> Node;
  CNTK_Splice : list Node -> Axis -> Node;
  CNTK_InnerProduct : Node -> Node -> Axis -> Node;
  CNTK_Slice : Node -> Axis -> Z -> Z -> Node
}.

Module ops.
Section WithEngine.
Context `{Engine} `{EngineOps} `{LibC}.

(** [mappers::ToCNTKAxes(const Expr& x, const Vector& axisIndices)] *)
Definition ToCNTKAxes (x : Expr) (axisIndices : list Z) : result (list Axis) :=
  do res <- Transform (marian.ToCNTKAxis x) axisIndices;
  OK (rev res).

(** [InternalOps::NotImplemented(const char* s)] *)
Definition NotImplemented (s : string) : result Expr := Raise (LogicError s).

(** [InternalOps::plus(b, e)] on the range [xs]: [n = e - b],
    [mid = b + n / 2]; a range with [mid == b] is answered by [*b], which
    the language leaves undefined for the empty range.  [fuel] bounds
    the depth of the recursion. *)
Fixpoint plus_range (fuel : nat) (xs : list Expr) : result Expr :=
  let n := length xs in
  let mid := (n / 2)%nat in
  if (mid =? 0)%nat then
    match xs with
    | b :: _ => OK b
    | [] => Raise (EngineFault "dereferenced the end of a range")
    end
  else
    match fuel with
    | O => Raise (EngineFault "recursion deeper than the range is long")
    | S fuel' =>
        do l <- plus_range fuel' (take mid xs);
        do r <- plus_range fuel' (drop mid xs);
        marian.add l r
    end.

(** [plus(const std::vector<Expr>& xs)] *)
Definition plus (xs : list Expr) : result Expr := plus_range (length xs) xs.

(** [logit(a)], which is the engine's sigmoid, [relu(a)], [tanh(x)],
    [swish(a)] and [sqrt(a, eps)] *)
Definition logit (a : Expr) : result Expr := marian.lift1 CNTK_Sigmoid a.
Definition relu (a : Expr) : result Expr := marian.lift1 CNTK_ReLU a.
Definition tanh (x : Expr) : result Expr :=
  do n <- marian.deref x;
  OK (Some (CNTK_Tanh n ("Tanh(" +:+ marian.Node_Name n +:+ ")"))).
Definition swish (a : Expr) : result Expr :=
  do s <- marian.lift1 CNTK_Sigmoid a; marian.mul a s.
Definition sqrt (a : Expr) (eps : float) : result Expr :=
  do s <- marian.add_en a (Float eps); marian.lift1 CNTK_Sqrt s.

(** the overloads on a vector: the operator applied to [plus(xs)] *)
Definition logit_vec (xs : list Expr) : result Expr :=
  do s <- plus xs; logit s.
Definition swish_vec (xs : list Expr) : result Expr :=
  do s <- plus xs; swish s.
Definition tanh_vec (xs : list Expr) : result Expr :=
  do s <- plus xs; marian.lift1 (fun n => CNTK_Tanh n "") s.
Definition relu_vec (xs : list Expr) : result Expr :=
  do s <- plus xs; relu s.

(** the operators the header leaves unimplemented *)
Definition leakyrelu (a : Expr) : result Expr := NotImplemented "leakyrelu".
Definition leakyrelu_vec (xs : list Expr) : result Expr :=
  do s <- plus xs; leakyrelu s.
Definition prelu (a : Expr) (alpha : float) : result Expr :=
  NotImplemented "prelu".
Definition prelu_vec (xs : list Expr) (alpha : float) : result Expr :=
  do s <- plus xs; prelu s alpha.
Definition dot (a b : Expr) (transA transB : bool) (scalar : float)
  : result Expr := NotImplemented "dot".
Definition bdot (a b : Expr) (transA transB : bool) (scalar : float)
  : result Expr := NotImplemented "bdot".
Definition select (a : Expr) (axis : Z) (indices : list Z) : result Expr :=
  NotImplemented "select".
Definition softmax_mask (a mask : Expr) : result Expr :=
  NotImplemented "softmax".
Definition layer_norm (x gamma beta : Expr) (eps : float) : result Expr :=
  NotImplemented "layer_norm".
Definition highway (y x t : Expr) : result Expr := NotImplemented "highway".
Definition highway_prefix (prefix : string) (x : Expr) : result Expr :=
  NotImplemented "highway".
Definition shift (x : Expr) (s : Shape) : result Expr := NotImplemented "shift".
Definition convert2cudnnFormat (x : Expr) : result Expr :=
  NotImplemented "convert2cudnnFormat".
Definition convertFromcudnnFormat (x : Expr) : result Expr :=
  NotImplemented "convertFromcudnnFormat".
Definition avg_pooling (x : Expr) (height width padHeight padWidth
                                   strideHeight strideWidth : Z)
  : result Expr := NotImplemented "avg_pooling".
Definition max_pooling (x : Expr) (height width padHeight padWidth
                                   strideHeight strideWidth : Z)
  : result Expr := NotImplemented "max_pooling".
Definition pooling_with_masking (x mask : Expr) (width : Z) (isEven : bool)
  : result Expr := NotImplemented "pooling_with_masking".

(** [debug(a, message)]: not implemented presently, returns [a] *)
Definition debug (a : Expr) (message : string) : result Expr := OK a.

(** [transpose(a, axes)], the overload that names the axes *)
Definition transpose (a : Expr) (axes : list Z) : result Expr :=
  do engineAxes <- ToCNTKAxes a axes;
  do n <- marian.deref a;
  OK (Some (CNTK_Transpose n engineAxes)).

(** [concatenate(concats, axis = ax)]; [concats.front()] is undefined on
    an empty vector.  The language does not order the two arguments of
    the engine call; the axis is converted first here. *)
Definition concatenate (concats : list Expr) (ax : Z) : result Expr :=
  match concats with
  | [] => Raise (EngineFault "front of an empty vector")
  | front :: _ =>
      do axis <- marian.ToCNTKAxis front ax;
      do nodes <- Transform marian.deref concats;
      OK (Some (CNTK_Splice nodes axis))
  end.

(** [repeat(a, repeats, axis = ax)] *)
Definition repeat (a : Expr) (repeats : Z) (ax : Z) : result Expr :=
  if repeats =? 1 then OK a
  else concatenate (replicate (Z.to_nat repeats) a) ax.

(** [reshape(a, ndShape)] *)
Definition reshape (a : Expr) (ndShape : Shape) : result Expr :=
  do n <- marian.deref a;
  OK (Some (Reshape n (mappers.ToNDShape ndShape))).

(** [flatten_2d(a)]: [dimI] (the source's [I]) is the first engine
    extent, [dimJ] (its [J]) the element count divided by it; the front of an empty shape and the division by
    an extent 0 are undefined. *)
Definition flatten_2d (a : Expr) : result Expr :=
  do n <- marian.deref a;
  let viewShape := marian.Node_Shape n in
  match viewShape with
  | [] => Raise (EngineFault "front of an empty vector")
  | dimI :: _ =>
      if dimI =? 0 then Raise (EngineFault "division by zero")
      else
        let dimJ := TotalSize viewShape / dimI in
        OK (Some (Reshape n [dimI; dimJ]))
  end.

(** [rows(a, indices)]: the indices become a constant vector of floats,
    one-hot encoded over the last engine extent of [a] and multiplied
    with it.  Raising "data must be a matrix" ends the call. *)
Definition rows (a : Expr) (indices : list Z) : result Expr :=
  do n <- marian.deref a;
  let viewShape := marian.Node_Shape n in
  if negb (Rank viewShape =? 2) then
    Raise (InvalidArgument "rows: data must be a matrix")
  else
    match last viewShape with
    | None => Raise (EngineFault "back of an empty vector")
    | Some numClasses =>
        let indicesFloat := map F32.of_Z indices in
        do indicesVar <-
          marian.Constant [to_size_t (Z.of_nat (length indices))]
                          (inits.WrappedVectorInitializer indicesFloat) false;
        do iv <- marian.deref indicesVar;
        let indicesOneHot := OneHotOp iv numClasses true (StaticAxis 0) in
        OK (Some (CNTK_Times n indicesOneHot))
    end.

(** [cols(a, indices)]: the rows of the transpose, transposed back *)
Definition cols (a : Expr) (indices : list Z) : result Expr :=
  do at_ <- marian.lift1 CNTK_Transpose1 a;
  do r <- rows at_ indices;
  marian.lift1 CNTK_Transpose1 r.

(** [scalar_product(a, b, axis = ax)] *)
Definition scalar_product (a b : Expr) (ax : Z) : result Expr :=
  do axis <- marian.ToCNTKAxis a ax;
  do an <- marian.deref a;
  do bn <- marian.deref b;
  OK (Some (CNTK_InnerProduct an bn axis)).

(** [weighted_average(in, weights, axis = ax)]: both reductions run
    along the axis converted for [in].  The arguments of a call are
    evaluated last to first, as the toolchain compiles them: the axis is
    converted before the product is built. *)
Definition weighted_average (in_ weights : Expr) (ax : Z) : result Expr :=
  do axis <- marian.ToCNTKAxis in_ ax;
  do p <- marian.mul in_ weights;
  do pn <- marian.deref p;
  let numer := Some (ReduceSum pn axis) in
  do axis' <- marian.ToCNTKAxis in_ ax;
  do wn <- marian.deref weights;
  let denom := Some (ReduceSum wn axis') in
  marian.div numer denom.

(** [step(a, step, ax)]: the slice [step, step + 1) along the axis *)
Definition step (a : Expr) (step_ : Z) (ax : Z) : result Expr :=
  do axis <- marian.ToCNTKAxis a ax;
  do n <- marian.deref a;
  OK (Some (CNTK_Slice n axis step_ (to_int (step_ + 1)))).

(** [ExpressionGraph::dropout(dropProb, shape)], on a [Shape] and on the
    proxy of an engine shape *)
Definition graph_dropout_Shape (dropProb : float) (shape : Shape)
           (rt : marian.Runtime) : result Expr * marian.Runtime :=
  marian.DropoutMask_Shape dropProb shape rt.
Definition graph_dropout_Proxy (dropProb : float) (shape : NDShape)
           (rt : marian.Runtime) : result Expr * marian.Runtime :=
  marian.DropoutMask_Proxy dropProb shape rt.
End WithEngine.
End ops.

(** the shape a leaf or a reshape was created with *)
Fixpoint Node_Shape_of_leaf (n : Node) : NDShape :=
  match n with
  | ParameterNode p => p_shape p
  | ConstantNode shape _ _ => shape
  | Reshape _ shape => shape
  | Alias x _ => Node_Shape_of_leaf x
  | _ => []
  end.

(** a reference instance of the further engine entry points, enough to
    run the operators: each call is recorded as an alias of its first
    operand, and the plain transpose as the reshape to the reversed
    shape *)
Definition reference_ops : EngineOps := {|
  CNTK_Sigmoid := fun n => Alias n "Sigmoid";
  CNTK_Tanh := fun n name => Alias n name;
  CNTK_ReLU := fun n => Alias n "ReLU";
  CNTK_Sqrt := fun n => Alias n "Sqrt";
  CNTK_Times := fun a _ => Alias a "Times";
  CNTK_Transpose1 := fun n =>
    Reshape n (rev (Node_Shape_of_leaf n));
  CNTK_Transpose := fun n _ => Alias n "Transpose";
  CNTK_Splice := fun ns _ =>
    match ns with n :: _ => Alias n "Splice" | [] => ScalarNode F32.zero end;
  CNTK_InnerProduct := fun a _ _ => Alias a "InnerProduct";
  CNTK_Slice := fun n _ _ _ => Alias n "Slice"
|}.

(** the operands of a tree of [Plus] nodes, left to right *)
Fixpoint summands (n : Node) : list Node :=
  match n with
  | Plus a b => summands a ++ summands b
  | _ => [n]
  end.

(** *** Batches *)

Module data.
(** [class SubBatch]: a batch of sentences of one data stream *)
Record SubBatch : Type := mkSubBatch {
  m_numSequences : Z;
  m_maxSequenceLength : Z;
  m_totalNumTokens : Z;
  m_indices : list Z;
  m_mask : list float
}.

(** [SubBatch(int size, int width)]: an empty batch (all mask values 0)
    of the given dimensions; [size * width] is computed in [int] and
    becomes the [size_t] length of both vectors. *)
Definition SubBatch_new (size width : Z) : SubBatch :=
  let n := Z.to_nat (to_size_t (to_int (size * width))) in
  mkSubBatch (to_size_t size) (to_size_t width) 0
             (replicate n 0) (replicate n (F32.of_Z 0)).

Definition batchSize (sb : SubBatch) : Z := to_int (m_numSequences sb).
Definition batchWidth (sb : SubBatch) : Z := to_int (m_maxSequenceLength sb).
Definition batchWords (sb : SubBatch) : Z := to_int (m_totalNumTokens sb).
Definition setWords (words : Z) (sb : SubBatch) : SubBatch :=
  mkSubBatch (m_numSequences sb) (m_maxSequenceLength sb) words
             (m_indices sb) (m_mask sb).

(** [class CorpusBatch]: a set of data streams, e.g. source and target *)
Record CorpusBatch : Type := mkCorpusBatch {
  m_streams : list SubBatch;
  m_guidedAlignment : list float
}.

Definition sets (b : CorpusBatch) : Z :=
  to_size_t (Z.of_nat (length (m_streams b))).

(** [front()] and [back()], undefined without a stream *)
Definition front (b : CorpusBatch) : result SubBatch :=
  match m_streams b with
  | sb :: _ => OK sb
  | [] => Raise (EngineFault "front of an empty vector")
  end.
Definition back (b : CorpusBatch) : result SubBatch :=
  match last (m_streams b) with
  | Some sb => OK sb
  | None => Raise (EngineFault "back of an empty vector")
  end.

(** [size()]: the number of sentences in the first sub-batch, and
    [words()]: the tokens present in the first stream *)
Definition size (b : CorpusBatch) : result Z :=
  do sb <- front b; OK (to_size_t (batchSize sb)).
Definition words (b : CorpusBatch) : result Z :=
  do sb <- front b; OK (to_size_t (batchWords sb)).

Definition getGuidedAlignment (b : CorpusBatch) : list float :=
  m_guidedAlignment b.
Definition setGuidedAlignment (aln : list float) (b : CorpusBatch)
  : CorpusBatch :=
  mkCorpusBatch (m_streams b) aln.

Definition split (b : CorpusBatch) (n : Z) : result (list CorpusBatch) :=
  Raise (LogicError "CorpusBatch::split not implemented").

(** the lambda of [fakeBatch]: a sub-batch of [batchSize] sentences of
    [len] words with every mask entry set to 1 *)
Definition fakeStream (batchSize len : Z) : SubBatch :=
  let sb := SubBatch_new (to_int batchSize) (to_int len) in
  let sb := mkSubBatch (m_numSequences sb) (m_maxSequenceLength sb)
                       (m_totalNumTokens sb) (m_indices sb)
                       (map (fun _ => F32.of_Z 1) (m_mask sb)) in
  setWords (to_size_t (Z.of_nat (length (m_mask sb)))) sb.

(** [fakeBatch(lengths, batchSize, guidedAlignment)] *)
Definition fakeBatch (lengths : list Z) (batchSize : Z)
           (guidedAlignment : bool) : result CorpusBatch :=
  let batch := mkCorpusBatch (map (fakeStream batchSize) lengths) [] in
  if guidedAlignment then
    match lengths, last lengths with
    | lengths_front :: _, Some lengths_back =>
        let n := to_size_t (to_size_t (batchSize * lengths_front)
                            * lengths_back) in
        OK (setGuidedAlignment (replicate (Z.to_nat n) (F32.of_Z 0)) batch)
    | _, _ => Raise (EngineFault "front of an empty vector")
    end
  else OK batch.

(** the part of a batch [guidedAlignmentCost] reads *)
Definition alignment_of (b : CorpusBatch) : marian.CorpusBatch :=
  marian.mkCorpusBatch (getGuidedAlignment b).

(** the number of non-0 entries in a mask *)
Definition valid_tokens (mask : list float) : Z :=
  Z.of_nat (length (filter (fun m => F32.eqb m F32.zero = false) mask)).
End data.

(** *** Invariants of a graph *)

(** The two registries of a graph hold the same handles, each once and
    under one name, and every handle stands for a live tensor. *)
Definition graph_consistent `{Engine} (s : marian.Session) : Prop :=
  let g := marian.graph s in
  let e := marian.engine s in
  NoDup (map p_uid (marian.m_allParameters g)) /\
  (forall p, p ∈ marian.m_allParameters g <->
             exists name, marian.m_allParametersMap g !! name = Some p) /\
  size (marian.m_allParametersMap g) = length (marian.m_allParameters g) /\
  (forall p, p ∈ marian.m_allParameters g ->
             (p_uid p < marian.next_uid e)%nat /\
             is_Some (marian.values e !! p_uid p)).

Definition is_update (c : marian.Call) : bool :=
  match c with
  | marian.CallUpdate => true
  | _ => false
  end.

(** how many of the calls are updates *)
Definition updates (calls : list marian.Call) : nat :=
  length (filter (fun c => is_update c = true) calls).

Definition is_param_of (name : string) (c : marian.Call) : bool :=
  match c with
  | marian.CallParam name' _ _ _ => bool_decide (name' = name)
  | _ => false
  end.
(* ===================================================================== *)
(** ** Properties: machine integers *)
(* ===================================================================== *)

Lemma to_int_small (z : Z) : is_int z -> to_int z = z.
Proof.
  unfold is_int, INT_MIN, INT_MAX, to_int. intros Hz.
  rewrite Z.mod_small; lia.
Qed.

Lemma to_size_t_small (z : Z) : is_size_t z -> to_size_t z = z.
Proof.
  unfold is_size_t, SIZE_MAX, to_size_t. intros Hz.
  rewrite Z.mod_small; lia.
Qed.

Lemma to_size_t_range (z : Z) : is_size_t (to_size_t z).
Proof.
  unfold is_size_t, SIZE_MAX, to_size_t.
  pose proof (Z.mod_pos_bound z (2 ^ 64)). lia.
Qed.

Lemma to_int_range (z : Z) : is_int (to_int z).
Proof.
  unfold is_int, INT_MIN, INT_MAX, to_int.
  pose proof (Z.mod_pos_bound (z + 2 ^ 31) (2 ^ 32)). lia.
Qed.

(** Going through [size_t] does not lose what an [int] keeps. *)
Lemma to_int_to_size_t (z : Z) : to_int (to_size_t z) = to_int z.
Proof.
  unfold to_int, to_size_t. f_equal.
  rewrite (Z.mod_eq z (2 ^ 64)) by lia.
  replace (z - 2 ^ 64 * (z / 2 ^ 64) + 2 ^ 31)
    with (z + 2 ^ 31 + (- (z / 2 ^ 64) * 2 ^ 32) * 2 ^ 32) by lia.
  apply Z_mod_plus_full.
Qed.

Lemma to_int_size_t_sum (a r : Z) :
  to_int (to_size_t (to_size_t a + r)) = to_int (a + r).
Proof.
  rewrite to_int_to_size_t. unfold to_int, to_size_t. f_equal.
  rewrite (Z.mod_eq a (2 ^ 64)) by lia.
  replace (a - 2 ^ 64 * (a / 2 ^ 64) + r + 2 ^ 31)
    with (a + r + 2 ^ 31 + (- (a / 2 ^ 64) * 2 ^ 32) * 2 ^ 32) by lia.
  apply Z_mod_plus_full.
Qed.

(* ===================================================================== *)
(** ** Properties: axis conversion *)
(* ===================================================================== *)

(** the axis index after [if (axisIndex < 0) axisIndex += rank;] *)
Lemma normalized_axis (r a : Z) :
  1 <= r <= 2 ^ 31 -> is_int a ->
  (if a <? 0 then to_int (to_size_t (to_size_t a + r)) else a)
  = (if a <? 0 then a + r else a) /\
  is_int (if a <? 0 then a + r else a).
Proof.
  intros Hr Ha. unfold is_int, INT_MIN, INT_MAX in *.
  destruct (a <? 0) eqn:Hneg; [|split; [reflexivity|lia]].
  apply Z.ltb_lt in Hneg. split; [|lia].
  rewrite to_int_size_t_sum. apply to_int_small.
  unfold is_int, INT_MIN, INT_MAX. lia.
Qed.

Lemma ToCNTKAxis_rank_in_range (r a : Z) :
  1 <= r <= 2 ^ 31 -> is_int a ->
  0 <= (if a <? 0 then a + r else a) < r ->
  mappers.ToCNTKAxis_rank r a
  = OK (StaticAxis (r - 1 - (if a <? 0 then a + r else a))).
Proof.
  intros Hr Ha Hrange. unfold mappers.ToCNTKAxis_rank.
  destruct (normalized_axis r a Hr Ha) as [-> _].
  set (n := if a <? 0 then a + r else a) in *.
  assert (Hlt : (n <? 0) = false) by (apply Z.ltb_ge; lia).
  rewrite Hlt, (to_size_t_small n) by (unfold is_size_t, SIZE_MAX; lia).
  assert (Hle : (r <=? n) = false) by (apply Z.leb_gt; lia).
  rewrite Hle. simpl. do 2 f_equal.
  apply to_size_t_small. unfold is_size_t, SIZE_MAX. lia.
Qed.

Lemma ToCNTKAxis_rank_out_of_range (r a : Z) :
  1 <= r <= 2 ^ 31 -> is_int a ->
  ~ (0 <= (if a <? 0 then a + r else a) < r) ->
  mappers.ToCNTKAxis_rank r a
  = Raise (InvalidArgument "marian::ToCNTKAxis: axis out of range").
Proof.
  intros Hr Ha Hrange. unfold mappers.ToCNTKAxis_rank.
  destruct (normalized_axis r a Hr Ha) as [-> Hint].
  set (n := if a <? 0 then a + r else a) in *.
  destruct (n <? 0) eqn:Hlt; [reflexivity|].
  apply Z.ltb_ge in Hlt.
  rewrite (to_size_t_small n)
    by (unfold is_size_t, SIZE_MAX, is_int, INT_MAX in *; lia).
  assert (Hle : (r <=? n) = true) by (apply Z.leb_le; lia).
  rewrite Hle. reflexivity.
Qed.

(** C1, as amended.  For every rank 1 <= r <= 2^31 and every [int] axis
    index a, with n = (a < 0 ? a + r : a): when n lies in [0, r) the
    conversion yields the engine axis r - 1 - n, and otherwise it raises
    the out-of-range error. *)
Theorem ToCNTKAxis_rank_spec (r a : Z) :
  1 <= r <= 2 ^ 31 -> is_int a ->
  let n := if a <? 0 then a + r else a in
  (0 <= n < r ->
   mappers.ToCNTKAxis_rank r a = OK (StaticAxis (r - 1 - n))) /\
  (~ (0 <= n < r) ->
   mappers.ToCNTKAxis_rank r a
   = Raise (InvalidArgument "marian::ToCNTKAxis: axis out of range")).
Proof.
  intros Hr Ha n. split.
  - apply ToCNTKAxis_rank_in_range; assumption.
  - apply ToCNTKAxis_rank_out_of_range; assumption.
Qed.

Lemma ToCNTKAxis_rank_spec_witness :
  mappers.ToCNTKAxis_rank 3 (-1) = OK (StaticAxis 0) /\
  mappers.ToCNTKAxis_rank 3 3
  = Raise (InvalidArgument "marian::ToCNTKAxis: axis out of range").
Proof.
  split.
  - apply (ToCNTKAxis_rank_spec 3 (-1)); unfold is_int, INT_MIN, INT_MAX; simpl; lia.
  - apply (ToCNTKAxis_rank_spec 3 3); unfold is_int, INT_MIN, INT_MAX; simpl; lia.
Defined.

(** C1 as stated fails beyond 2^31 axes: with 2^31 + 1 axes the index -1
    normalizes to 2^31, inside [0, r), yet the conversion raises, because
    the sum no longer fits the [int] it is stored in. *)
Lemma ToCNTKAxis_rank_counterexample :
  let r := 2147483649 in
  let a := -1 in
  1 <= r /\ is_size_t r /\ is_int a /\ 0 <= a + r < r /\
  mappers.ToCNTKAxis_rank r a <> OK (StaticAxis (r - 1 - (a + r))) /\
  mappers.ToCNTKAxis_rank r a
  = Raise (InvalidArgument "marian::ToCNTKAxis: axis out of range").
Proof.
  unfold is_size_t, is_int, SIZE_MAX, INT_MIN, INT_MAX.
  repeat split; try lia; try discriminate; reflexivity.
Qed.

(** Further out the sum wraps silently: with 2^32 + 5 axes the index -1
    is taken for axis 4. *)
Example ToCNTKAxis_rank_silent_wrap :
  mappers.ToCNTKAxis_rank 4294967301 (-1) = OK (StaticAxis 4294967296).
Proof. reflexivity. Qed.

(** On an expression the conversion reads the rank off the engine shape;
    counting from the outermost end, axis -k is engine axis k - 1. *)
Lemma ToCNTKAxis_from_end `{Engine} (x : Node) (k : Z) :
  1 <= k <= Rank (marian.Node_Shape x) ->
  Rank (marian.Node_Shape x) <= 2 ^ 31 ->
  marian.ToCNTKAxis (Some x) (- k) = OK (StaticAxis (k - 1)).
Proof.
  intros Hk Hr. unfold marian.ToCNTKAxis.
  cbn [marian.Expr_Shape marian.deref bind].
  set (r := Rank (marian.Node_Shape x)) in *.
  assert (Hneg : (- k <? 0) = true) by (apply Z.ltb_lt; lia).
  rewrite ToCNTKAxis_rank_in_range.
  - rewrite Hneg. do 2 f_equal. lia.
  - lia.
  - unfold is_int, INT_MIN, INT_MAX. lia.
  - rewrite Hneg. lia.
Qed.

Lemma sum_from_end `{Engine} (x : Node) (k : Z) :
  1 <= k <= Rank (marian.Node_Shape x) ->
  Rank (marian.Node_Shape x) <= 2 ^ 31 ->
  marian.sum (Some x) (- k) = OK (Some (ReduceSum x (StaticAxis (k - 1)))).
Proof.
  intros Hk Hr. unfold marian.sum.
  rewrite ToCNTKAxis_from_end by assumption. reflexivity.
Qed.

Lemma mean_from_end `{Engine} (x : Node) (k : Z) :
  1 <= k <= Rank (marian.Node_Shape x) ->
  Rank (marian.Node_Shape x) <= 2 ^ 31 ->
  marian.mean (Some x) (- k) = OK (Some (ReduceMean x (StaticAxis (k - 1)))).
Proof.
  intros Hk Hr. unfold marian.mean.
  rewrite ToCNTKAxis_from_end by assumption. reflexivity.
Qed.

(* ===================================================================== *)
(** ** Properties: shape conversion *)
(* ===================================================================== *)

Section ShapeRoundTrip.

Lemma product_app (l1 l2 : list Z) : product (l1 ++ l2) = product l1 * product l2.
Proof.
  induction l1 as [|d l1 IH]; simpl.
  - destruct (product l2); reflexivity.
  - rewrite IH. lia.
Qed.

Lemma product_rev (l : list Z) : product (rev l) = product l.
Proof.
  induction l as [|d l IH]; [reflexivity|].
  simpl. rewrite product_app, IH. simpl. lia.
Qed.

Lemma TotalSize_fold (l : list Z) (acc : Z) :
  is_size_t acc ->
  fold_left (fun acc d => to_size_t (acc * d)) l acc
  = to_size_t (acc * product l).
Proof.
  revert acc. induction l as [|d l IH]; intros acc Hacc; simpl.
  - rewrite Z.mul_1_r. symmetry. apply to_size_t_small, Hacc.
  - rewrite IH by apply to_size_t_range.
    unfold to_size_t. rewrite Z.mul_mod_idemp_l by lia.
    f_equal. lia.
Qed.

Lemma TotalSize_product (l : NDShape) : TotalSize l = to_size_t (product l).
Proof.
  unfold TotalSize. rewrite TotalSize_fold.
  - f_equal. lia.
  - unfold is_size_t, SIZE_MAX. lia.
Qed.

Lemma rev_lookup {A} (l : list A) (i : nat) :
  (i < length l)%nat -> rev l !! i = l !! (length l - S i)%nat.
Proof. intros Hi. rewrite rev_alt. apply (reverse_lookup l i Hi). Qed.

Lemma map_to_int_to_size_t (l : list Z) :
  Forall is_int l -> map to_int (map to_size_t l) = l.
Proof.
  induction 1 as [|d l Hd _ IH]; [reflexivity|].
  simpl. rewrite IH, to_int_to_size_t, to_int_small by exact Hd. reflexivity.
Qed.

Lemma product_to_size_t (l : list Z) :
  to_size_t (product (map to_size_t l)) = to_size_t (product l).
Proof.
  induction l as [|d l IH]; [reflexivity|].
  simpl. unfold to_size_t in *.
  rewrite Z.mul_mod, Z.mod_mod, IH, <- Z.mul_mod by lia. reflexivity.
Qed.

(** What [ToNDShape s] holds at engine axis [length s - 1 - k]. *)
Lemma ToNDShape_at (s : Shape) (k : nat) (d : Z) :
  Z.of_nat (length s) <= SIZE_MAX ->
  s !! k = Some d ->
  NDShape_at (mappers.ToNDShape s)
             (to_size_t (Z.of_nat (length s) - 1 - Z.of_nat k))
  = OK (to_size_t d).
Proof.
  intros Hlen Hk.
  pose proof (lookup_lt_Some _ _ _ Hk) as Hlt.
  rewrite to_size_t_small by (unfold is_size_t, SIZE_MAX in *; lia).
  unfold NDShape_at, mappers.ToNDShape.
  rewrite length_map, length_rev.
  assert (Hin : (0 <=? Z.of_nat (length s) - 1 - Z.of_nat k)
                && (Z.of_nat (length s) - 1 - Z.of_nat k <? Z.of_nat (length s))
                = true).
  { apply andb_true_iff. split; [apply Z.leb_le|apply Z.ltb_lt]; lia. }
  rewrite Hin.
  change (map to_size_t (rev s)) with (to_size_t <$> rev s).
  rewrite list_lookup_fmap, rev_lookup by lia.
  replace (length s - S (Z.to_nat (Z.of_nat (length s) - 1 - Z.of_nat k)))%nat
    with k by lia.
  rewrite Hk. reflexivity.
Qed.

(** The loop of [operator Shape()] restores the slots one by one. *)
Lemma fill_restores (s : Shape) :
  Z.of_nat (length s) <= SIZE_MAX ->
  Forall is_int s ->
  forall (m k : nat) (shape : Shape),
    (k + m = length s)%nat ->
    length shape = length s ->
    take k shape = take k s ->
    ShapeProxy.fill (mappers.ToNDShape s) (Z.of_nat (length s)) (seq k m) shape
    = OK s.
Proof.
  intros Hlen Hint. induction m as [|m IH]; intros k shape Hkm Hshape Htake.
  - simpl. f_equal.
    rewrite <- (take_ge shape k), <- (take_ge s k) by lia. exact Htake.
  - destruct (lookup_lt_is_Some_2 s k ltac:(lia)) as [d Hd].
    simpl. rewrite (ToNDShape_at s k d Hlen Hd). simpl.
    apply IH; [lia| |].
    + unfold Shape_set. rewrite length_insert. exact Hshape.
    + unfold Shape_set. rewrite Nat2Z.id, to_int_to_size_t.
      rewrite to_int_small by (eapply Forall_lookup_1; eauto).
      rewrite (take_S_r s k d Hd).
      rewrite (take_S_r _ k d)
        by (apply list_lookup_insert_eq; lia).
      rewrite take_insert_ge by lia. rewrite Htake. reflexivity.
Qed.
End ShapeRoundTrip.

(** C2.  For every Shape ([int] extents, of any rank a vector can
    have): converting it to the engine shape and back through the
    proxy's conversion operator gives the shape itself; the engine shape
    is the pure reversal, so reversing twice gives the shape back; and
    the engine shape has the same rank and the same number of elements. *)
Theorem Shape_round_trip (s : Shape) :
  Forall is_int s ->
  Z.of_nat (length s) <= SIZE_MAX ->
  ShapeProxy.to_Shape (mappers.ToNDShape s) = OK s /\
  map to_int (mappers.ToNDShape s) = rev s /\
  map to_int (mappers.ToNDShape (map to_int (mappers.ToNDShape s))) = s /\
  Rank (mappers.ToNDShape s) = Z.of_nat (length s) /\
  TotalSize (mappers.ToNDShape s) = to_size_t (product s).
Proof.
  intros Hext Hlen.
  assert (Hrev : map to_int (mappers.ToNDShape s) = rev s).
  { unfold mappers.ToNDShape. apply map_to_int_to_size_t, Forall_rev, Hext. }
  assert (Hrank : Rank (mappers.ToNDShape s) = Z.of_nat (length s)).
  { unfold Rank, mappers.ToNDShape. rewrite length_map, length_rev.
    apply to_size_t_small. unfold is_size_t. lia. }
  split; [|split; [exact Hrev|split; [|split; [exact Hrank|]]]].
  - unfold ShapeProxy.to_Shape. rewrite Hrank, Nat2Z.id.
    apply fill_restores; auto.
    unfold Shape_resize, Shape_default.
    rewrite length_app, length_take, length_replicate. simpl. lia.
  - rewrite Hrev. unfold mappers.ToNDShape. rewrite rev_involutive.
    apply map_to_int_to_size_t, Hext.
  - rewrite TotalSize_product. unfold mappers.ToNDShape.
    rewrite product_to_size_t, product_rev. reflexivity.
Qed.

Lemma Shape_round_trip_witness :
  ShapeProxy.to_Shape (mappers.ToNDShape [2; 3; 4; 5; 6; 7]) = OK [2; 3; 4; 5; 6; 7] /\
  map to_int (mappers.ToNDShape [2; 3; 4; 5; 6; 7]) = [7; 6; 5; 4; 3; 2] /\
  TotalSize (mappers.ToNDShape [2; 3; 4; 5; 6; 7]) = 5040.
Proof.
  destruct (Shape_round_trip [2; 3; 4; 5; 6; 7]) as (H1 & H2 & _ & _ & H5).
  - repeat constructor; unfold is_int, INT_MIN, INT_MAX; simpl; lia.
  - unfold SIZE_MAX. simpl. lia.
  - split; [exact H1|]. split; [exact H2|exact H5].
Defined.

(** the rank-0 shape round-trips as well *)
Example Shape_round_trip_rank0 :
  ShapeProxy.to_Shape (mappers.ToNDShape []) = OK [].
Proof. reflexivity. Qed.

(* ===================================================================== *)
(** ** Properties: scalar shortcuts *)
(* ===================================================================== *)


(** C5.  For every expression x, empty or not, and every scalar 0 or 1 of
    type int, float or double: x + 0, 0 + x, x * 1, 1 * x and x / 1
    return x itself, so no node is created. *)
Theorem scalar_identity_shortcuts (x : Expr) (zero one : Number) :
  In zero zeros_of_all_types ->
  In one ones_of_all_types ->
  marian.add_en x zero = OK x /\
  marian.add_ne zero x = OK x /\
  marian.mul_en x one = OK x /\
  marian.mul_ne one x = OK x /\
  marian.div_en x one = OK x.
Proof.
  intros Hz Ho.
  assert (Hzero : Number_eq zero 0 = true).
  { simpl in Hz. repeat (destruct Hz as [<-|Hz]; [reflexivity|]). destruct Hz. }
  assert (Hone : Number_eq one 1 = true).
  { simpl in Ho. repeat (destruct Ho as [<-|Ho]; [reflexivity|]). destruct Ho. }
  unfold marian.add_en, marian.add_ne, marian.mul_en, marian.mul_ne,
    marian.div_en.
  rewrite Hzero, Hone. repeat split; reflexivity.
Qed.

Lemma scalar_identity_shortcuts_witness :
  let x := Some (Exp (ScalarNode (F32.of_Z 7))) in
  marian.add_en x (Double (S754_zero false)) = OK x /\
  marian.div_en x (Float F32.one) = OK x.
Proof.
  intros x.
  destruct (scalar_identity_shortcuts x (Double (S754_zero false)) (Float F32.one))
    as (H1 & _ & _ & _ & H5).
  - simpl. auto 10.
  - simpl. auto.
  - split; [exact H1|exact H5].
Defined.

(** Any other scalar does create nodes: the constant and the operation. *)
Example scalar_two_creates_nodes (n : Node) :
  marian.add_en (Some n) (Int 2)
  = OK (Some (Plus n (ScalarNode (F32.of_Z 2)))) /\
  marian.mul_ne (Int 2) (Some n)
  = OK (Some (ElementTimes (ScalarNode (F32.of_Z 2)) n)) /\
  marian.div_ne (Int 1) (Some n)
  = OK (Some (ElementDivide (ScalarNode (F32.of_Z 1)) n)).
Proof. repeat split; reflexivity. Qed.

(* ===================================================================== *)
(** ** Properties: merging option dictionaries *)
(* ===================================================================== *)

Section Merge.
Variables (this other : nat) (B : Dictionary).


Lemma Contains_spec (A : Dictionary) (key : string) :
  Dict.Contains A key = true <-> is_Some (A !! key).
Proof. unfold Dict.Contains. apply bool_decide_eq_true. Qed.

Lemma Contains_false (A : Dictionary) (key : string) :
  Dict.Contains A key = false <-> A !! key = None.
Proof.
  unfold Dict.Contains. rewrite bool_decide_eq_false.
  rewrite eq_None_not_Some. reflexivity.
Qed.

(** two distinct objects: the source is only read *)
Lemma merge_loop_distinct (keys : list string) :
  this <> other ->
  Forall (fun key => is_Some (B !! key)) keys ->
  forall (A : Dictionary) (h : OptionsStore),
    h !! this = Some A -> h !! other = Some B ->
    Options.merge_loop this other keys h
    = OK (<[this := fold_left (merge_dict B) keys A]> h).
Proof.
  intros Hne. induction 1 as [|key keys [v Hv] _ IH]; intros A h HA HB; simpl.
  - rewrite insert_id; auto.
  - unfold Options.merge_key, Options.load at 1. rewrite HA. simpl.
    unfold merge_dict at 2.
    destruct (Dict.Contains A key) eqn:Hc.
    + simpl. apply IH; assumption.
    + unfold Options.load at 1. rewrite HB. simpl.
      unfold Dict.subscript. rewrite Hv.
      unfold Options.load at 1.
      rewrite (insert_id h other B HB), HA. simpl.
      rewrite (IH (<[key := v]> A) (<[this := <[key := v]> A]> h)).
      * rewrite insert_insert_eq. reflexivity.
      * apply lookup_insert_eq.
      * rewrite lookup_insert_ne by exact Hne. exact HB.
Qed.

(** one object merged into itself: every key is already there *)
Lemma merge_loop_alias (keys : list string) (h : OptionsStore) :
  h !! this = Some B ->
  Forall (fun key => is_Some (B !! key)) keys ->
  Options.merge_loop this this keys h = OK h.
Proof.
  intros HB. induction 1 as [|key keys Hk _ IH]; simpl; [reflexivity|].
  unfold Options.merge_key, Options.load at 1. rewrite HB. simpl.
  apply Contains_spec in Hk. rewrite Hk. simpl. exact IH.
Qed.

Lemma fold_merge_dict_lookup (keys : list string) :
  forall (A : Dictionary) (k : string),
    fold_left (merge_dict B) keys A !! k
    = match A !! k with
      | Some v => Some v
      | None => if decide (k ∈ keys) then Some (default DV_None (B !! k))
                else None
      end.
Proof.
  induction keys as [|key keys IH]; intros A k.
  - cbn [fold_left]. destruct (A !! k); [reflexivity|].
    destruct (decide (k ∈ [])) as [Hin|]; [inversion Hin|reflexivity].
  - cbn [fold_left]. rewrite IH. unfold merge_dict.
    assert (Htail : k <> key ->
              (if decide (k ∈ key :: keys)
               then Some (default DV_None (B !! k)) else None)
              = (if decide (k ∈ keys)
                 then Some (default DV_None (B !! k)) else None)).
    { intros Hne. destruct (decide (k ∈ keys)) as [Hin|Hin].
      - rewrite decide_True by (apply elem_of_cons; auto). reflexivity.
      - rewrite decide_False; [reflexivity|].
        rewrite elem_of_cons. intros [?|?]; contradiction. }
    destruct (Dict.Contains A key) eqn:Hc.
    + destruct (A !! k) eqn:HAk; [reflexivity|].
      symmetry. apply Htail.
      intros ->. apply Contains_spec in Hc. rewrite HAk in Hc.
      destruct Hc as [? Hc]. discriminate.
    + apply Contains_false in Hc.
      destruct (decide (k = key)) as [->|Hne].
      * rewrite lookup_insert_eq, Hc.
        rewrite decide_True by (apply elem_of_cons; auto). reflexivity.
      * rewrite lookup_insert_ne by congruence.
        destruct (A !! k); [reflexivity|].
        symmetry. apply Htail, Hne.
Qed.

Lemma Keys_spec (key : string) : key ∈ Dict.Keys B <-> is_Some (B !! key).
Proof.
  unfold Dict.Keys. rewrite list_elem_of_fmap. split.
  - intros [[k v] [-> Hin]]. apply elem_of_map_to_list in Hin. eauto.
  - intros [v Hv]. exists (key, v). split; [reflexivity|].
    apply elem_of_map_to_list. exact Hv.
Qed.

Lemma fold_merge_dict_union (A : Dictionary) :
  fold_left (merge_dict B) (Dict.Keys B) A = A ∪ B.
Proof.
  apply map_eq. intros k. rewrite fold_merge_dict_lookup.
  destruct (A !! k) eqn:HA.
  - symmetry. apply lookup_union_Some_l. exact HA.
  - rewrite lookup_union_r by exact HA.
    destruct (decide (k ∈ Dict.Keys B)) as [Hin|Hin].
    + apply Keys_spec in Hin. destruct Hin as [v ->]. reflexivity.
    + rewrite Keys_spec in Hin. symmetry. apply eq_None_not_Some. exact Hin.
Qed.
End Merge.

(** C7.  For all Options objects [this] and [other] holding the
    dictionaries A and B (the two may be one object): [merge] leaves in
    [this] the left-biased union of A and B, that is every key of A with
    A's value and every other key of B with B's value; [other] still
    holds B and no other object changes. *)
Theorem Options_merge_spec (h : OptionsStore) (this other : nat)
        (A B : Dictionary) :
  h !! this = Some A ->
  h !! other = Some B ->
  exists h' : OptionsStore,
    Options.merge this other h = OK h' /\
    (exists A' : Dictionary,
        h' !! this = Some A' /\
        forall key, A' !! key = match A !! key with
                                | Some v => Some v
                                | None => B !! key
                                end) /\
    h' !! other = Some B /\
    (forall p, p <> this -> h' !! p = h !! p).
Proof.
  intros HA HB.
  assert (Hkeys : Forall (fun key => is_Some (B !! key)) (Dict.Keys B)).
  { apply Forall_forall. intros key. apply Keys_spec. }
  unfold Options.merge, Options.load. rewrite HB. simpl.
  destruct (decide (this = other)) as [<-|Hne].
  - assert (A = B) as -> by congruence.
    exists h. split; [apply (merge_loop_alias this B); assumption|].
    split; [|split; [assumption|reflexivity]].
    exists B. split; [assumption|]. intros key. destruct (B !! key); reflexivity.
  - exists (<[this := A ∪ B]> h).
    split.
    { rewrite (merge_loop_distinct this other B _ Hne Hkeys A h HA HB).
      rewrite fold_merge_dict_union. reflexivity. }
    split; [|split].
    + exists (A ∪ B). split; [apply lookup_insert_eq|].
      intros key. destruct (A !! key) eqn:HAk.
      * apply lookup_union_Some_l. exact HAk.
      * apply lookup_union_r. exact HAk.
    + rewrite lookup_insert_ne by exact Hne. exact HB.
    + intros p Hp. apply lookup_insert_ne. congruence.
Qed.

Lemma Options_merge_spec_witness :
  let A : Dictionary := <["lr" := DV_Float f_0_1]> ∅ in
  let B : Dictionary := <["lr" := DV_Float f_0_2]> (<["seed" := DV_Int 42]> ∅) in
  let h : OptionsStore := <[0%nat := A]> (<[1%nat := B]> ∅) in
  exists h' : OptionsStore,
    Options.merge 0 1 h = OK h' /\
    (exists A' : Dictionary,
        h' !! 0%nat = Some A' /\
        forall key, A' !! key = match A !! key with
                                | Some v => Some v
                                | None => B !! key
                                end) /\
    h' !! 1%nat = Some B /\
    (forall p, p <> 0%nat -> h' !! p = h !! p).
Proof.
  intros A B h. apply (Options_merge_spec h 0 1 A B); reflexivity.
Defined.

(** the example of the specification: A = {lr: 0.1} merged with
    B = {lr: 0.2, seed: 42} *)
Example Options_merge_example :
  let A : Dictionary := <["lr" := DV_Float f_0_1]> ∅ in
  let B : Dictionary := <["lr" := DV_Float f_0_2]> (<["seed" := DV_Int 42]> ∅) in
  let h : OptionsStore := <[0%nat := A]> (<[1%nat := B]> ∅) in
  (do h' <- Options.merge 0 1 h; Options.load h' 0)
  = OK (<["lr" := DV_Float f_0_1]> (<["seed" := DV_Int 42]> ∅)) /\
  (do h' <- Options.merge 0 1 h; Options.load h' 1) = OK B.
Proof. split; vm_compute; reflexivity. Qed.

(* ===================================================================== *)
(** ** Properties: the parameter graph *)
(* ===================================================================== *)

Section Graph.
Context `{Engine}.

Lemma to_size_t_inj_int (a b : Z) :
  is_int a -> is_int b -> to_size_t a = to_size_t b -> a = b.
Proof.
  intros Ha Hb Hab.
  rewrite <- (to_int_small a Ha), <- (to_int_small b Hb).
  rewrite <- (to_int_to_size_t a), <- (to_int_to_size_t b), Hab. reflexivity.
Qed.

Lemma ToNDShape_inj (s s' : Shape) :
  Forall is_int s -> Forall is_int s' ->
  mappers.ToNDShape s = mappers.ToNDShape s' -> s = s'.
Proof.
  unfold mappers.ToNDShape. intros Hs Hs' Heq.
  rewrite <- (rev_involutive s), <- (rev_involutive s'). f_equal.
  apply Forall_rev in Hs, Hs'.
  revert Hs Hs' Heq. generalize (rev s) (rev s'). clear s s'.
  intros l. induction l as [|a l IH]; intros [|b l'] Hl Hl' Heq;
    try discriminate; [reflexivity|].
  inversion Hl; inversion Hl'; subst. simpl in Heq. injection Heq as Hab Hrest.
  f_equal; [apply to_size_t_inj_int; assumption|apply IH; assumption].
Qed.

(** case 1 of [param] *)
Lemma param_new (name : string) (shape : Shape) (init : Dictionary)
      (fixed : bool) (g : marian.ExpressionGraph) (e : marian.EngineState) :
  marian.m_allParametersMap g !! name = None ->
  init_fits init shape = true ->
  exists value : Tensor,
    let p := mkParameter (marian.next_uid e) (mappers.ToNDShape shape)
                         (engine_name init name) in
    marian.param name shape init fixed g e
    = OK (Some (ParameterNode p), marian.register name p g,
          marian.mkEngineState (S (marian.next_uid e))
                               (<[marian.next_uid e := value]> (marian.values e))).
Proof.
  intros Hnew Hfit. unfold marian.param, engine_name. rewrite Hnew.
  unfold init_fits in Hfit. unfold Dict.Contains, Dict.at_.
  destruct (init !! "from_vector") as [v|] eqn:Hv.
  - rewrite bool_decide_eq_true_2 by eauto.
    destruct v; try discriminate. simpl. rewrite Hfit. simpl.
    eexists. reflexivity.
  - rewrite bool_decide_eq_false_2 by (intros [? ?]; discriminate).
    eexists. reflexivity.
Qed.

(** case 2 of [param] *)
Lemma param_existing (name : string) (shape : Shape) (init : Dictionary)
      (fixed : bool) (g : marian.ExpressionGraph) (e : marian.EngineState)
      (p : ParameterHandle) :
  marian.m_allParametersMap g !! name = Some p ->
  marian.param name shape init fixed g e
  = if bool_decide (p_shape p = mappers.ToNDShape shape)
    then OK (Some (ParameterNode p), g, e)
    else Raise (InvalidArgument
                  ("marian::param: Requested shape for existing parameter '"
                     +:+ name +:+ "' does not match original shape")).
Proof.
  intros Hp. unfold marian.param. rewrite Hp.
  destruct (bool_decide (p_shape p = mappers.ToNDShape shape)); reflexivity.
Qed.

(** a failed or repeated [param] changes nothing; a first one appends *)
Lemma param_graph (name : string) (shape : Shape) (init : Dictionary)
      (fixed : bool) (g g' : marian.ExpressionGraph)
      (e e' : marian.EngineState) (x : Expr) :
  marian.param name shape init fixed g e = OK (x, g', e') ->
  (g' = g /\ e' = e /\ is_Some (marian.m_allParametersMap g !! name)) \/
  (exists p value,
      marian.m_allParametersMap g !! name = None /\
      p_uid p = marian.next_uid e /\
      g' = marian.register name p g /\
      e' = marian.mkEngineState (S (marian.next_uid e))
             (<[marian.next_uid e := value]> (marian.values e))).
Proof.
  unfold marian.param.
  destruct (marian.m_allParametersMap g !! name) as [p|] eqn:Hp.
  - destruct (negb _); [discriminate|].
    intros [= <- <- <-]. left. eauto.
  - intros Hpar. right.
    destruct (Dict.Contains init "from_vector").
    + destruct (Dict.at_ init "from_vector") as [v|]; [|discriminate].
      simpl in Hpar.
      destruct (Dict.Value_NDArrayView v) as [view|]; [|discriminate].
      simpl in Hpar. destruct (negb _); [discriminate|].
      injection Hpar as <- <- <-. eexists _, _. repeat split; reflexivity.
    + injection Hpar as <- <- <-. eexists _, _. repeat split; reflexivity.
Qed.

(** No call removes or replaces a registered name. *)
Lemma step_keeps_name (s : marian.Session) (c : marian.Call) (name : string)
      (p : ParameterHandle) :
  marian.m_allParametersMap (marian.graph s) !! name = Some p ->
  marian.m_allParametersMap (marian.graph (marian.step s c)) !! name = Some p.
Proof.
  intros Hp. destruct c as [name' shape init fixed|b|root|]; simpl.
  - destruct (marian.param name' shape init fixed _ _) as [[[x g'] e']|] eqn:Hpar;
      [|exact Hp].
    apply param_graph in Hpar as [(-> & _ & _)|(q & v & Hnone & _ & -> & _)];
      simpl; [exact Hp|].
    rewrite lookup_insert_ne; [exact Hp|congruence].
  - exact Hp.
  - unfold marian.backward, marian.backprop.
    destruct (marian.deref root); simpl; exact Hp.
  - exact Hp.
Qed.

Lemma run_keeps_name (calls : list marian.Call) (s : marian.Session)
      (name : string) (p : ParameterHandle) :
  marian.m_allParametersMap (marian.graph s) !! name = Some p ->
  marian.m_allParametersMap (marian.graph (marian.run s calls)) !! name = Some p.
Proof.
  revert s. induction calls as [|c calls IH]; intros s Hp; [exact Hp|].
  simpl. apply IH, step_keeps_name, Hp.
Qed.

(** a first [param] with a wrapped buffer of another size *)
Lemma param_misfit (name : string) (shape : Shape) (init : Dictionary)
      (fixed : bool) (g : marian.ExpressionGraph) (e : marian.EngineState)
      (view : NDArrayView) :
  marian.m_allParametersMap g !! name = None ->
  init !! "from_vector" = Some (DV_NDArrayView view) ->
  TotalSize (view_shape view) <> TotalSize (mappers.ToNDShape shape) ->
  marian.param name shape init fixed g e
  = Raise (InvalidArgument
             "marian::constant: vector size does not match viewShape").
Proof.
  intros Hnew Hview Hsize. unfold marian.param. rewrite Hnew.
  unfold Dict.Contains, Dict.at_. rewrite Hview.
  rewrite bool_decide_eq_true_2 by eauto.
  cbn [bind Dict.Value_NDArrayView].
  apply Z.eqb_neq in Hsize. rewrite Hsize. reflexivity.
Qed.

(** C3, as amended.  On a graph that does not hold the name n yet: a
    first call [param(n, s, init)] whose initializer fits the shape
    allocates a new tensor, registers it under n and seeds its gradient
    entry as absent; after any further calls on the graph,
    [param(n, s', ...)] with s' = s returns that very handle and leaves
    graph and engine as they are, and with s' <> s it raises the
    shape-mismatch error, which names n.  A first call with a wrapped
    buffer whose element count differs from that of s, whether smaller
    or larger, raises the size error and registers nothing. *)
Theorem param_registers_once (s0 : marian.Session) (name : string)
        (shape : Shape) (init : Dictionary) (fixed : bool) :
  Forall is_int shape ->
  marian.m_allParametersMap (marian.graph s0) !! name = None ->
  (init_fits init shape = true ->
   exists (p : ParameterHandle) (g1 : marian.ExpressionGraph)
          (e1 : marian.EngineState),
     marian.param name shape init fixed (marian.graph s0) (marian.engine s0)
     = OK (Some (ParameterNode p), g1, e1) /\
     p_uid p = marian.next_uid (marian.engine s0) /\
     marian.next_uid e1 = S (marian.next_uid (marian.engine s0)) /\
     is_Some (marian.values e1 !! p_uid p) /\
     p_shape p = mappers.ToNDShape shape /\
     marian.m_allParametersMap g1 !! name = Some p /\
     marian.m_allParameters g1
     = marian.m_allParameters (marian.graph s0) ++ [p] /\
     marian.m_allGradients g1 !! p_uid p = Some None /\
     forall (calls : list marian.Call) (shape' : Shape) (init' : Dictionary)
            (fixed' : bool),
       Forall is_int shape' ->
       let s2 :=
         marian.run (marian.mkSession g1 (marian.optimizer s0) e1) calls in
       (shape' = shape ->
        marian.param name shape' init' fixed' (marian.graph s2)
                     (marian.engine s2)
        = OK (Some (ParameterNode p), marian.graph s2, marian.engine s2)) /\
       (shape' <> shape ->
        marian.param name shape' init' fixed' (marian.graph s2)
                     (marian.engine s2)
        = Raise (InvalidArgument
                   ("marian::param: Requested shape for existing parameter '"
                      +:+ name +:+ "' does not match original shape")))) /\
  (forall view : NDArrayView,
      init !! "from_vector" = Some (DV_NDArrayView view) ->
      TotalSize (view_shape view) <> TotalSize (mappers.ToNDShape shape) ->
      marian.param name shape init fixed (marian.graph s0) (marian.engine s0)
      = Raise (InvalidArgument
                 "marian::constant: vector size does not match viewShape") /\
      marian.step s0 (marian.CallParam name shape init fixed) = s0).
Proof.
  intros Hint Hnew. split.
  - intros Hfit.
    destruct (param_new name shape init fixed _ (marian.engine s0) Hnew Hfit)
      as [value Hpar].
    cbv zeta in Hpar.
    eexists _, _, _. split; [exact Hpar|].
    simpl. rewrite !lookup_insert_eq.
    repeat (split; [solve [reflexivity | eauto]|]).
    intros calls shape' init' fixed' Hint'.
    set (s2 := marian.run _ calls).
    assert (Hp : marian.m_allParametersMap (marian.graph s2) !! name
                 = Some (mkParameter (marian.next_uid (marian.engine s0))
                                     (mappers.ToNDShape shape)
                                     (engine_name init name))).
    { apply run_keeps_name. simpl. apply lookup_insert_eq. }
    rewrite (param_existing _ _ _ _ _ _ _ Hp). simpl.
    split; intros Hshape.
    + subst shape'. rewrite bool_decide_eq_true_2; reflexivity.
    + rewrite bool_decide_eq_false_2; [reflexivity|].
      intros Heq. apply Hshape. symmetry.
      apply ToNDShape_inj; assumption.
  - intros view Hview Hsize.
    pose proof (param_misfit name shape init fixed _ (marian.engine s0) view
                  Hnew Hview Hsize) as Hraise.
    split; [exact Hraise|].
    cbn [marian.step]. rewrite Hraise. reflexivity.
Qed.
End Graph.

Lemma param_registers_once_witness :
  let s0 := @marian.mkSession reference.engine marian.ExpressionGraph_new
              (marian.Optimizer f_0_1 Sgd) (marian.mkEngineState 0 ∅) in
  (exists (p : ParameterHandle) (g1 : @marian.ExpressionGraph reference.engine)
          (e1 : @marian.EngineState reference.engine),
     marian.param "W1" [2; 2] inits.zeros false (marian.graph s0)
                  (marian.engine s0)
     = OK (Some (ParameterNode p), g1, e1) /\
     marian.param "W1" [2; 2] inits.zeros false g1 e1
     = OK (Some (ParameterNode p), g1, e1) /\
     marian.param "W1" [3; 3] inits.zeros false g1 e1
     = Raise (InvalidArgument
                "marian::param: Requested shape for existing parameter 'W1' does not match original shape")) /\
  marian.step s0
    (marian.CallParam "W1" [2; 2] (inits.from_vector (replicate 5 F32.zero))
                      false) = s0.
Proof.
  intros s0.
  destruct (@param_registers_once reference.engine s0 "W1" [2; 2] inits.zeros
              false) as [Hfits _].
  - repeat constructor; unfold is_int, INT_MIN, INT_MAX; simpl; lia.
  - reflexivity.
  - destruct (@param_registers_once reference.engine s0 "W1" [2; 2]
                (inits.from_vector (replicate 5 F32.zero)) false)
      as [_ Hmisfit].
    + repeat constructor; unfold is_int, INT_MIN, INT_MAX; simpl; lia.
    + reflexivity.
    + split.
      * destruct Hfits
          as (p & g1 & e1 & Hfirst & _ & _ & _ & _ & _ & _ & _ & Hlater);
          [vm_compute; reflexivity|].
        exists p, g1, e1. split; [exact Hfirst|]. split.
        -- apply (Hlater [] [2; 2] inits.zeros false); [|reflexivity].
           repeat constructor; unfold is_int, INT_MIN, INT_MAX; simpl; lia.
        -- apply (Hlater [] [3; 3] inits.zeros false); [|discriminate].
           repeat constructor; unfold is_int, INT_MIN, INT_MAX; simpl; lia.
      * eapply Hmisfit; [reflexivity|]. vm_compute. discriminate.
Defined.

(** C3 as stated fails for an initializer that does not fit: a buffer of
    three floats offered for a 2 x 2 parameter makes the first call raise,
    and nothing is registered. *)
Lemma param_counterexample :
  let g := @marian.ExpressionGraph_new reference.engine in
  let e := @marian.mkEngineState reference.engine 0 ∅ in
  let init := inits.from_vector [F32.zero; F32.zero; F32.zero] in
  let s0 := marian.mkSession g (marian.Optimizer f_0_1 Sgd) e in
  marian.m_allParametersMap g !! "W" = None /\
  marian.param "W" [2; 2] init false g e
  = Raise (InvalidArgument
             "marian::constant: vector size does not match viewShape") /\
  marian.graph (marian.step s0 (marian.CallParam "W" [2; 2] init false)) = g.
Proof. repeat split; vm_compute; reflexivity. Qed.

(* ===================================================================== *)
(** ** Properties: the optimizer wrapper *)
(* ===================================================================== *)

Section Optimizer.
Context `{Engine}.

(** The learner leaves alone every tensor it was not built over. *)
Lemma Learner_Update_frame (l : marian.Learner)
      (gradients : gmap nat (option Tensor)) (e : marian.EngineState)
      (uid : nat) :
  (forall p, p ∈ marian.l_parameters l -> p_uid p <> uid) ->
  marian.values (snd (marian.Learner_Update l gradients e)) !! uid
  = marian.values e !! uid.
Proof.
  unfold marian.Learner_Update. simpl.
  generalize (marian.values e) as vals.
  induction (marian.l_parameters l) as [|p ps IH]; intros vals Hne; simpl;
    [reflexivity|].
  rewrite IH.
  - apply lookup_alter_ne. apply Hne. apply elem_of_cons. auto.
  - intros q Hq. apply Hne. apply elem_of_cons. auto.
Qed.

Lemma Learner_Update_parameters (l : marian.Learner)
      (gradients : gmap nat (option Tensor)) (e : marian.EngineState) :
  marian.l_parameters (fst (marian.Learner_Update l gradients e))
  = marian.l_parameters l /\
  marian.next_uid (snd (marian.Learner_Update l gradients e))
  = marian.next_uid e.
Proof. split; reflexivity. Qed.

(** a call other than [update] does not touch the optimizer *)
Lemma step_optimizer (s : marian.Session) (c : marian.Call) :
  c <> marian.CallUpdate ->
  marian.optimizer (marian.step s c) = marian.optimizer s.
Proof.
  intros Hc. destruct c as [name shape init fixed|b|root|]; simpl.
  - destruct (marian.param _ _ _ _ _ _) as [[[x g] e]|]; reflexivity.
  - reflexivity.
  - destruct (marian.backward _ _ _); reflexivity.
  - contradiction.
Qed.

Lemma run_unbound (calls : list marian.Call) (s : marian.Session) :
  marian.CallUpdate ∉ calls ->
  marian.optimizer (marian.run s calls) = marian.optimizer s.
Proof.
  revert s. induction calls as [|c calls IH]; intros s Hno; [reflexivity|].
  apply not_elem_of_cons in Hno as [Hc Hno].
  simpl. rewrite IH by exact Hno.
  apply step_optimizer. congruence.
Qed.

(** once bound, the learner keeps the parameters it was built over *)
Lemma step_bound (s : marian.Session) (c : marian.Call) (l : marian.Learner) :
  marian.m_learner (marian.optimizer s) = Some l ->
  exists l', marian.m_learner (marian.optimizer (marian.step s c)) = Some l' /\
             marian.l_parameters l' = marian.l_parameters l.
Proof.
  intros Hl. destruct c as [name shape init fixed|b|root|]; simpl.
  - destruct (marian.param _ _ _ _ _ _) as [[[x g] e]|]; eauto.
  - eauto.
  - destruct (marian.backward _ _ _); eauto.
  - unfold marian.update. rewrite Hl. simpl. eauto.
Qed.

Lemma run_bound (calls : list marian.Call) (s : marian.Session)
      (l : marian.Learner) :
  marian.m_learner (marian.optimizer s) = Some l ->
  exists l', marian.m_learner (marian.optimizer (marian.run s calls)) = Some l' /\
             marian.l_parameters l' = marian.l_parameters l.
Proof.
  revert s l. induction calls as [|c calls IH]; intros s l Hl; [eauto|].
  simpl. destruct (step_bound s c l Hl) as (l1 & Hl1 & Hp1).
  destruct (IH _ _ Hl1) as (l2 & Hl2 & Hp2).
  exists l2. split; [exact Hl2|congruence].
Qed.

Lemma step_graph_engine (s : marian.Session) (c : marian.Call) :
  (marian.m_allParameters (marian.graph (marian.step s c))
   = marian.m_allParameters (marian.graph s) /\
   marian.next_uid (marian.engine (marian.step s c))
   = marian.next_uid (marian.engine s)) \/
  (exists p,
      p_uid p = marian.next_uid (marian.engine s) /\
      marian.m_allParameters (marian.graph (marian.step s c))
      = marian.m_allParameters (marian.graph s) ++ [p] /\
      marian.next_uid (marian.engine (marian.step s c))
      = S (marian.next_uid (marian.engine s))).
Proof.
  destruct c as [name shape init fixed|b|root|]; simpl.
  - destruct (marian.param _ _ _ _ _ _) as [[[x g] e]|] eqn:Hpar; [|auto].
    apply param_graph in Hpar as [(-> & -> & _)|(q & v & _ & Huid & -> & ->)];
      simpl; [auto|].
    right. exists q. auto.
  - auto.
  - unfold marian.backward, marian.backprop.
    destruct (marian.deref root); simpl; auto.
  - auto.
Qed.

Lemma step_allocated (s : marian.Session) (c : marian.Call) :
  allocated s -> allocated (marian.step s c).
Proof.
  unfold allocated. intros Hs p.
  destruct (step_graph_engine s c) as [[-> ->]|(q & Hq & -> & ->)];
    [apply Hs|].
  rewrite elem_of_app, list_elem_of_singleton. intros [Hp| ->].
  - specialize (Hs p Hp). lia.
  - lia.
Qed.

Lemma run_allocated (calls : list marian.Call) (s : marian.Session) :
  allocated s -> allocated (marian.run s calls).
Proof.
  revert s. induction calls as [|c calls IH]; intros s Hs; [exact Hs|].
  simpl. apply IH, step_allocated, Hs.
Qed.

Lemma step_since (old : list ParameterHandle) (n : nat) (s : marian.Session)
      (c : marian.Call) :
  since old n s -> since old n (marian.step s c).
Proof.
  unfold since. intros [Hn Hs].
  destruct (step_graph_engine s c) as [[-> ->]|(q & Hq & -> & ->)];
    [auto|].
  split; [lia|]. intros p.
  rewrite elem_of_app, list_elem_of_singleton. intros [Hp| ->]; [auto|].
  right. lia.
Qed.

Lemma run_since (old : list ParameterHandle) (n : nat)
      (calls : list marian.Call) (s : marian.Session) :
  since old n s -> since old n (marian.run s calls).
Proof.
  revert s. induction calls as [|c calls IH]; intros s Hs; [exact Hs|].
  simpl. apply IH, step_since, Hs.
Qed.
End Optimizer.

(** C8.  The wrapper starts unbound, holding only the recipe.  Its first
    [update] builds the learner over the parameters the graph has at that
    moment; whatever is called afterwards, the learner stays bound to
    exactly those; and an [update] leaves the tensor of every parameter
    registered after the first update as it is. *)
Theorem optimizer_binds_on_first_update `{Engine}
        (eta : float) (algorithmType : AlgorithmType)
        (e0 : marian.EngineState) (before after : list marian.Call) :
  marian.CallUpdate ∉ before ->
  let s0 := marian.mkSession marian.ExpressionGraph_new
                             (marian.Optimizer eta algorithmType) e0 in
  let s1 := marian.run s0 before in
  let s2 := marian.step s1 marian.CallUpdate in
  let s3 := marian.run s2 after in
  marian.optimizer s1 = marian.mkOptimizerWrapper eta algorithmType None /\
  (exists l, marian.m_learner (marian.optimizer s2) = Some l /\
             marian.l_parameters l = marian.m_allParameters (marian.graph s1) /\
             marian.l_algorithm l = algorithmType /\ marian.l_eta l = eta) /\
  (exists l, marian.m_learner (marian.optimizer s3) = Some l /\
             marian.l_parameters l = marian.m_allParameters (marian.graph s1)) /\
  forall p : ParameterHandle,
    p ∈ marian.m_allParameters (marian.graph s3) ->
    p ∉ marian.m_allParameters (marian.graph s1) ->
    marian.values (marian.engine (marian.step s3 marian.CallUpdate)) !! p_uid p
    = marian.values (marian.engine s3) !! p_uid p.
Proof.
  intros Hno s0 s1 s2 s3.
  assert (Hopt1 : marian.optimizer s1
                  = marian.mkOptimizerWrapper eta algorithmType None).
  { subst s1. rewrite run_unbound by exact Hno. reflexivity. }
  assert (Hbind : exists l,
             marian.m_learner (marian.optimizer s2) = Some l /\
             marian.l_parameters l = marian.m_allParameters (marian.graph s1) /\
             marian.l_algorithm l = algorithmType /\ marian.l_eta l = eta).
  { subst s2. simpl. unfold marian.update. rewrite Hopt1. simpl.
    unfold marian.m_LazyCreateLearner. simpl.
    destruct algorithmType; simpl; eauto. }
  destruct Hbind as (l2 & Hl2 & Hp2 & Ha2 & He2).
  destruct (run_bound after s2 l2 Hl2) as (l3 & Hl3 & Hp3).
  fold s3 in Hl3.
  split; [exact Hopt1|]. split; [eauto|]. split; [exists l3; split; congruence|].
  intros p Hin Hnotin.
  assert (Halloc : allocated s1).
  { subst s1. apply run_allocated. intros q Hq. inversion Hq. }
  assert (Hsince : since (marian.m_allParameters (marian.graph s1))
                         (marian.next_uid (marian.engine s1)) s3).
  { subst s3. apply run_since. subst s2. apply step_since.
    split; [lia|]. auto. }
  destruct Hsince as [_ Hsince].
  destruct (Hsince p Hin) as [Hold|Hnew]; [contradiction|].
  simpl. unfold marian.update. rewrite Hl3.
  change (marian.values
            (snd (marian.Learner_Update l3
                    (marian.m_allGradients (marian.graph s3)) (marian.engine s3)))
            !! p_uid p
          = marian.values (marian.engine s3) !! p_uid p).
  apply Learner_Update_frame.
  intros q Hq. rewrite Hp3, Hp2 in Hq.
  specialize (Halloc q Hq). lia.
Qed.

Lemma optimizer_binds_on_first_update_witness :
  let W1 := marian.CallParam "W1" [2; 2] inits.zeros false in
  let W2 := marian.CallParam "W2" [3] inits.ones false in
  let s0 := @marian.mkSession reference.engine marian.ExpressionGraph_new
              (marian.Optimizer f_0_1 Adam) (marian.mkEngineState 0 ∅) in
  let s3 := marian.run s0 [W1; marian.CallUpdate; W2] in
  marian.values (marian.engine (marian.step s3 marian.CallUpdate)) !! 1%nat
  = marian.values (marian.engine s3) !! 1%nat.
Proof.
  intros W1 W2 s0 s3.
  destruct (@optimizer_binds_on_first_update reference.engine f_0_1 Adam
              (marian.mkEngineState 0 ∅) [W1] [W2]) as (_ & _ & _ & Hframe).
  - intros Hin. apply elem_of_cons in Hin as [Hin|Hin]; [discriminate|].
    inversion Hin.
  - apply (Hframe (mkParameter 1 [3] "W2")).
    + vm_compute. apply elem_of_cons. right. apply elem_of_cons. left.
      reflexivity.
    + vm_compute. intros Hin. apply elem_of_cons in Hin as [Hin|Hin];
        [discriminate|inversion Hin].
Defined.

(** In the same run the second update does step the parameter that was
    there at the first one (from 1 to 2) and not the later one (still 0). *)
Example optimizer_late_parameter_run :
  let W1 := marian.CallParam "W1" [2; 2] inits.zeros false in
  let W2 := marian.CallParam "W2" [3] inits.ones false in
  let s0 := @marian.mkSession reference.engine marian.ExpressionGraph_new
              (marian.Optimizer f_0_1 Adam) (marian.mkEngineState 0 ∅) in
  let s3 := marian.run s0 [W1; marian.CallUpdate; W2] in
  let s4 := marian.step s3 marian.CallUpdate in
  marian.values (marian.engine s3) !! 0%nat = Some 1 /\
  marian.values (marian.engine s4) !! 0%nat = Some 2 /\
  marian.values (marian.engine s3) !! 1%nat = Some 0 /\
  marian.values (marian.engine s4) !! 1%nat = Some 0.
Proof. repeat split; vm_compute; reflexivity. Qed.

(* ===================================================================== *)
(** ** Properties: the training cost *)
(* ===================================================================== *)

Lemma bind_assoc {A B C : Type} (m : result A) (f : A -> result B)
      (g : B -> result C) :
  bind (bind m f) g = bind m (fun a => bind (f a) g).
Proof. destruct m; reflexivity. Qed.

(** case analysis on the outcome of each step of a computation *)
Ltac result_cases :=
  unfold bind;
  repeat match goal with
         | |- context [match ?m with OK _ => _ | Raise _ => _ end] => destruct m
         end;
  reflexivity.


Section Cost.
Context `{Engine}.

(** the chain of comparisons in [Cost] picks the reduction of the table *)
Lemma Cost_dispatch (ce mask : Expr) (costType : string) :
  (if String.eqb costType "ce-mean" || String.eqb costType "cross-entropy" then
     do s <- marian.sum ce (-3); marian.mean s (-2)
   else if String.eqb costType "ce-mean-words" then
     do a <- marian.sum ce (-3); do a <- marian.sum a (-2);
     do b <- marian.sum mask (-3); do b <- marian.sum b (-2);
     marian.div a b
   else if String.eqb costType "ce-sum" then
     do a <- marian.sum ce (-3); marian.sum a (-2)
   else if String.eqb costType "perplexity" then
     do a <- marian.sum ce (-3); do a <- marian.sum a (-2);
     do b <- marian.sum mask (-3); do b <- marian.sum b (-2);
     do q <- marian.div a b;
     marian.exp q
   else if String.eqb costType "ce-rescore" then
     do a <- marian.sum ce (-3); marian.neg a
   else
     do s <- marian.sum ce (-3); marian.mean s (-2))
  = Spec.reduce (Spec.reduction_of costType) ce mask.
Proof.
  unfold Spec.reduction_of.
  destruct (String.eqb_spec costType "ce-mean") as [->|H1]; [reflexivity|].
  destruct (String.eqb_spec costType "cross-entropy") as [->|H2]; [reflexivity|].
  rewrite decide_False by (intros [?|?]; contradiction).
  cbn [orb].
  destruct (String.eqb_spec costType "ce-mean-words") as [->|H3].
  { simpl. unfold Spec.sum_over_tokens, Spec.sum_over_sequence, Spec.sum_over_batch.
    result_cases. }
  rewrite decide_False by exact H3.
  destruct (String.eqb_spec costType "ce-sum") as [->|H4]; [reflexivity|].
  rewrite decide_False by exact H4.
  destruct (String.eqb_spec costType "perplexity") as [->|H5].
  { simpl. unfold Spec.sum_over_tokens, Spec.sum_over_sequence, Spec.sum_over_batch.
    result_cases. }
  rewrite decide_False by exact H5.
  destruct (String.eqb_spec costType "ce-rescore") as [->|H6]; [reflexivity|].
  rewrite decide_False by exact H6.
  reflexivity.
Qed.

Lemma Cost_unfold (logits indices mask : Expr)
        (costType : string) (smoothing : float) :
  marian.Cost logits indices mask costType smoothing
  = Spec.Cost logits indices mask costType smoothing.
Proof.
  unfold marian.Cost, Spec.Cost, Spec.per_token_ce.
  rewrite !bind_assoc.
  destruct (marian.cross_entropy logits indices) as [ce|e]; [|reflexivity].
  cbn [bind]. rewrite !bind_assoc.
  change (if F32.ltb (F32.of_Z 0) smoothing
          then
            do ls <- marian.logsoftmax logits;
            do ceq <- marian.mean ls (-1);
            do l <- marian.mul_ne (Float (F32.sub (F32.of_Z 1) smoothing)) ce;
            do r <- marian.mul_ne (Float smoothing) ceq;
            marian.sub l r
          else OK ce)
    with (Spec.smoothed logits ce smoothing).
  destruct (Spec.smoothed logits ce smoothing) as [ce'|e]; [|reflexivity].
  cbn [bind].
  change (if mask is Some _ then marian.mul ce' mask else OK ce')
    with (Spec.masked ce' mask).
  destruct (Spec.masked ce' mask) as [ce''|e]; [|reflexivity].
  cbn [bind]. apply Cost_dispatch.
Qed.

Lemma reduce_nodes (r : Spec.Reduction) (ce mask : Node) :
  batch_laid_out ce -> batch_laid_out mask ->
  Spec.reduce r (Some ce) (Some mask) = OK (Some (reduction_node r ce mask)).
Proof.
  intros [Hce Hce'] [Hm Hm'].
  assert (Hseq : forall x, 3 <= Rank (marian.Node_Shape x) <= 2 ^ 31 ->
             Spec.sum_over_sequence (Some x)
             = OK (Some (ReduceSum x (StaticAxis 2)))).
  { intros x Hx. unfold Spec.sum_over_sequence.
    apply (sum_from_end x 3); lia. }
  assert (Htok : forall x, batch_laid_out x ->
             Spec.sum_over_tokens (Some x)
             = OK (Some (ReduceSum (ReduceSum x (StaticAxis 2)) (StaticAxis 1)))).
  { intros x [Hx Hx']. unfold Spec.sum_over_tokens, Spec.sum_over_batch.
    rewrite Hseq by exact Hx. cbn [bind].
    apply (sum_from_end (ReduceSum x (StaticAxis 2)) 2); lia. }
  destruct r; unfold Spec.reduce.
  - rewrite Hseq by exact Hce. cbn [bind]. unfold Spec.mean_over_batch.
    apply (mean_from_end (ReduceSum ce (StaticAxis 2)) 2); lia.
  - rewrite !Htok by (split; assumption). reflexivity.
  - apply Htok. split; assumption.
  - rewrite !Htok by (split; assumption). reflexivity.
  - rewrite Hseq by exact Hce. reflexivity.
Qed.

(** On a batch with time and batch axes [Cost] builds the engine nodes
    of the selected row, reducing over engine axes 2 and 1. *)
Lemma Cost_nodes (logits indices : Expr) (ce mask : Node)
      (costType : string) (smoothing : float) :
  Spec.per_token_ce logits indices (Some mask) smoothing = OK (Some ce) ->
  batch_laid_out ce -> batch_laid_out mask ->
  marian.Cost logits indices (Some mask) costType smoothing
  = OK (Some (reduction_node (Spec.reduction_of costType) ce mask)).
Proof.
  intros Hce Hlay Hmask. rewrite Cost_unfold. unfold Spec.Cost.
  rewrite Hce. cbn [bind]. apply reduce_nodes; assumption.
Qed.



End Cost.


(** [Cost] on a batch laid out as the engine sees it, [vocabulary x 1 x
    batch x time]: the reductions land on engine axes 2 and 1. *)
Example Cost_on_reference_engine :
  let logits := reference.leaf [5; 1; 3; 4] in
  let indices := reference.leaf [1; 3; 4] in
  let mask := reference.leaf [1; 3; 4] in
  exists ce : Node,
    @Spec.per_token_ce reference.engine logits indices mask F32.zero = OK (Some ce) /\
    @marian.Cost reference.engine logits indices mask "ce-sum" F32.zero
    = OK (Some (ReduceSum (ReduceSum ce (StaticAxis 2)) (StaticAxis 1))).
Proof. eexists. split; vm_compute; reflexivity. Qed.

(* ===================================================================== *)
(** ** Properties: the guided alignment cost *)
(* ===================================================================== *)

Lemma alignment_loss_table :
  Spec.alignment_loss_of "mse" = Some Spec.MSE /\
  Spec.alignment_loss_of "mult" = Some Spec.MULT /\
  Spec.alignment_loss_of "ce" = Some Spec.CE /\
  forall costType, ~ In costType alignment_cost_types ->
                   Spec.alignment_loss_of costType = None.
Proof.
  repeat (split; [reflexivity|]).
  intros costType Hnot. unfold Spec.alignment_loss_of.
  assert (Hin : forall s, In s alignment_cost_types -> costType <> s).
  { intros s Hs ->. contradiction. }
  rewrite !decide_False by (apply Hin; simpl; auto).
  reflexivity.
Qed.

Section Alignment.
Context `{Engine}.

(** the chain of comparisons in [guidedAlignmentCost] *)
Lemma alignment_dispatch (att aln : Expr) (dimBatch : Z) (costType : string) :
  (if String.eqb costType "mse" then
     do d <- marian.sub att aln; do q <- marian.square d;
     do f <- marian.flatten q; do s <- marian.sum f 0;
     marian.div_en s (Int (to_int (2 * dimBatch)))
   else if String.eqb costType "mult" then
     do p <- marian.mul att aln; do f <- marian.flatten p;
     do s <- marian.sum f 0;
     do t <- marian.add_en s (Float marian.eps); do l <- marian.log t;
     do m <- marian.neg l;
     marian.div_en m (Int dimBatch)
   else if String.eqb costType "ce" then
     do t <- marian.add_en att (Float marian.eps); do l <- marian.log t;
     do p <- marian.mul aln l;
     do f <- marian.flatten p; do s <- marian.sum f 0; do m <- marian.neg s;
     marian.div_en m (Int dimBatch)
   else
     Raise (InvalidArgument "Unknown alignment cost type"))
  = match Spec.alignment_loss_of costType with
    | Some l =>
        do raw <- Spec.raw_loss l att aln;
        marian.div_en raw (Int (Spec.divisor_amended l dimBatch))
    | None => Raise (InvalidArgument "Unknown alignment cost type")
    end.
Proof.
  unfold Spec.alignment_loss_of.
  destruct (String.eqb_spec costType "mse") as [->|H1].
  { simpl. unfold Spec.sum_all. result_cases. }
  rewrite decide_False by exact H1.
  destruct (String.eqb_spec costType "mult") as [->|H2].
  { simpl. unfold Spec.sum_all. result_cases. }
  rewrite decide_False by exact H2.
  destruct (String.eqb_spec costType "ce") as [->|H3].
  { simpl. unfold Spec.sum_all. result_cases. }
  rewrite decide_False by exact H3.
  reflexivity.
Qed.

Lemma guidedAlignmentCost_unfold (batch : marian.CorpusBatch)
      (options : Dictionary) (att : Expr) :
  marian.guidedAlignmentCost batch options att
  = Spec.alignment_cost Spec.divisor_amended batch options att.
Proof.
  unfold marian.guidedAlignmentCost, Spec.alignment_cost.
  destruct (marian.Expr_Shape att) as [attShape|]; [|reflexivity]. cbn [bind].
  destruct (ShapeProxy.at_ attShape 0) as [dimBatch|]; [|reflexivity]. cbn [bind].
  destruct (ShapeProxy.at_ attShape 2) as [dimSrc|]; [|reflexivity]. cbn [bind].
  destruct (ShapeProxy.at_ attShape 3) as [dimTrg|]; [|reflexivity]. cbn [bind].
  destruct (marian.Constant_np _ _ _) as [aln|]; [|reflexivity]. cbn [bind].
  destruct (Options.get_string options _) as [costType|]; [|reflexivity].
  cbn [bind]. rewrite alignment_dispatch. reflexivity.
Qed.

(** the sum over all elements, node by node *)
Lemma sum_all_nodes (q : Node) : Spec.sum_all (Some q) = OK (Some (flat_sum q)).
Proof.
  assert (Haxis : mappers.ToCNTKAxis_rank 1 0 = OK (StaticAxis 0))
    by (vm_compute; reflexivity).
  unfold Spec.sum_all, marian.flatten, flat_sum. cbn [marian.deref bind].
  unfold marian.sum, marian.ToCNTKAxis.
  cbn [marian.Expr_Shape marian.deref bind marian.Node_Shape].
  change (Rank [TotalSize (marian.Node_Shape q)]) with 1.
  rewrite Haxis. reflexivity.
Qed.

Lemma div_en_nodes (x : Node) (k : Z) :
  marian.div_en (Some x) (Int k) = OK (Some (divided_by k x)).
Proof.
  unfold marian.div_en, divided_by, Number_eq.
  destruct (k =? 1); reflexivity.
Qed.

Lemma mul_ne_nodes (k : float) (x : Node) :
  marian.mul_ne (Float k) (Some x) = OK (Some (times_scalar k x)).
Proof.
  unfold marian.mul_ne, times_scalar, Number_eq.
  destruct (F32.eqb k (F32.of_Z 1)); reflexivity.
Qed.

(** each loss with its divisor, node by node *)
Lemma alignment_nodes (l : Spec.AlignmentLoss) (att aln : Node)
      (dimBatch : Z) :
  is_int (2 * dimBatch) ->
  (do raw <- Spec.raw_loss l (Some att) (Some aln);
   marian.div_en raw (Int (Spec.divisor_amended l dimBatch)))
  = OK (Some (alignment_node l att aln dimBatch)).
Proof.
  intros Hint.
  assert (Heps : Number_eq (Float marian.eps) 0 = false)
    by (vm_compute; reflexivity).
  destruct l; unfold Spec.raw_loss, alignment_node, Spec.divisor_amended.
  - unfold marian.sub, marian.square, marian.mul, marian.lift2.
    cbn [marian.deref bind]. rewrite sum_all_nodes. cbn [bind].
    rewrite to_int_small by exact Hint. apply div_en_nodes.
  - unfold marian.mul, marian.lift2. cbn [marian.deref bind].
    rewrite sum_all_nodes. cbn [bind].
    unfold marian.add_en. rewrite Heps.
    unfold marian.add, marian.log, marian.neg, marian.lift1, marian.lift2,
      marian.Scalar, Number_to_float.
    cbn [marian.deref bind]. apply div_en_nodes.
  - unfold marian.add_en. rewrite Heps.
    unfold marian.add, marian.log, marian.mul, marian.neg, marian.lift1,
      marian.lift2, marian.Scalar, Number_to_float.
    cbn [marian.deref bind]. rewrite sum_all_nodes. cbn [bind marian.deref].
    apply div_en_nodes.
Qed.

(** C9, as amended.  [guidedAlignmentCost] reads the cost kind as the
    narrowing of the stored wide string and computes exactly one of
    three losses between the attention and the reference alignment: for
    "mse" the sum of the squared differences divided by twice the batch
    size, for "mult" the negated logarithm of the overlap (plus 1e-6)
    divided by the batch size, for "ce" the negated sum of the alignment
    times the logarithm of the attention (plus 1e-6) divided by the
    batch size; each is then scaled by the "guided-alignment-weight"
    option.  For every stored value that narrows to none of the three it
    does not return a cost, whatever the other inputs: it raises, and
    once the shape, the reference alignment and the option have been
    read the error is "Unknown alignment cost type". *)
Theorem guidedAlignmentCost_spec (batch : marian.CorpusBatch)
        (options : Dictionary) (att : Node) (dimBatch dimSrc dimTrg : Z)
        (w : wstring) (weight : float) :
  ShapeProxy.at_ (marian.Node_Shape att) 0 = OK dimBatch ->
  ShapeProxy.at_ (marian.Node_Shape att) 2 = OK dimSrc ->
  ShapeProxy.at_ (marian.Node_Shape att) 3 = OK dimTrg ->
  is_int (2 * dimBatch) ->
  TotalSize [to_size_t (Z.of_nat (length (marian.m_guidedAlignment batch)))]
  = TotalSize (mappers.ToNDShape [dimBatch; 1; dimSrc; dimTrg]) ->
  options !! "guided-alignment-cost" = Some (DV_String w) ->
  options !! "guided-alignment-weight" = Some (DV_Float weight) ->
  let aln := ConstantNode (mappers.ToNDShape [dimBatch; 1; dimSrc; dimTrg])
                          (marian.m_guidedAlignment batch) false in
  let cost := marian.guidedAlignmentCost batch options (Some att) in
  (wide.narrow w = "mse" ->
   cost = OK (Some (times_scalar weight
                      (divided_by (2 * dimBatch)
                         (flat_sum (ElementTimes (Minus att aln)
                                                 (Minus att aln))))))) /\
  (wide.narrow w = "mult" ->
   cost = OK (Some (times_scalar weight
                      (divided_by dimBatch
                         (Negate (Log (Plus (flat_sum (ElementTimes att aln))
                                            (ScalarNode marian.eps)))))))) /\
  (wide.narrow w = "ce" ->
   cost = OK (Some (times_scalar weight
                      (divided_by dimBatch
                         (Negate (flat_sum
                                    (ElementTimes aln
                                       (Log (Plus att
                                               (ScalarNode marian.eps)))))))))) /\
  (~ In (wide.narrow w) alignment_cost_types ->
   cost = Raise (InvalidArgument "Unknown alignment cost type")) /\
  forall (batch' : marian.CorpusBatch) (options' : Dictionary) (att' : Expr),
    options' !! "guided-alignment-cost" = Some (DV_String w) ->
    ~ In (wide.narrow w) alignment_cost_types ->
    is_OK (marian.guidedAlignmentCost batch' options' att') = false.
Proof.
  intros H0 H2 H3 Hint Hsize Hopt Hweight aln cost.
  destruct alignment_loss_table as (Tmse & Tmult & Tce & Tnone).
  assert (Hcost : cost
                  = do normalized <-
                      (match Spec.alignment_loss_of (wide.narrow w) with
                       | Some l =>
                           do raw <- Spec.raw_loss l (Some att) (Some aln);
                           marian.div_en raw
                             (Int (Spec.divisor_amended l dimBatch))
                       | None =>
                           Raise (InvalidArgument "Unknown alignment cost type")
                       end);
                    marian.mul_ne (Float weight) normalized).
  { unfold cost. rewrite guidedAlignmentCost_unfold.
    unfold Spec.alignment_cost.
    cbn [marian.Expr_Shape marian.deref bind].
    rewrite H0, H2, H3. cbn [bind].
    unfold marian.Constant_np, marian.Constant, inits.from_vector,
      inits.WrappedVectorInitializer, Dict.Contains, Dict.at_.
    rewrite lookup_insert_eq.
    rewrite bool_decide_eq_true_2 by eauto.
    cbn [bind Dict.Value_NDArrayView view_shape view_data].
    rewrite Hsize, Z.eqb_refl. cbn [negb bind].
    unfold Options.get_string, Options.get_float, Dict.at_.
    rewrite Hopt, Hweight. reflexivity. }
  assert (Hloss : forall l,
             Spec.alignment_loss_of (wide.narrow w) = Some l ->
             cost = OK (Some (times_scalar weight
                                (alignment_node l att aln dimBatch)))).
  { intros l Hl. rewrite Hcost, Hl, alignment_nodes by exact Hint.
    cbn [bind]. apply mul_ne_nodes. }
  split; [|split; [|split; [|split]]].
  - intros Hw. apply (Hloss Spec.MSE). rewrite Hw. exact Tmse.
  - intros Hw. apply (Hloss Spec.MULT). rewrite Hw. exact Tmult.
  - intros Hw. apply (Hloss Spec.CE). rewrite Hw. exact Tce.
  - intros Hnot. rewrite Hcost, (Tnone _ Hnot). reflexivity.
  - intros batch' options' att' Hopt' Hnot.
    rewrite guidedAlignmentCost_unfold. unfold Spec.alignment_cost.
    destruct (marian.Expr_Shape att') as [attShape|]; [|reflexivity].
    cbn [bind].
    destruct (ShapeProxy.at_ attShape 0) as [b|]; [|reflexivity]. cbn [bind].
    destruct (ShapeProxy.at_ attShape 2) as [s|]; [|reflexivity]. cbn [bind].
    destruct (ShapeProxy.at_ attShape 3) as [t|]; [|reflexivity]. cbn [bind].
    destruct (marian.Constant_np _ _ _) as [aln'|]; [|reflexivity].
    cbn [bind].
    unfold Options.get_string, Dict.at_. rewrite Hopt'. cbn [bind Dict.Value_String].
    rewrite (Tnone _ Hnot). reflexivity.
Qed.
End Alignment.

Lemma guidedAlignmentCost_spec_witness :
  let att := ConstantNode [2; 2; 1; 3] [] false in
  let aln := ConstantNode [2; 2; 1; 3] (replicate 12 F32.zero) false in
  let batch := marian.mkCorpusBatch (replicate 12 F32.zero) in
  @marian.guidedAlignmentCost reference.engine batch
     (alignment_options "mse") (Some att)
  = OK (Some (ElementDivide
                (ReduceSum (Reshape (ElementTimes (Minus att aln)
                                                  (Minus att aln)) [12])
                           (StaticAxis 0))
                (ScalarNode (F32.of_Z 6)))) /\
  @marian.guidedAlignmentCost reference.engine batch
     (alignment_options "l2") (Some att)
  = Raise (InvalidArgument "Unknown alignment cost type").
Proof.
  intros att aln batch.
  destruct (@guidedAlignmentCost_spec reference.engine batch
              (alignment_options "mse") att 3 2 2 (wide.widen "mse") F32.one)
    as (Hmse & _); try reflexivity.
  { unfold is_int, INT_MIN, INT_MAX. lia. }
  destruct (@guidedAlignmentCost_spec reference.engine batch
              (alignment_options "l2") att 3 2 2 (wide.widen "l2") F32.one)
    as (_ & _ & _ & Hother & _); try reflexivity.
  { unfold is_int, INT_MIN, INT_MAX. lia. }
  split.
  - apply Hmse. reflexivity.
  - apply Hother. simpl. intros [Heq|[Heq|[Heq|[]]]]; discriminate.
Defined.

(** C9 as stated fails for a stored value other than the three kinds:
    the wide string of the code units U+016D, "s", "e" is none of them,
    narrows to "mse", and the squared-error loss is computed. *)
Lemma guidedAlignmentCost_counterexample :
  let att := ConstantNode [2; 2; 1; 3] [] false in
  let aln := ConstantNode [2; 2; 1; 3] (replicate 12 F32.zero) false in
  let batch := marian.mkCorpusBatch (replicate 12 F32.zero) in
  let stored : wstring := [365; 115; 101] in
  let options : Dictionary :=
    <["guided-alignment-cost" := DV_String stored]>
      (<["guided-alignment-weight" := DV_Float F32.one]> ∅) in
  ~ In stored (map wide.widen alignment_cost_types) /\
  @marian.guidedAlignmentCost reference.engine batch options (Some att)
  = OK (Some (ElementDivide
                (ReduceSum (Reshape (ElementTimes (Minus att aln)
                                                  (Minus att aln)) [12])
                           (StaticAxis 0))
                (ScalarNode (F32.of_Z 6)))).
Proof.
  intros att aln batch stored options. split.
  - vm_compute. intros [Heq|[Heq|[Heq|[]]]]; discriminate Heq.
  - vm_compute. reflexivity.
Qed.

(* ===================================================================== *)
(** ** Properties: dropout masks *)
(* ===================================================================== *)

Section Dropout.
Context `{LibC}.

(** A call reseeds before it draws: the mask depends on the counter, not
    on the state the generator was left in. *)
Lemma DropoutMask_seed (n : Z) (dropProb : float) (rt : marian.Runtime) :
  fst (marian.DropoutMask n dropProb rt)
  = Spec.mask_of_seed (marian.seed rt) n dropProb /\
  marian.seed (snd (marian.DropoutMask n dropProb rt))
  = to_int (marian.seed rt + 1).
Proof.
  unfold marian.DropoutMask, Spec.mask_of_seed.
  destruct (marian.draw _ _ _ _) as [mask g]. split; reflexivity.
Qed.

Lemma masks_of_run_from (events : list Spec.Event) (rt : marian.Runtime) :
  Spec.masks_of_run events rt
  = masks_from (marian.seed rt) (Spec.dropout_calls events).
Proof.
  revert rt. induction events as [|[n p|f] events IH]; intros rt; simpl.
  - reflexivity.
  - destruct (DropoutMask_seed n p rt) as [Hmask Hseed].
    destruct (marian.DropoutMask n p rt) as [mask rt']. simpl in *.
    rewrite IH, Hseed, Hmask. reflexivity.
  - rewrite IH. reflexivity.
Qed.

(** every element of a mask is 0 or the inverse keep probability *)
Lemma draw_values (n : nat) (RAND_MAXxP invKeepProb : float) (g : RandState) :
  Forall (fun m => m = F32.of_Z 0 \/ m = invKeepProb)
         (fst (marian.draw n RAND_MAXxP invKeepProb g)).
Proof.
  revert g. induction n as [|n IH]; intros g; simpl; [constructor|].
  destruct (rand g) as [r g1].
  specialize (IH g1).
  destruct (marian.draw n RAND_MAXxP invKeepProb g1) as [rest g2].
  simpl in *. constructor; [|exact IH].
  destruct (F32.ltb _ _); auto.
Qed.

Lemma draw_length (n : nat) (RAND_MAXxP invKeepProb : float) (g : RandState) :
  length (fst (marian.draw n RAND_MAXxP invKeepProb g)) = n.
Proof.
  revert g. induction n as [|n IH]; intros g; simpl; [reflexivity|].
  destruct (rand g) as [r g1].
  specialize (IH g1).
  destruct (marian.draw n RAND_MAXxP invKeepProb g1) as [rest g2].
  simpl in *. congruence.
Qed.

Lemma DropoutMask_values (n : Z) (dropProb : float) (rt : marian.Runtime) :
  length (fst (marian.DropoutMask n dropProb rt)) = Z.to_nat n /\
  Forall (fun m => m = F32.zero \/
                   m = F32.div F32.one (F32.sub F32.one dropProb))
         (fst (marian.DropoutMask n dropProb rt)).
Proof.
  destruct (DropoutMask_seed n dropProb rt) as [-> _].
  unfold Spec.mask_of_seed. split; [apply draw_length|apply draw_values].
Qed.
End Dropout.

(** C10.  Two runs of the process that make the same sequence of dropout
    calls draw the same masks, whatever state the C generator starts in
    and however else it is used in between: the k-th call reseeds it
    from the counter, which starts at 1 and moves by one per call. *)
Theorem dropout_masks_deterministic `{LibC}
        (events1 events2 : list Spec.Event) (g1 g2 : RandState) :
  Spec.dropout_calls events1 = Spec.dropout_calls events2 ->
  Spec.masks_of_run events1 (Spec.process_start g1)
  = Spec.masks_of_run events2 (Spec.process_start g2) /\
  Spec.masks_of_run events1 (Spec.process_start g1)
  = masks_from 1 (Spec.dropout_calls events1).
Proof.
  intros Hcalls. rewrite !masks_of_run_from. simpl.
  rewrite Hcalls. split; reflexivity.
Qed.

Lemma dropout_masks_deterministic_witness :
  let half := F32.div (F32.of_Z 1) (F32.of_Z 2) in
  let run1 := [Spec.DropoutCall 4 half; Spec.DropoutCall 3 half] in
  let run2 := [@Spec.OtherRandUse reference.msvcrt (fun g => g + 17);
               Spec.DropoutCall 4 half;
               @Spec.OtherRandUse reference.msvcrt (fun _ => 5);
               Spec.DropoutCall 3 half] in
  @Spec.masks_of_run reference.msvcrt run1
     (@Spec.process_start reference.msvcrt 0)
  = @Spec.masks_of_run reference.msvcrt run2
      (@Spec.process_start reference.msvcrt 99).
Proof.
  intros half run1 run2.
  apply (@dropout_masks_deterministic reference.msvcrt run1 run2 0 99).
  reflexivity.
Defined.

(** the first two masks of a process under the Microsoft runtime, drop
    probability one half: the draws 41, 18467, 6334, 26500 after
    [srand(1)] and 45, 29216, 24198 after [srand(2)] against 16383.5 *)
Example dropout_masks_run :
  let half := F32.div (F32.of_Z 1) (F32.of_Z 2) in
  let two := F32.of_Z 2 in
  @Spec.masks_of_run reference.msvcrt
     [Spec.DropoutCall 4 half; Spec.DropoutCall 3 half]
     (@Spec.process_start reference.msvcrt 0)
  = [[two; F32.zero; two; F32.zero]; [two; F32.zero; F32.zero]].
Proof. vm_compute. reflexivity. Qed.

Lemma binary_round_aux_not_negative (prec emax mx ex : Z) (lx : location) :
  not_negative (binary_round_aux prec emax false mx ex lx).
Proof.
  unfold binary_round_aux.
  destruct (shr_fexp prec emax mx ex lx) as [mrs' e'].
  destruct (shr_fexp prec emax _ e' loc_Exact) as [mrs'' e''].
  destruct (shr_m mrs''); simpl; auto.
  destruct (Z.leb _ _); simpl; auto.
Qed.

Lemma of_Z_not_negative (r : Z) : 0 <= r -> not_negative (F32.of_Z r).
Proof.
  intros Hr. unfold F32.of_Z, binary_normalize.
  destruct r as [|p|p]; [exact I| |lia].
  unfold binary_round.
  destruct (shl_align _ _ _) as [mz ez].
  apply binary_round_aux_not_negative.
Qed.

(** nothing that is not negative is below zero times anything *)
Lemma not_below_zero_times (x y : float) :
  not_negative x -> F32.ltb x (F32.mul (S754_zero false) y) = false.
Proof.
  intros Hx. unfold F32.ltb, F32.mul, SFltb.
  destruct y as [sy|[|]| |sy my ey]; destruct x as [sx|[|]| |[|] mx ex];
    simpl in *; try reflexivity; try contradiction;
    destruct sy; reflexivity.
Qed.

Section DropoutEnds.
Context `{LibC}.

Lemma draw_all_dropped (invKeepProb y : float) :
  rand_not_negative ->
  forall (n : nat) (g : RandState),
    fst (marian.draw n (F32.mul (S754_zero false) y) invKeepProb g)
    = replicate n F32.zero.
Proof.
  intros Hrand. induction n as [|n IH]; intros g; [reflexivity|].
  cbn [marian.draw].
  specialize (Hrand g).
  destruct (rand g) as [r g1]. cbn [fst] in Hrand.
  specialize (IH g1).
  destruct (marian.draw n _ invKeepProb g1) as [rest g2]. cbn [fst] in *.
  rewrite not_below_zero_times by (apply of_Z_not_negative; exact Hrand).
  rewrite IH. reflexivity.
Qed.

(** With drop probability 1 the mask is all zeros. *)
Lemma DropoutMask_prob_one (n : Z) (rt : marian.Runtime) :
  rand_not_negative ->
  fst (marian.DropoutMask n F32.one rt) = replicate (Z.to_nat n) F32.zero.
Proof.
  intros Hrand.
  destruct (DropoutMask_seed n F32.one rt) as [-> _].
  unfold Spec.mask_of_seed.
  change (F32.sub (F32.of_Z 1) F32.one) with (S754_zero false).
  apply draw_all_dropped, Hrand.
Qed.
End DropoutEnds.

(** [dropout(x, p)] multiplies x by a constant holding the mask drawn
    for as many elements as x has. *)
Lemma dropout_result `{Engine} `{LibC} (x : Node) (dropProb : float)
      (rt : marian.Runtime) :
  let shape := marian.Node_Shape x in
  let n := to_size_t (ShapeProxy.elements shape) in
  to_size_t (Z.of_nat (Z.to_nat n)) = TotalSize shape ->
  fst (marian.dropout (Some x) dropProb rt)
  = OK (Some (ElementTimes x
                (ConstantNode shape (fst (marian.DropoutMask n dropProb rt))
                              false))).
Proof.
  intros shape n Hsize.
  unfold marian.dropout, marian.DropoutMask_Proxy.
  cbn [marian.Expr_Shape marian.deref bind].
  fold shape. fold n.
  pose proof (DropoutMask_values n dropProb rt) as [Hlen _].
  destruct (marian.DropoutMask n dropProb rt) as [mask rt']. cbn [fst] in *.
  unfold marian.Constant, inits.WrappedVectorInitializer, Dict.Contains, Dict.at_.
  rewrite lookup_insert_eq.
  rewrite bool_decide_eq_true_2 by eauto.
  cbn [bind Dict.Value_NDArrayView view_shape view_data fst].
  rewrite Hlen.
  replace (TotalSize [to_size_t (Z.of_nat (Z.to_nat n))]) with (TotalSize shape).
  - rewrite Z.eqb_refl. reflexivity.
  - rewrite <- Hsize. unfold TotalSize. cbn [fold_left].
    rewrite Z.mul_1_l. unfold to_size_t. rewrite Z.mod_mod by lia. reflexivity.
Qed.

(** C6.  The claim holds for drop probability 1 and for the values a
    mask takes (the two lemmas above), and the header misses it for drop
    probability 0: the comparison [rand() < RAND_MAXxP] is false when
    [rand()] returns [RAND_MAX] itself.  Under the Microsoft runtime the
    first mask of a process has its element 38723 dropped, so the mask is
    not all ones and [dropout(x, 0)] does not return x unchanged. *)
Theorem DropoutMask_prob_zero_drops :
  let rt := @Spec.process_start reference.msvcrt 0 in
  let n := Z.of_nat (S first_max_draw) in
  let mask := fst (@marian.DropoutMask reference.msvcrt n (F32.of_Z 0) rt) in
  F32.div (F32.of_Z 1) (F32.sub (F32.of_Z 1) (F32.of_Z 0)) = F32.one /\
  fst (@rand reference.msvcrt
         (Nat.iter first_max_draw (fun g => snd (@rand reference.msvcrt g))
                   (@srand reference.msvcrt 1)))
  = @RAND_MAX reference.msvcrt /\
  mask !! first_max_draw = Some F32.zero /\
  mask <> replicate (S first_max_draw) F32.one /\
  fst (@marian.dropout reference.engine reference.msvcrt
         (reference.leaf [n]) (F32.of_Z 0) rt)
  = OK (Some (ElementTimes (ConstantNode [n] [] false)
                           (ConstantNode [n] mask false))).
Proof.
  intros rt n mask.
  assert (Hdrop : mask !! first_max_draw = Some F32.zero)
    by (vm_compute; reflexivity).
  assert (Hout : fst (@marian.dropout reference.engine reference.msvcrt
                        (reference.leaf [n]) (F32.of_Z 0) rt)
                 = OK (Some (ElementTimes (ConstantNode [n] [] false)
                                          (ConstantNode [n] mask false)))).
  { assert (Hn : to_size_t (ShapeProxy.elements [n]) = n)
      by (vm_compute; reflexivity).
    pose proof (@dropout_result reference.engine reference.msvcrt
                  (ConstantNode [n] [] false) (F32.of_Z 0) rt) as Hres.
    cbn [marian.Node_Shape] in Hres. rewrite Hn in Hres.
    apply Hres. vm_compute. reflexivity. }
  clearbody mask.
  split; [vm_compute; reflexivity|].
  split; [vm_compute; reflexivity|].
  split; [exact Hdrop|].
  split; [|exact Hout].
  intros Heq.
  assert (Hone : replicate (S first_max_draw) F32.one !! first_max_draw
                 = Some F32.one)
    by (apply lookup_replicate_2, Nat.lt_succ_diag_r).
  rewrite <- Heq, Hdrop in Hone. discriminate Hone.
Qed.

(* ===================================================================== *)
(** ** Further properties: axes *)
(* ===================================================================== *)

(** X1.  Within a rank 1 <= r <= 2^31 the conversion of the indices
    0 .. r-1 is the reversal a |-> r - 1 - a: the negative alias a - r
    converts to the same engine axis, converting the result again gives
    a back, and two different indices never share an engine axis. *)
Theorem ToCNTKAxis_rank_reversal (r a : Z) :
  1 <= r <= 2 ^ 31 -> 0 <= a < r ->
  mappers.ToCNTKAxis_rank r a = OK (StaticAxis (r - 1 - a)) /\
  mappers.ToCNTKAxis_rank r (a - r) = mappers.ToCNTKAxis_rank r a /\
  mappers.ToCNTKAxis_rank r (r - 1 - a) = OK (StaticAxis a) /\
  forall b : Z,
    0 <= b < r ->
    mappers.ToCNTKAxis_rank r a = mappers.ToCNTKAxis_rank r b -> a = b.
Proof.
  intros Hr Ha.
  assert (Hpos : forall c, 0 <= c < r ->
             mappers.ToCNTKAxis_rank r c = OK (StaticAxis (r - 1 - c))).
  { intros c Hc.
    rewrite ToCNTKAxis_rank_in_range;
      try (unfold is_int, INT_MIN, INT_MAX; lia).
    - assert (Hge : (c <? 0) = false) by (apply Z.ltb_ge; lia).
      rewrite Hge. reflexivity.
    - assert (Hge : (c <? 0) = false) by (apply Z.ltb_ge; lia).
      rewrite Hge. lia. }
  split; [apply Hpos, Ha|]. split; [|split].
  - rewrite (Hpos a Ha).
    assert (Hneg : (a - r <? 0) = true) by (apply Z.ltb_lt; lia).
    rewrite ToCNTKAxis_rank_in_range;
      try (unfold is_int, INT_MIN, INT_MAX; lia).
    + rewrite Hneg. do 2 f_equal. lia.
    + rewrite Hneg. lia.
  - rewrite Hpos by lia. do 2 f_equal. lia.
  - intros b Hb. rewrite (Hpos a Ha), (Hpos b Hb). intros [= Heq]. lia.
Qed.

Lemma ToCNTKAxis_rank_reversal_witness :
  mappers.ToCNTKAxis_rank 4 1 = OK (StaticAxis 2) /\
  mappers.ToCNTKAxis_rank 4 (1 - 4) = mappers.ToCNTKAxis_rank 4 1 /\
  mappers.ToCNTKAxis_rank 4 (4 - 1 - 1) = OK (StaticAxis 1).
Proof.
  destruct (ToCNTKAxis_rank_reversal 4 1) as (H1 & H2 & H3 & _);
    [simpl; lia|lia|].
  split; [exact H1|]. split; [exact H2|exact H3].
Defined.

Lemma Transform_ok {A B : Type} (f : A -> result B) (g : A -> B) (l : list A) :
  Forall (fun a => f a = OK (g a)) l -> Transform f l = OK (map g l).
Proof.
  induction 1 as [|a l Ha _ IH]; [reflexivity|].
  simpl. rewrite Ha. simpl. rewrite IH. reflexivity.
Qed.

Lemma Transform_raise {A B : Type} (f : A -> result B) (e : exn) (l : list A) :
  Forall (fun a => is_OK (f a) = true \/ f a = Raise e) l ->
  Exists (fun a => f a = Raise e) l ->
  Transform f l = Raise e.
Proof.
  induction 1 as [|a l Ha Hl IH]; intros Hex; [inversion Hex|].
  simpl. destruct Ha as [Ha|Ha].
  - destruct (f a) as [b|] eqn:Hfa; [|discriminate]. simpl.
    inversion Hex as [? ? Hhd|? ? Htl]; subst; [congruence|].
    rewrite (IH Htl). reflexivity.
  - rewrite Ha. reflexivity.
Qed.

Lemma ToCNTKAxis_rank_decided (r a : Z) :
  1 <= r <= 2 ^ 31 -> is_int a ->
  (axis_in_range r a /\
   mappers.ToCNTKAxis_rank r a = OK (StaticAxis (r - 1 - normalize_axis r a))) \/
  (~ axis_in_range r a /\
   mappers.ToCNTKAxis_rank r a
   = Raise (InvalidArgument "marian::ToCNTKAxis: axis out of range")).
Proof.
  intros Hr Ha. unfold axis_in_range, normalize_axis.
  destruct (decide (0 <= (if a <? 0 then a + r else a) < r)) as [Hin|Hout].
  - left. split; [exact Hin|]. apply ToCNTKAxis_rank_in_range; assumption.
  - right. split; [exact Hout|].
    apply ToCNTKAxis_rank_out_of_range; assumption.
Qed.

Lemma rev_reversal_iota (n : nat) :
  rev (map (fun a => StaticAxis (Z.of_nat n - 1 - a)) (iota n))
  = map StaticAxis (iota n).
Proof.
  unfold iota. apply list_eq. intros i.
  destruct (decide (i < n)%nat) as [Hi|Hi].
  - rewrite rev_lookup by (rewrite !length_map, length_seq; exact Hi).
    rewrite !length_map, length_seq.
    change (map ?f ?l) with (f <$> l).
    rewrite !list_lookup_fmap.
    rewrite !lookup_seq_lt by lia. simpl. do 2 f_equal. lia.
  - rewrite !lookup_ge_None_2; [reflexivity| |].
    + rewrite !length_map, length_seq. lia.
    + rewrite length_rev, !length_map, length_seq. lia.
Qed.

(** X2.  The batch conversion of a sequence of [int] axis indices,
    within a rank 1 <= r <= 2^31: when every index is in range the
    result is the converted indices in reverse order; as soon as one
    index is out of range the whole conversion raises the out-of-range
    error; and the identity permutation 0, 1, ..., r-1 comes out as the
    identity permutation of the engine axes. *)
Theorem ToCNTKAxes_rank_spec (r : Z) (axisIndices : list Z) :
  1 <= r <= 2 ^ 31 ->
  Forall is_int axisIndices ->
  (Forall (axis_in_range r) axisIndices ->
   ToCNTKAxes_rank r axisIndices
   = OK (rev (map (fun a => StaticAxis (r - 1 - normalize_axis r a))
                  axisIndices))) /\
  (~ Forall (axis_in_range r) axisIndices ->
   ToCNTKAxes_rank r axisIndices
   = Raise (InvalidArgument "marian::ToCNTKAxis: axis out of range")) /\
  ToCNTKAxes_rank r (iota (Z.to_nat r))
  = OK (map StaticAxis (iota (Z.to_nat r))).
Proof.
  intros Hr Hint.
  assert (Hall : forall l, Forall is_int l -> Forall (axis_in_range r) l ->
            ToCNTKAxes_rank r l
            = OK (rev (map (fun a => StaticAxis (r - 1 - normalize_axis r a)) l))).
  { intros l Hl Hin. unfold ToCNTKAxes_rank.
    rewrite (Transform_ok _ (fun a => StaticAxis (r - 1 - normalize_axis r a)));
      [reflexivity|].
    apply Forall_forall. intros a Ha.
    destruct (ToCNTKAxis_rank_decided r a Hr) as [[_ Hok]|[Hout _]].
    - eapply Forall_forall in Hl; eauto.
    - exact Hok.
    - exfalso. apply Hout. eapply Forall_forall in Hin; eauto. }
  split; [apply Hall, Hint|]. split.
  - intros Hnot. unfold ToCNTKAxes_rank.
    rewrite (Transform_raise _
               (InvalidArgument "marian::ToCNTKAxis: axis out of range"));
      [reflexivity| |].
    + apply Forall_forall. intros a Ha.
      destruct (ToCNTKAxis_rank_decided r a Hr) as [[_ Hok]|[_ Hraise]].
      * eapply Forall_forall in Hint; eauto.
      * left. rewrite Hok. reflexivity.
      * right. exact Hraise.
    + apply not_Forall_Exists in Hnot; [|intros a; apply _].
      apply Exists_exists in Hnot as (a & Ha & Hout).
      apply Exists_exists. exists a. split; [exact Ha|].
      destruct (ToCNTKAxis_rank_decided r a Hr) as [[Hin _]|[_ Hraise]].
      * eapply Forall_forall in Hint; eauto.
      * contradiction.
      * exact Hraise.
  - rewrite Hall.
    + rewrite <- rev_reversal_iota. rewrite Z2Nat.id by lia.
      do 2 f_equal. apply map_ext_in. intros a Ha.
      unfold iota in Ha. apply in_map_iff in Ha as (i & <- & _).
      unfold normalize_axis.
      assert (Hge : (Z.of_nat i <? 0) = false) by (apply Z.ltb_ge; lia).
      rewrite Hge. reflexivity.
    + unfold iota. apply Forall_forall. intros a Ha.
      apply list_elem_of_In, in_map_iff in Ha as (i & <- & Hi).
      apply in_seq in Hi. unfold is_int, INT_MIN, INT_MAX. lia.
    + unfold iota. apply Forall_forall. intros a Ha.
      apply list_elem_of_In, in_map_iff in Ha as (i & <- & Hi).
      apply in_seq in Hi. unfold axis_in_range, normalize_axis.
      assert (Hge : (Z.of_nat i <? 0) = false) by (apply Z.ltb_ge; lia).
      rewrite Hge. lia.
Qed.

Lemma ToCNTKAxes_rank_spec_witness :
  ToCNTKAxes_rank 3 [0; -1; 1]
  = OK [StaticAxis 1; StaticAxis 0; StaticAxis 2] /\
  ToCNTKAxes_rank 3 [0; 3; 1]
  = Raise (InvalidArgument "marian::ToCNTKAxis: axis out of range").
Proof.
  destruct (ToCNTKAxes_rank_spec 3 [0; -1; 1]) as (Hok & _ & _).
  { simpl. lia. }
  { repeat constructor; unfold is_int, INT_MIN, INT_MAX; simpl; lia. }
  destruct (ToCNTKAxes_rank_spec 3 [0; 3; 1]) as (_ & Hraise & _).
  { simpl. lia. }
  { repeat constructor; unfold is_int, INT_MIN, INT_MAX; simpl; lia. }
  split.
  - apply Hok.
    repeat (constructor; [unfold axis_in_range, normalize_axis; simpl; lia|]).
    constructor.
  - apply Hraise. intros Hall. inversion Hall as [|? ? _ Htl]; subst.
    inversion Htl as [|? ? Hhd _]; subst.
    unfold axis_in_range, normalize_axis in Hhd. simpl in Hhd. lia.
Defined.

(* ===================================================================== *)
(** ** Further properties: indexing a shape through the proxy *)
(* ===================================================================== *)

Lemma ShapeProxy_at_engine_axis_helper (viewShape : NDShape) (index : Z) :
  let r := Z.of_nat (length viewShape) in
  1 <= r <= INT_MAX ->
  is_int index ->
  axis_in_range r index ->
  mappers.ToCNTKAxis_rank (Rank viewShape) index
  = OK (StaticAxis (r - 1 - normalize_axis r index)) /\
  ShapeProxy.at_ viewShape index
  = (do d <- NDShape_at viewShape (r - 1 - normalize_axis r index);
     OK (to_int d)).
Proof.
  intros r Hr Hint Hin. unfold INT_MAX in Hr.
  assert (Hrank : Rank viewShape = r).
  { unfold Rank. apply to_size_t_small. unfold is_size_t, SIZE_MAX. lia. }
  rewrite Hrank. split.
  - apply ToCNTKAxis_rank_in_range; [lia|exact Hint|exact Hin].
  - unfold ShapeProxy.at_, axis_in_range, normalize_axis in *.
    rewrite Hrank. unfold is_int, INT_MIN, INT_MAX in Hint.
    destruct (index <? 0) eqn:Hneg.
    + apply Z.ltb_lt in Hneg.
      rewrite (to_int_small (index + 1))
        by (unfold is_int, INT_MIN, INT_MAX; lia).
      rewrite (to_int_small (- (index + 1)))
        by (unfold is_int, INT_MIN, INT_MAX; lia).
      rewrite to_size_t_small by (unfold is_size_t, SIZE_MAX; lia).
      do 2 f_equal. lia.
    + apply Z.ltb_ge in Hneg.
      rewrite (to_int_small (index + 1))
        by (unfold is_int, INT_MIN, INT_MAX; lia).
      rewrite (to_size_t_small (index + 1))
        by (unfold is_size_t, SIZE_MAX; lia).
      rewrite to_size_t_small by (unfold is_size_t, SIZE_MAX; lia).
      do 2 f_equal. lia.
Qed.


(** X3.  For an engine shape of rank 1 <= r <= INT_MAX and an [int]
    index in range, [ShapeProxy::operator[]] reads the extent of exactly
    the engine axis [ToCNTKAxis] converts that index to. *)
Theorem ShapeProxy_at_engine_axis (viewShape : NDShape) (index : Z) :
  let r := Z.of_nat (length viewShape) in
  1 <= r <= INT_MAX ->
  is_int index ->
  axis_in_range r index ->
  mappers.ToCNTKAxis_rank (Rank viewShape) index
  = OK (StaticAxis (r - 1 - normalize_axis r index)) /\
  ShapeProxy.at_ viewShape index
  = (do d <- NDShape_at viewShape (r - 1 - normalize_axis r index);
     OK (to_int d)).
Proof. apply ShapeProxy_at_engine_axis_helper. Qed.

Lemma ShapeProxy_at_engine_axis_witness :
  ShapeProxy.at_ [7; 5; 3] (-1)
  = (do d <- NDShape_at [7; 5; 3] 0; OK (to_int d)) /\
  ShapeProxy.at_ [7; 5; 3] 0
  = (do d <- NDShape_at [7; 5; 3] 2; OK (to_int d)).
Proof.
  split.
  - apply (ShapeProxy_at_engine_axis [7; 5; 3] (-1));
      unfold is_int, INT_MIN, INT_MAX, axis_in_range, normalize_axis;
      simpl; lia.
  - apply (ShapeProxy_at_engine_axis [7; 5; 3] 0);
      unfold is_int, INT_MIN, INT_MAX, axis_in_range, normalize_axis;
      simpl; lia.
Defined.

Lemma proxy_reads_Shape (s : Shape) (i : nat) (d : Z) :
  Forall is_int s ->
  Z.of_nat (length s) <= INT_MAX ->
  s !! i = Some d ->
  ShapeProxy.at_ (mappers.ToNDShape s) (Z.of_nat i) = OK d /\
  ShapeProxy.at_ (mappers.ToNDShape s) (Z.of_nat i - Z.of_nat (length s)) = OK d /\
  ShapeProxy.size (mappers.ToNDShape s) = Z.of_nat (length s).
Proof.
  intros Hint Hlen Hd. unfold INT_MAX in Hlen.
  pose proof (lookup_lt_Some _ _ _ Hd) as Hi.
  assert (Hlen' : length (mappers.ToNDShape s) = length s).
  { unfold mappers.ToNDShape. rewrite length_map, length_rev. reflexivity. }
  assert (Hat : NDShape_at (mappers.ToNDShape s)
                  (Z.of_nat (length s) - 1 - Z.of_nat i) = OK (to_size_t d)).
  { rewrite <- (ToNDShape_at s i d) by (unfold SIZE_MAX; lia || exact Hd).
    f_equal. symmetry. apply to_size_t_small.
    unfold is_size_t, SIZE_MAX. lia. }
  assert (Hd' : to_int (to_size_t d) = d).
  { rewrite to_int_to_size_t. apply to_int_small.
    eapply Forall_lookup_1; eauto. }
  assert (Hproxy : forall index,
            is_int index ->
            axis_in_range (Z.of_nat (length s)) index ->
            normalize_axis (Z.of_nat (length s)) index = Z.of_nat i ->
            ShapeProxy.at_ (mappers.ToNDShape s) index = OK d).
  { intros index Hidx Hin Hnorm.
    destruct (ShapeProxy_at_engine_axis_helper (mappers.ToNDShape s) index)
      as [_ ->]; rewrite ?Hlen'; try assumption; try (unfold INT_MAX; lia).
    rewrite Hnorm, Hat. simpl. rewrite Hd'. reflexivity. }
  split; [|split].
  - apply Hproxy; unfold is_int, INT_MIN, INT_MAX, axis_in_range, normalize_axis.
    + lia.
    + assert (Hge : (Z.of_nat i <? 0) = false) by (apply Z.ltb_ge; lia).
      rewrite Hge. lia.
    + assert (Hge : (Z.of_nat i <? 0) = false) by (apply Z.ltb_ge; lia).
      rewrite Hge. reflexivity.
  - apply Hproxy; unfold is_int, INT_MIN, INT_MAX, axis_in_range, normalize_axis.
    + lia.
    + assert (Hneg : (Z.of_nat i - Z.of_nat (length s) <? 0) = true)
        by (apply Z.ltb_lt; lia).
      rewrite Hneg. lia.
    + assert (Hneg : (Z.of_nat i - Z.of_nat (length s) <? 0) = true)
        by (apply Z.ltb_lt; lia).
      rewrite Hneg. lia.
  - unfold ShapeProxy.size, Rank. rewrite Hlen'.
    apply to_size_t_small. unfold is_size_t, SIZE_MAX. lia.
Qed.

(** X4.  Indexing the proxy of the engine shape of a Shape s gives the
    extents of s back: index i gives s[i], the negative index i - rank
    gives the same extent, and the proxy has the rank of s. *)
Theorem ShapeProxy_reads_Shape (s : Shape) (i : nat) (d : Z) :
  Forall is_int s ->
  Z.of_nat (length s) <= INT_MAX ->
  s !! i = Some d ->
  ShapeProxy.at_ (mappers.ToNDShape s) (Z.of_nat i) = OK d /\
  ShapeProxy.at_ (mappers.ToNDShape s) (Z.of_nat i - Z.of_nat (length s)) = OK d /\
  ShapeProxy.size (mappers.ToNDShape s) = Z.of_nat (length s).
Proof. apply proxy_reads_Shape. Qed.

Lemma ShapeProxy_reads_Shape_witness :
  ShapeProxy.at_ (mappers.ToNDShape [2; 3; 5]) 1 = OK 3 /\
  ShapeProxy.at_ (mappers.ToNDShape [2; 3; 5]) (1 - 3) = OK 3.
Proof.
  destruct (ShapeProxy_reads_Shape [2; 3; 5] 1 3) as (H1 & H2 & _).
  - repeat constructor; unfold is_int, INT_MIN, INT_MAX; simpl; lia.
  - unfold INT_MAX. simpl. lia.
  - reflexivity.
  - split; [exact H1|exact H2].
Defined.

(* ===================================================================== *)
(** ** Further properties: wide and narrow strings *)
(* ===================================================================== *)

Lemma to_char_to_wchar (c : ascii) : to_char (to_wchar (char_value c)) = c.
Proof.
  unfold to_char, to_wchar, char_value.
  pose proof (N_ascii_bounded c) as Hb.
  assert (Hu : 0 <= Z.of_N (N_of_ascii c) < 256) by lia.
  set (u := Z.of_N (N_of_ascii c)) in *.
  assert (Hmod : ((if u <? 128 then u else u - 256) mod 2 ^ 16) mod 2 ^ 8 = u).
  { destruct (u <? 128) eqn:Hlt.
    - rewrite (Z.mod_small u (2 ^ 16)) by lia. apply Z.mod_small. lia.
    - apply Z.ltb_ge in Hlt.
      replace ((u - 256) mod 2 ^ 16) with (u + 65280).
      + replace (u + 65280) with (u + 255 * 2 ^ 8) by lia.
        rewrite Z_mod_plus_full. apply Z.mod_small. lia.
      + symmetry. replace (u - 256) with (u + 65280 + (-1) * 2 ^ 16) by lia.
        rewrite Z_mod_plus_full. apply Z.mod_small. lia. }
  rewrite Hmod. subst u. rewrite N2Z.id. apply ascii_N_embedding.
Qed.

Lemma to_wchar_to_char (u : Z) :
  0 <= u < 2 ^ 16 ->
  to_wchar (char_value (to_char u)) = u <-> survives_narrowing u.
Proof.
  intros Hu. unfold to_char, to_wchar, char_value, survives_narrowing.
  pose proof (Z.mod_pos_bound u (2 ^ 8) ltac:(lia)) as Hm.
  rewrite N_ascii_embedding by lia.
  rewrite Z2N.id by lia.
  pose proof (Z.div_mod u (2 ^ 8) ltac:(lia)) as Hdiv.
  set (m := u mod 2 ^ 8) in *. set (q := u / 2 ^ 8) in *.
  assert (Hq : 0 <= q < 256) by (change (2 ^ 16) with (256 * 256) in Hu; change (2 ^ 8) with 256 in *; nia).
  change (2 ^ 8) with 256 in *. change (2 ^ 16) with 65536 in *.
  destruct (m <? 128) eqn:Hlt.
  - apply Z.ltb_lt in Hlt. rewrite Z.mod_small by lia. split; intros H; lia.
  - apply Z.ltb_ge in Hlt.
    replace ((m - 256) mod 65536) with (m + 65280).
    + split; intros H; lia.
    + symmetry. replace (m - 256) with (m + 65280 + (-1) * 65536) by lia.
      rewrite Z_mod_plus_full. apply Z.mod_small. lia.
Qed.

Lemma narrow_widen (t : string) : wide.narrow (wide.widen t) = t.
Proof.
  unfold wide.narrow, wide.widen. rewrite map_map.
  rewrite (map_ext _ id) by apply to_char_to_wchar.
  rewrite map_id. apply string_of_list_ascii_of_string.
Qed.

Lemma widen_narrow (w : wstring) :
  Forall (fun u => 0 <= u < 2 ^ 16) w ->
  wide.widen (wide.narrow w) = w <-> Forall survives_narrowing w.
Proof.
  intros Hw. unfold wide.narrow, wide.widen.
  rewrite list_ascii_of_string_of_list_ascii, map_map.
  induction Hw as [|u w Hu Hw IH]; simpl.
  - split; [constructor|reflexivity].
  - split.
    + intros [= Hhd Htl]. constructor.
      * apply to_wchar_to_char; assumption.
      * apply IH, Htl.
    + intros Hall. inversion Hall as [|? ? Hsu Hsw]; subst. f_equal.
      * apply to_wchar_to_char; assumption.
      * apply IH, Hsw.
Qed.

(** X5.  Narrowing the widening of a narrow string gives the string
    back, for every string, so widened keys and values are told apart
    exactly as the narrow ones.  The other way round holds exactly for
    the wide strings whose code units are 7-bit or sign extensions of a
    negative [char]: any other code unit is lost. *)
Theorem narrow_widen_round_trip (s : string) (w : wstring) :
  Forall (fun u => 0 <= u < 2 ^ 16) w ->
  wide.narrow (wide.widen s) = s /\
  (forall s' : string, wide.widen s = wide.widen s' -> s = s') /\
  (wide.widen (wide.narrow w) = w <-> Forall survives_narrowing w).
Proof.
  intros Hw. split; [apply narrow_widen|]. split.
  - intros s' Heq. rewrite <- (narrow_widen s), <- (narrow_widen s'), Heq.
    reflexivity.
  - apply widen_narrow, Hw.
Qed.

Lemma narrow_widen_round_trip_witness :
  wide.narrow (wide.widen "guided-alignment-cost") = "guided-alignment-cost"%string /\
  wide.widen (wide.narrow [233]) <> [233].
Proof.
  destruct (narrow_widen_round_trip "guided-alignment-cost" [233])
    as (Hround & _ & Hback).
  - repeat constructor; lia.
  - split; [exact Hround|].
    intros Heq. apply Hback in Heq.
    inversion Heq as [|? ? Hsu _]; subst.
    unfold survives_narrowing in Hsu. lia.
Defined.

(* ===================================================================== *)
(** ** Further properties: the typed option accessors *)
(* ===================================================================== *)

(** X6.  [set] followed by [get] of the same kind gives the value back
    and [has] sees the key; other keys are not affected; a second [set]
    overwrites the first.  A string is stored widened and read narrowed,
    which gives it back; a wide string stored as it is reads as its
    narrowing.  On a dictionary that does not hold the key, [has] says
    so, [get] fails and the defaulting [get] returns its default.  A key
    stored under another kind makes every read fail: the plain [get],
    and the defaulting one as well. *)
Theorem Options_set_get (d : Dictionary) (key other : string)
        (v : DictionaryValue) (f deflt : float) (s sdeflt : string)
        (w : wstring) :
  other <> key ->
  Options.has (Options.set key v d) key = true /\
  Options.has (Options.set key v d) other = Options.has d other /\
  Options.get_float (Options.set key v d) other = Options.get_float d other /\
  Options.get_float (Options.set key (DV_Float f) d) key = OK f /\
  Options.get_string (Options.set_string key s d) key = OK s /\
  Options.get_string (Options.set key (DV_String w) d) key
  = OK (wide.narrow w) /\
  OptionsGet.get_float_or (Options.set key (DV_Float f) d) key deflt = OK f /\
  OptionsGet.get_string_or (Options.set_string key s d) key sdeflt = OK s /\
  Options.set key v (Options.set key (DV_Float f) d) = Options.set key v d /\
  (d !! key = None ->
   Options.has d key = false /\
   is_OK (Options.get_float d key) = false /\
   is_OK (Options.get_string d key) = false /\
   OptionsGet.get_float_or d key deflt = OK deflt /\
   OptionsGet.get_string_or d key sdeflt = OK sdeflt) /\
  is_OK (Options.get_float (Options.set_string key s d) key) = false /\
  is_OK (Options.get_string (Options.set key (DV_Float f) d) key) = false /\
  is_OK (OptionsGet.get_float_or (Options.set_string key s d) key deflt)
  = false /\
  is_OK (OptionsGet.get_string_or (Options.set key (DV_Float f) d) key sdeflt)
  = false.
Proof.
  intros Hne.
  unfold Options.has, Options.set_string, Options.set, Options.get_float,
    Options.get_string, OptionsGet.get_float_or, OptionsGet.GetOrElse_float,
    OptionsGet.get_string_or, Options.get_string, Dict.Contains, Dict.at_.
  rewrite !lookup_insert_eq, !lookup_insert_ne by congruence.
  rewrite !bool_decide_eq_true_2 by eauto.
  rewrite insert_insert_eq.
  cbn [bind Dict.Value_Float Dict.Value_String is_OK].
  rewrite narrow_widen.
  repeat (split; [reflexivity|]).
  split; [|repeat split; reflexivity].
  intros Hmissing. rewrite Hmissing.
  rewrite bool_decide_eq_false_2 by (intros [? ?]; discriminate).
  repeat split; reflexivity.
Qed.

Lemma Options_set_get_witness :
  let d := Options.set "learn-rate" (DV_Float f_0_1) ∅ in
  Options.get_float d "learn-rate" = OK f_0_1 /\
  Options.has d "seed" = Options.has ∅ "seed" /\
  is_OK (Options.get_string d "learn-rate") = false /\
  Options.get_string (Options.set_string "type" "s2s" ∅) "type"
  = OK "s2s"%string.
Proof.
  intros d.
  destruct (Options_set_get ∅ "learn-rate" "seed" (DV_Float f_0_1) f_0_1
              f_0_2 "" "" [])
    as (_ & Hhas & _ & Hget & _ & _ & _ & _ & _ & _ & _ & Hkind & _).
  - discriminate.
  - destruct (Options_set_get ∅ "type" "seed" DV_None f_0_1 f_0_2 "s2s" "" [])
      as (_ & _ & _ & _ & Hstr & _); [discriminate|].
    split; [exact Hget|]. split; [exact Hhas|]. split; [exact Hkind|exact Hstr].
Defined.

Lemma Transform_Value_Int (ints : list Z) :
  Transform OptionsGet.Value_Int (OptionsGet.VectorOf_int ints) = OK ints.
Proof.
  unfold OptionsGet.VectorOf_int.
  induction ints as [|i ints IH]; [reflexivity|].
  cbn [map Transform OptionsGet.Value_Int bind]. rewrite IH. reflexivity.
Qed.

Lemma Transform_narrow (ws : list wstring) :
  Transform (fun v => do wstr <- Dict.Value_String v; OK (wide.narrow wstr))
            (OptionsGet.VectorOf_wstring ws)
  = OK (map wide.narrow ws).
Proof.
  unfold OptionsGet.VectorOf_wstring.
  induction ws as [|w ws IH]; [reflexivity|].
  cbn [map Transform Dict.Value_String bind]. rewrite IH. reflexivity.
Qed.

Lemma Transform_stops {A B : Type} (f : A -> result B) (pre post : list A)
      (a : A) :
  is_OK (f a) = false -> is_OK (Transform f (pre ++ a :: post)) = false.
Proof.
  intros Ha. induction pre as [|p pre IH]; simpl.
  - destruct (f a); [discriminate|reflexivity].
  - destruct (f p); [|reflexivity]. simpl.
    destruct (Transform f (pre ++ a :: post)); [discriminate|reflexivity].
Qed.

(** X7.  A vector of ints stored element by element comes back as the
    same sequence, the empty one included.  A vector of wide strings
    comes back narrowed element by element: the widenings of narrow
    strings come back as those strings, and in general the result
    widens back to what was stored exactly when every code unit
    survives narrowing.  When one element is of another kind the read
    fails as a whole, whatever surrounds it, and a non-empty vector of
    ints cannot be read as strings. *)
Theorem Options_vector_round_trip (d : Dictionary) (key : string)
        (ints pre post : list Z) (ws : list wstring) (strs : list string)
        (w : wstring) :
  Forall (Forall (fun u => 0 <= u < 2 ^ 16)) ws ->
  OptionsGet.get_vector_int
    (Options.set key (DV_Vector (OptionsGet.VectorOf_int ints)) d) key
  = OK ints /\
  OptionsGet.get_vector_string
    (Options.set key (DV_Vector (OptionsGet.VectorOf_wstring ws)) d) key
  = OK (map wide.narrow ws) /\
  OptionsGet.get_vector_string
    (Options.set key
       (DV_Vector (OptionsGet.VectorOf_wstring (map wide.widen strs))) d) key
  = OK strs /\
  (map wide.widen (map wide.narrow ws) = ws
   <-> Forall (Forall survives_narrowing) ws) /\
  is_OK (OptionsGet.get_vector_int
           (Options.set key
              (DV_Vector (OptionsGet.VectorOf_int pre ++ DV_String w
                            :: OptionsGet.VectorOf_int post)) d) key)
  = false /\
  (ints <> [] ->
   is_OK (OptionsGet.get_vector_string
            (Options.set key (DV_Vector (OptionsGet.VectorOf_int ints)) d) key)
   = false) /\
  is_OK (OptionsGet.get_vector_int (Options.set key (DV_Int 3) d) key) = false.
Proof.
  intros Hws.
  unfold OptionsGet.get_vector_int, OptionsGet.get_vector_string,
    Options.set, Dict.at_.
  rewrite !lookup_insert_eq. cbn [bind OptionsGet.Value_Vector].
  rewrite Transform_Value_Int, !Transform_narrow.
  split; [reflexivity|]. split; [reflexivity|].
  split; [|split; [|split; [|split]]].
  - f_equal. rewrite map_map. rewrite (map_ext _ id) by apply narrow_widen.
    apply map_id.
  - induction Hws as [|u ws Hu Hws IH]; cbn [map].
    + split; [constructor|reflexivity].
    + split.
      * intros [= Hhd Htl]. constructor.
        -- apply widen_narrow; assumption.
        -- apply IH, Htl.
      * intros Hall. inversion Hall as [|? ? Hsu Hsw]; subst. f_equal.
        -- apply widen_narrow; assumption.
        -- apply IH, Hsw.
  - apply Transform_stops. reflexivity.
  - intros Hne. destruct ints as [|i ints]; [contradiction|]. reflexivity.
  - reflexivity.
Qed.

Lemma Options_vector_round_trip_witness :
  OptionsGet.get_vector_string
    (Options.set "k" (DV_Vector (OptionsGet.VectorOf_wstring [[321]; [66]])) ∅)
    "k"
  = OK ["A"; "B"]%string /\
  map wide.widen (map wide.narrow [[321]; [66]]) <> [[321]; [66]].
Proof.
  destruct (Options_vector_round_trip ∅ "k" [] [] [] [[321]; [66]] [] [])
    as (_ & Hread & _ & Hback & _).
  - repeat (constructor; [repeat constructor; lia|]). constructor.
  - split; [exact Hread|].
    intros Heq. apply Hback in Heq.
    inversion Heq as [|? ? Hfirst _]; subst.
    inversion Hfirst as [|? ? Hsu _]; subst.
    unfold survives_narrowing in Hsu. lia.
Defined.

(* ===================================================================== *)
(** ** Further properties: merging twice *)
(* ===================================================================== *)

Lemma merge_result (h : OptionsStore) (this other : nat) (A B : Dictionary) :
  h !! this = Some A ->
  h !! other = Some B ->
  Options.merge this other h = OK (<[this := A ∪ B]> h).
Proof.
  intros HA HB.
  assert (Hkeys : Forall (fun key => is_Some (B !! key)) (Dict.Keys B)).
  { apply Forall_forall. intros key. apply Keys_spec. }
  unfold Options.merge, Options.load. rewrite HB. simpl.
  destruct (decide (this = other)) as [<-|Hne].
  - assert (A = B) as -> by congruence.
    rewrite (merge_loop_alias this B _ h HB Hkeys).
    rewrite map_union_idemp, insert_id by exact HB. reflexivity.
  - rewrite (merge_loop_distinct this other B _ Hne Hkeys A h HA HB).
    rewrite fold_merge_dict_union. reflexivity.
Qed.

(** X8.  Merging is idempotent: a second [merge] of the same source
    changes nothing.  After a merge the destination holds exactly the
    keys of both dictionaries and still contains everything it held;
    merging an empty source changes nothing, and merging into an empty
    destination copies the source. *)
Theorem Options_merge_idempotent (h : OptionsStore) (this other : nat)
        (A B : Dictionary) :
  h !! this = Some A ->
  h !! other = Some B ->
  exists (h1 : OptionsStore) (A1 : Dictionary),
    Options.merge this other h = OK h1 /\
    Options.merge this other h1 = OK h1 /\
    h1 !! this = Some A1 /\
    key_set A1 = key_set A ∪ key_set B /\
    A ⊆ A1 /\
    (B = ∅ -> h1 = h) /\
    (A = ∅ -> A1 = B).
Proof.
  intros HA HB. exists (<[this := A ∪ B]> h), (A ∪ B).
  split; [apply merge_result; assumption|].
  split; [|split; [apply lookup_insert_eq|split; [|split; [|split]]]].
  - destruct (decide (this = other)) as [<-|Hne].
    + assert (A = B) as -> by congruence.
      rewrite map_union_idemp, insert_id by exact HB.
      rewrite (merge_result h this this B B HB HB).
      rewrite map_union_idemp, insert_id by exact HB. reflexivity.
    + rewrite (merge_result _ this other (A ∪ B) B).
      * rewrite insert_insert_eq. f_equal. f_equal.
        rewrite <- (assoc_L (∪)), map_union_idemp. reflexivity.
      * apply lookup_insert_eq.
      * rewrite lookup_insert_ne by exact Hne. exact HB.
  - unfold key_set. apply dom_union_L.
  - apply map_union_subseteq_l.
  - intros ->. rewrite (right_id_L ∅ (∪)). apply insert_id, HA.
  - intros ->. apply (left_id_L ∅ (∪)).
Qed.

Lemma Options_merge_idempotent_witness :
  let A : Dictionary := <["lr" := DV_Float f_0_1]> ∅ in
  let B : Dictionary := <["lr" := DV_Float f_0_2]> (<["seed" := DV_Int 42]> ∅) in
  let h : OptionsStore := <[0%nat := A]> (<[1%nat := B]> ∅) in
  exists h1 : OptionsStore,
    Options.merge 0 1 h = OK h1 /\ Options.merge 0 1 h1 = OK h1.
Proof.
  intros A B h.
  destruct (Options_merge_idempotent h 0 1 A B) as (h1 & A1 & H1 & H2 & _);
    [reflexivity|reflexivity|].
  exists h1. split; [exact H1|exact H2].
Defined.

(* ===================================================================== *)
(** ** Sums of a vector of expressions *)

Section Plus.
Context `{Engine} `{EngineOps} `{LibC}.

Lemma plus_range_unfold (fuel : nat) (xs : list Expr) :
  ops.plus_range fuel xs
  = let mid := (length xs / 2)%nat in
    if (mid =? 0)%nat then
      match xs with
      | b :: _ => OK b
      | [] => Raise (EngineFault "dereferenced the end of a range")
      end
    else
      match fuel with
      | O => Raise (EngineFault "recursion deeper than the range is long")
      | S fuel' =>
          do l <- ops.plus_range fuel' (take mid xs);
          do r <- ops.plus_range fuel' (drop mid xs);
          marian.add l r
      end.
Proof. destruct fuel; reflexivity. Qed.

Lemma fold_left_split {M : Type} (op : M -> M -> M) :
  (forall a b c, op a (op b c) = op (op a b) c) ->
  forall (l1 l2 : list M) (a z : M),
    fold_left op (l1 ++ z :: l2) a
    = op (fold_left op l1 a) (fold_left op l2 z).
Proof.
  intros Hassoc l1 l2 a z. rewrite fold_left_app. cbn [fold_left].
  generalize (fold_left op l1 a) as b. revert z.
  induction l2 as [|y l2 IH]; intros z b; cbn [fold_left]; [reflexivity|].
  rewrite <- Hassoc. apply IH.
Qed.

Lemma plus_range_sum {M : Type} (op : M -> M -> M) (ev : Node -> M) :
  (forall a b c, op a (op b c) = op (op a b) c) ->
  (forall a b, ev (Plus a b) = op (ev a) (ev b)) ->
  forall (fuel : nat) (rest : list Node) (x : Node),
    (length rest <= fuel)%nat ->
    exists t, ops.plus_range fuel (Some x :: map Some rest) = OK (Some t) /\
              ev t = fold_left op (map ev rest) (ev x).
Proof.
  intros Hassoc Hhom. induction fuel as [|fuel IH]; intros rest x Hlen.
  - destruct rest; [|simpl in Hlen; lia]. exists x. split; reflexivity.
  - destruct rest as [|y rest]; [exists x; split; reflexivity|].
    rewrite plus_range_unfold.
    set (l := x :: y :: rest).
    change (Some x :: map Some (y :: rest)) with (Some <$> l).
    rewrite length_fmap.
    set (m := (length l / 2)%nat).
    assert (Hl : length l = S (S (length rest))) by reflexivity.
    assert (Hm : (1 <= m /\ m < length l)%nat).
    { unfold m. rewrite Hl. split.
      - apply Nat.div_le_lower_bound; lia.
      - apply Nat.div_lt; lia. }
    cbv zeta.
    assert (Hm0 : (m =? 0)%nat = false) by (apply Nat.eqb_neq; lia).
    rewrite Hm0, <- fmap_take, <- fmap_drop.
    assert (Htake : take m l = x :: take (m - 1) (y :: rest)).
    { unfold l. destruct m as [|m']; [lia|].
      simpl. rewrite Nat.sub_0_r. reflexivity. }
    destruct (drop m l) as [|z r2] eqn:Hdrop.
    { apply (f_equal length) in Hdrop. rewrite length_drop in Hdrop.
      simpl in Hdrop. lia. }
    assert (Hlen2 : length r2 = (length l - m - 1)%nat).
    { apply (f_equal length) in Hdrop. rewrite length_drop in Hdrop.
      simpl in Hdrop. lia. }
    assert (Hhalf : (length l <= 2 * m + 1)%nat).
    { unfold m. pose proof (Nat.div_mod_eq (length l) 2) as Hdm.
      pose proof (Nat.mod_upper_bound (length l) 2). lia. }
    simpl in Hlen.
    destruct (IH (take (m - 1) (y :: rest)) x) as (tl & Htl & Hevl).
    { rewrite length_take. simpl. lia. }
    destruct (IH r2 z) as (tr & Htr & Hevr).
    { lia. }
    rewrite Htake.
    change (Some <$> x :: take (m - 1) (y :: rest))
      with (Some x :: map Some (take (m - 1) (y :: rest))).
    rewrite Htl. cbn [bind].
    change (Some <$> z :: r2) with (Some z :: map Some r2).
    rewrite Htr. cbn [bind].
    exists (Plus tl tr). split; [reflexivity|].
    rewrite Hhom, Hevl, Hevr, <- fold_left_split by exact Hassoc.
    rewrite <- map_cons, <- map_app.
    change (fold_left op (map ev (take (m - 1) (y :: rest) ++ z :: r2)) (ev x))
      with (fold_left op (map ev (y :: rest)) (ev x)) || idtac.
    f_equal. f_equal.
    pose proof (take_drop m l) as Htd. rewrite Htake, Hdrop in Htd.
    unfold l in Htd. simpl in Htd. injection Htd as Htd. exact Htd.
Qed.

Lemma summands_Plus (a b : Node) :
  summands (Plus a b) = summands a ++ summands b.
Proof. reflexivity. Qed.
End Plus.

(** X9.  [plus] of a non-empty vector of expressions builds one tree of
    [Plus] nodes over all of them, in order: under every reading [ev] of
    nodes into a type with an associative operation that [Plus] maps
    to, the tree reads as the operands combined left to right.  The
    overloads of [logit], [swish], [tanh] and [relu] on a vector apply
    their operator to that tree. *)
Theorem plus_sums_operands `{EngineOps} {M : Type}
        (op : M -> M -> M) (ev : Node -> M) (x : Node) (rest : list Node) :
  (forall a b c, op a (op b c) = op (op a b) c) ->
  (forall a b, ev (Plus a b) = op (ev a) (ev b)) ->
  exists t,
    ops.plus (Some x :: map Some rest) = OK (Some t) /\
    ev t = fold_left op (map ev rest) (ev x) /\
    ops.logit_vec (Some x :: map Some rest) = OK (Some (CNTK_Sigmoid t)) /\
    ops.swish_vec (Some x :: map Some rest)
    = OK (Some (ElementTimes t (CNTK_Sigmoid t))) /\
    ops.tanh_vec (Some x :: map Some rest) = OK (Some (CNTK_Tanh t "")) /\
    ops.relu_vec (Some x :: map Some rest) = OK (Some (CNTK_ReLU t)).
Proof.
  intros Hassoc Hhom.
  destruct (plus_range_sum op ev Hassoc Hhom (S (length rest)) rest x)
    as (t & Ht & Hev); [lia|].
  assert (Hplus : ops.plus (Some x :: map Some rest) = OK (Some t)).
  { unfold ops.plus. cbn [length]. rewrite length_map. exact Ht. }
  exists t. split; [exact Hplus|]. split; [exact Hev|].
  unfold ops.logit_vec, ops.swish_vec, ops.tanh_vec, ops.relu_vec.
  rewrite Hplus. repeat split.
Qed.

Lemma plus_sums_operands_witness :
  let a := ScalarNode F32.zero in
  let b := ScalarNode F32.one in
  let c := Plus a b in
  exists t,
    ops.plus [Some a; Some b; Some c] = OK (Some t) /\
    summands t = [a; b; a; b] /\
    @ops.logit_vec reference_ops [Some a; Some b; Some c]
    = OK (Some (@CNTK_Sigmoid reference_ops t)) /\
    @ops.swish_vec reference_ops [Some a; Some b; Some c]
    = OK (Some (ElementTimes t (@CNTK_Sigmoid reference_ops t))) /\
    @ops.tanh_vec reference_ops [Some a; Some b; Some c]
    = OK (Some (@CNTK_Tanh reference_ops t "")) /\
    @ops.relu_vec reference_ops [Some a; Some b; Some c]
    = OK (Some (@CNTK_ReLU reference_ops t)).
Proof.
  intros a b c.
  exact (@plus_sums_operands reference_ops
           (list Node) (@app Node) summands a [b; c]
           (@app_assoc Node) summands_Plus).
Defined.

(* ===================================================================== *)
(** ** Operators that take an axis *)

Section AxisOperators.
Context `{Engine} `{EngineOps}.

Lemma ToCNTKAxis_rank_zero (a : Z) :
  is_int a ->
  mappers.ToCNTKAxis_rank 0 a
  = Raise (InvalidArgument "marian::ToCNTKAxis: axis out of range").
Proof.
  intros Ha. unfold mappers.ToCNTKAxis_rank.
  destruct (a <? 0) eqn:Hneg.
  - rewrite Z.add_0_r.
    replace (to_size_t (to_size_t a)) with (to_size_t a)
      by (unfold to_size_t; rewrite Z.mod_mod by lia; reflexivity).
    rewrite to_int_to_size_t, to_int_small by exact Ha.
    rewrite Hneg. reflexivity.
  - rewrite Hneg. cbn [orb].
    pose proof (to_size_t_range a) as Hr. unfold is_size_t in Hr.
    assert (Hle : (0 <=? to_size_t a) = true) by (apply Z.leb_le; lia).
    rewrite Hle. reflexivity.
Qed.

Lemma ToCNTKAxis_decided (a : Node) (ax : Z) :
  let r := Rank (marian.Node_Shape a) in
  0 <= r <= 2 ^ 31 -> is_int ax ->
  (axis_in_range r ax /\
   marian.ToCNTKAxis (Some a) ax
   = OK (StaticAxis (r - 1 - normalize_axis r ax))) \/
  (~ axis_in_range r ax /\
   marian.ToCNTKAxis (Some a) ax
   = Raise (InvalidArgument "marian::ToCNTKAxis: axis out of range")).
Proof.
  intros r Hr Hax. unfold marian.ToCNTKAxis.
  cbn [marian.Expr_Shape marian.deref bind]. fold r.
  destruct (decide (r = 0)) as [Hzero|Hpos].
  - right. rewrite Hzero. split; [|apply ToCNTKAxis_rank_zero, Hax].
    unfold axis_in_range. lia.
  - apply ToCNTKAxis_rank_decided; [lia|exact Hax].
Qed.

Lemma Transform_deref (ns : list Node) :
  Transform marian.deref (map Some ns) = OK ns.
Proof.
  induction ns as [|n ns IH]; [reflexivity|].
  cbn [map Transform marian.deref bind]. rewrite IH. reflexivity.
Qed.
End AxisOperators.

(** X10.  An axis index outside the operand's rank, which every index
    is for an operand of rank 0, stops every operator that takes one
    with the out-of-range error, whatever the other operands are, empty
    ones included: [sum], [mean], [scalar_product], [step],
    [concatenate] (which reads the rank of its first operand), [repeat]
    with a count of 2 or more, [weighted_average] and [transpose]. *)
Theorem axis_out_of_range_rejected `{Engine} `{EngineOps}
        (a : Node) (ax : Z) :
  let r := Rank (marian.Node_Shape a) in
  let err : result Expr :=
    Raise (InvalidArgument "marian::ToCNTKAxis: axis out of range") in
  0 <= r <= 2 ^ 31 -> is_int ax -> ~ axis_in_range r ax ->
  marian.sum (Some a) ax = err /\
  marian.mean (Some a) ax = err /\
  (forall b : Expr, ops.scalar_product (Some a) b ax = err) /\
  (forall s : Z, ops.step (Some a) s ax = err) /\
  (forall rest : list Expr, ops.concatenate (Some a :: rest) ax = err) /\
  (forall repeats : Z, 2 <= repeats -> ops.repeat (Some a) repeats ax = err) /\
  (forall w : Expr, ops.weighted_average (Some a) w ax = err) /\
  (forall axes : list Z,
      Forall is_int axes -> ax ∈ axes -> ops.transpose (Some a) axes = err).
Proof.
  intros r err Hr Hax Hout.
  assert (Hraise : marian.ToCNTKAxis (Some a) ax
                   = Raise (InvalidArgument
                              "marian::ToCNTKAxis: axis out of range")).
  { destruct (ToCNTKAxis_decided a ax Hr Hax) as [[Hin _]|[_ Hr']];
      [contradiction|exact Hr']. }
  unfold marian.sum, marian.mean, ops.scalar_product, ops.step,
    ops.concatenate, ops.weighted_average.
  rewrite Hraise. repeat (split; [reflexivity || (intros; reflexivity)|]).
  split; [|split; [reflexivity|]].
  - intros repeats Hrep. unfold ops.repeat.
    assert (Hne : (repeats =? 1) = false) by (apply Z.eqb_neq; lia).
    rewrite Hne.
    destruct (Z.to_nat repeats) as [|k] eqn:Hk; [lia|].
    cbn [replicate]. unfold ops.concatenate. rewrite Hraise. reflexivity.
  - intros axes Hint Hin. unfold ops.transpose, ops.ToCNTKAxes.
    rewrite (Transform_raise _
               (InvalidArgument "marian::ToCNTKAxis: axis out of range"));
      [reflexivity| |].
    + apply Forall_forall. intros b Hb.
      destruct (ToCNTKAxis_decided a b Hr) as [[_ Hok]|[_ Hr']].
      * eapply Forall_forall in Hint; eauto.
      * left. rewrite Hok. reflexivity.
      * right. exact Hr'.
    + apply Exists_exists. exists ax. split; [exact Hin|exact Hraise].
Qed.

Lemma axis_out_of_range_rejected_witness :
  let a := ConstantNode [4; 3; 2] [] false in
  let err : result Expr :=
    Raise (InvalidArgument "marian::ToCNTKAxis: axis out of range") in
  @marian.sum reference.engine (Some a) 3 = err /\
  @marian.mean reference.engine (Some a) 3 = err /\
  @ops.step reference.engine reference_ops (Some a) 0 3 = err /\
  @ops.repeat reference.engine reference_ops (Some a) 2 3 = err /\
  @ops.weighted_average reference.engine (Some a) None 3 = err /\
  @ops.transpose reference.engine reference_ops (Some a) [0; 3; 1] = err /\
  @marian.sum reference.engine (Some (ScalarNode F32.one)) 0 = err.
Proof.
  intros a err.
  destruct (@axis_out_of_range_rejected reference.engine reference_ops a 3)
    as (H1 & H2 & _ & H4 & _ & H6 & H7 & H8).
  - vm_compute. split; discriminate.
  - vm_compute. split; discriminate.
  - unfold axis_in_range, normalize_axis. vm_compute.
    intros [_ Hlt]. discriminate.
  - destruct (@axis_out_of_range_rejected reference.engine reference_ops
                (ScalarNode F32.one) 0) as (H0 & _).
    + vm_compute. split; discriminate.
    + vm_compute. split; discriminate.
    + unfold axis_in_range, normalize_axis. vm_compute.
      intros [_ Hlt]. discriminate.
    + split; [exact H1|]. split; [exact H2|]. split; [apply H4|].
      split; [apply H6; lia|]. split; [apply H7|]. split; [|exact H0].
      apply H8.
      * repeat (constructor; [vm_compute; split; discriminate|]). constructor.
      * apply elem_of_cons. right. apply elem_of_cons. left. reflexivity.
Defined.

(** X11.  [repeat] with a count of 1 returns its operand untouched,
    without looking at the axis, so neither an empty expression nor an
    axis out of range is noticed; with a count of 2 or more and an axis
    within the rank it splices that many copies of the operand along the
    reversed axis; with a count of 0 it never returns a node. *)
Theorem repeat_spec `{Engine} `{EngineOps} (a : Node) (repeats ax : Z) :
  let r := Rank (marian.Node_Shape a) in
  1 <= r <= 2 ^ 31 -> is_int ax -> axis_in_range r ax -> 2 <= repeats ->
  (forall (x : Expr) (ax' : Z), ops.repeat x 1 ax' = OK x) /\
  ops.repeat (Some a) repeats ax
  = OK (Some (CNTK_Splice (replicate (Z.to_nat repeats) a)
                          (StaticAxis (r - 1 - normalize_axis r ax)))) /\
  (forall (x : Expr) (ax' : Z), is_OK (ops.repeat x 0 ax') = false).
Proof.
  intros r Hr Hax Hin Hrep. split; [reflexivity|]. split; [|reflexivity].
  unfold ops.repeat.
  assert (Hne : (repeats =? 1) = false) by (apply Z.eqb_neq; lia).
  rewrite Hne.
  assert (Hr0 : 0 <= r <= 2 ^ 31) by lia.
  destruct (ToCNTKAxis_decided a ax Hr0 Hax) as [[_ Hok]|[Hout _]];
    [|contradiction].
  destruct (Z.to_nat repeats) as [|k] eqn:Hk; [lia|].
  unfold ops.concatenate. cbn [replicate]. rewrite Hok. cbn [bind].
  change (Some a :: replicate k (Some a)) with (replicate (S k) (Some a)).
  replace (replicate (S k) (Some a)) with (map Some (replicate (S k) a))
    by (change (map Some) with (fmap (M:=list) (@Some Node));
        apply fmap_replicate).
  rewrite Transform_deref. reflexivity.
Qed.

Lemma repeat_spec_witness :
  let a := ConstantNode [4; 3; 2] [] false in
  @ops.repeat reference.engine reference_ops (Some a) 3 (-1)
  = OK (Some (@CNTK_Splice reference_ops [a; a; a] (StaticAxis 0))) /\
  @ops.repeat reference.engine reference_ops None 1 7 = OK None.
Proof.
  intros a.
  destruct (@repeat_spec reference.engine reference_ops a 3 (-1))
    as (H1 & H2 & _).
  - vm_compute. split; discriminate.
  - vm_compute. split; discriminate.
  - unfold axis_in_range, normalize_axis. vm_compute.
    split; [discriminate|reflexivity].
  - lia.
  - split; [exact H2|apply H1].
Defined.

(* ===================================================================== *)
(** ** Reshaping *)

(** X12.  [flatten] and [flatten_2d] keep the number of elements of
    their operand: [flatten] always, and [flatten_2d] whenever the first
    engine extent is not 0 and divides the element count, which it does
    unless the count has wrapped around in [size_t]. *)
Theorem flatten_keeps_elements `{Engine} (a : Node) (dimI : Z)
        (rest : NDShape) :
  marian.Node_Shape a = dimI :: rest -> 0 < dimI < 2 ^ 64 ->
  (dimI | TotalSize (marian.Node_Shape a)) ->
  (exists t, marian.flatten (Some a) = OK (Some t) /\
             Rank (marian.Node_Shape t) = 1 /\
             TotalSize (marian.Node_Shape t)
             = TotalSize (marian.Node_Shape a)) /\
  (exists t, ops.flatten_2d (Some a) = OK (Some t) /\
             Rank (marian.Node_Shape t) = 2 /\
             NDShape_at (marian.Node_Shape t) 0 = OK dimI /\
             TotalSize (marian.Node_Shape t)
             = TotalSize (marian.Node_Shape a)).
Proof.
  intros Hshape HI Hdiv.
  pose proof (to_size_t_range (product (marian.Node_Shape a))) as Hrange.
  rewrite <- TotalSize_product in Hrange.
  split.
  - eexists. split; [reflexivity|]. split; [reflexivity|].
    cbn [marian.Node_Shape]. rewrite !TotalSize_product.
    cbn [product fold_right]. rewrite Z.mul_1_r.
    rewrite <- TotalSize_product.
    apply to_size_t_small. exact Hrange.
  - unfold ops.flatten_2d. cbn [marian.deref bind]. rewrite Hshape.
    assert (Hne : (dimI =? 0) = false) by (apply Z.eqb_neq; lia).
    rewrite Hne. rewrite <- Hshape.
    eexists. split; [reflexivity|]. split; [reflexivity|]. split.
    + cbn [marian.Node_Shape]. unfold NDShape_at. simpl.
      reflexivity.
    + cbn [marian.Node_Shape].
      rewrite (TotalSize_product [_; _]).
      cbn [product fold_right]. rewrite Z.mul_1_r.
      destruct Hdiv as [q Hq]. rewrite Hq.
      rewrite Z.div_mul by lia.
      rewrite (Z.mul_comm dimI q), <- Hq.
      apply to_size_t_small. exact Hrange.
Qed.

Lemma flatten_keeps_elements_witness :
  let a := ConstantNode [4; 3; 2] [] false in
  (exists t, @marian.flatten reference.engine (Some a) = OK (Some t) /\
             TotalSize (@marian.Node_Shape reference.engine t) = 24) /\
  (exists t, @ops.flatten_2d reference.engine (Some a) = OK (Some t) /\
             NDShape_at (@marian.Node_Shape reference.engine t) 0 = OK 4 /\
             TotalSize (@marian.Node_Shape reference.engine t) = 24).
Proof.
  intros a.
  destruct (@flatten_keeps_elements reference.engine a 4 [3; 2])
    as [(t1 & H1 & _ & E1) (t2 & H2 & _ & D2 & E2)].
  - reflexivity.
  - lia.
  - exists 6. reflexivity.
  - split; [exists t1|exists t2]; repeat split; assumption.
Defined.


(* ===================================================================== *)
(** ** Constants *)

Lemma Constant_from_vector (viewShape : NDShape) (data : list float)
      (isVolatile : bool) :
  marian.Constant viewShape (inits.WrappedVectorInitializer data) isVolatile
  = if to_size_t (Z.of_nat (length data)) =? TotalSize viewShape
    then OK (Some (ConstantNode viewShape data isVolatile))
    else Raise (InvalidArgument
                  "marian::constant: vector size does not match viewShape").
Proof.
  unfold marian.Constant, inits.WrappedVectorInitializer, Dict.Contains,
    Dict.at_.
  rewrite lookup_insert_eq, bool_decide_eq_true_2 by eauto.
  cbn [bind Dict.Value_NDArrayView view_shape view_data].
  replace (TotalSize [to_size_t (Z.of_nat (length data))])
    with (to_size_t (Z.of_nat (length data))).
  - destruct (_ =? _); reflexivity.
  - unfold TotalSize. cbn [fold_left]. rewrite Z.mul_1_l.
    unfold to_size_t. rewrite Z.mod_mod by lia. reflexivity.
Qed.

Lemma Constant_without_vector (viewShape : NDShape) (init : Dictionary)
      (isVolatile : bool) :
  init !! "from_vector" = None ->
  marian.Constant viewShape init isVolatile
  = Raise (InvalidArgument
             "BUGBUG: no public Constant() from ParameterInitializer?").
Proof.
  intros Hnone. unfold marian.Constant, Dict.Contains.
  rewrite Hnone, bool_decide_eq_false_2 by (intros [? ?]; discriminate).
  reflexivity.
Qed.

(** X13.  A constant can only be made from a vector: the initializer
    built by [from_vector] gives a constant node holding the data when
    the vector has as many elements as the shape, and the size error
    otherwise; every initializer without the "from_vector" entry, among
    them [zeros], [ones] and [from_value], is refused.  A constant made
    through a graph is volatile exactly when the graph was last set to
    inference, and one made without a graph never is. *)
Theorem Constant_only_from_fitting_vector `{Engine} (npShape : Shape)
        (isVolatile : bool) (data : list float) (init : Dictionary)
        (g : marian.ExpressionGraph) :
  Z.of_nat (length data) < 2 ^ 64 ->
  init !! "from_vector" = None ->
  let viewShape := mappers.ToNDShape npShape in
  let refused : result Expr :=
    Raise (InvalidArgument
             "BUGBUG: no public Constant() from ParameterInitializer?") in
  marian.Constant_np npShape (inits.from_vector data) isVolatile
  = (if Z.of_nat (length data) =? TotalSize viewShape
     then OK (Some (ConstantNode viewShape data isVolatile))
     else Raise (InvalidArgument
                   "marian::constant: vector size does not match viewShape")) /\
  marian.Constant_np npShape init isVolatile = refused /\
  marian.Constant_np npShape inits.zeros isVolatile = refused /\
  marian.Constant_np npShape inits.ones isVolatile = refused /\
  (forall value : float,
      marian.Constant_np npShape (inits.from_value value) isVolatile
      = refused) /\
  marian.graph_constant (marian.setInference isVolatile g) npShape
                        (inits.from_vector data)
  = marian.Constant_np npShape (inits.from_vector data) isVolatile /\
  marian.constant npShape (inits.from_vector data)
  = marian.Constant_np npShape (inits.from_vector data) false.
Proof.
  intros Hlen Hnone viewShape refused.
  split.
  { unfold marian.Constant_np, inits.from_vector.
    rewrite Constant_from_vector. fold viewShape.
    rewrite to_size_t_small by (unfold is_size_t, SIZE_MAX; lia).
    reflexivity. }
  split; [apply Constant_without_vector, Hnone|].
  repeat split; try (intros value); apply Constant_without_vector;
    reflexivity.
Qed.

Lemma Constant_only_from_fitting_vector_witness :
  marian.Constant_np [2; 3] (inits.from_vector (replicate 6 F32.one)) true
  = OK (Some (ConstantNode [3; 2] (replicate 6 F32.one) true)) /\
  marian.Constant_np [2; 3] (inits.from_vector (replicate 5 F32.one)) true
  = Raise (InvalidArgument
             "marian::constant: vector size does not match viewShape") /\
  marian.Constant_np [2; 3] inits.zeros true
  = Raise (InvalidArgument
             "BUGBUG: no public Constant() from ParameterInitializer?").
Proof.
  destruct (@Constant_only_from_fitting_vector reference.engine [2; 3] true
              (replicate 6 F32.one) ∅ marian.ExpressionGraph_new)
    as (H1 & _ & H3 & _); [simpl; lia|reflexivity|].
  destruct (@Constant_only_from_fitting_vector reference.engine [2; 3] true
              (replicate 5 F32.one) ∅ marian.ExpressionGraph_new)
    as (H2 & _); [simpl; lia|reflexivity|].
  split; [exact H1|]. split; [exact H2|exact H3].
Defined.

(* ===================================================================== *)
(** ** Rows of a matrix *)

(** X14.  [rows] refuses an operand that is not a matrix, and on a
    matrix it always gets through: the constant it makes of the indices
    has the size of its shape by construction, so the product of the
    matrix with the one-hot encoding of the indices over the last engine
    extent is built for every index vector. *)
Theorem rows_spec `{Engine} `{EngineOps} (a : Node) (indices : list Z) :
  Z.of_nat (length indices) < 2 ^ 64 ->
  (Rank (marian.Node_Shape a) <> 2 ->
   ops.rows (Some a) indices
   = Raise (InvalidArgument "rows: data must be a matrix")) /\
  (forall d0 d1 : Z,
      marian.Node_Shape a = [d0; d1] ->
      ops.rows (Some a) indices
      = OK (Some (CNTK_Times a
                    (OneHotOp (ConstantNode [Z.of_nat (length indices)]
                                            (map F32.of_Z indices) false)
                              d1 true (StaticAxis 0))))).
Proof.
  intros Hlen. split.
  - intros Hrank. unfold ops.rows. cbn [marian.deref bind].
    assert (Hne : (Rank (marian.Node_Shape a) =? 2) = false)
      by (apply Z.eqb_neq; exact Hrank).
    rewrite Hne. reflexivity.
  - intros d0 d1 Hshape. unfold ops.rows. cbn [marian.deref bind].
    rewrite Hshape. cbn [Rank length last negb]. simpl (_ =? 2).
    cbn [negb last].
    rewrite Constant_from_vector, length_map.
    replace (TotalSize [to_size_t (Z.of_nat (length indices))])
      with (to_size_t (Z.of_nat (length indices))).
    + rewrite Z.eqb_refl. cbn [bind marian.deref].
      rewrite to_size_t_small by (unfold is_size_t, SIZE_MAX; lia).
      reflexivity.
    + unfold TotalSize. cbn [fold_left]. rewrite Z.mul_1_l.
      unfold to_size_t. rewrite Z.mod_mod by lia. reflexivity.
Qed.

Lemma rows_spec_witness :
  let a := ConstantNode [5; 7] [] false in
  @ops.rows reference.engine reference_ops (Some a) [0; 3]
  = OK (Some (@CNTK_Times reference_ops a
                (OneHotOp (ConstantNode [2] [F32.of_Z 0; F32.of_Z 3] false)
                          7 true (StaticAxis 0)))) /\
  @ops.rows reference.engine reference_ops
     (Some (ConstantNode [5; 7; 2] [] false)) [0; 3]
  = Raise (InvalidArgument "rows: data must be a matrix").
Proof.
  intros a.
  destruct (@rows_spec reference.engine reference_ops a [0; 3])
    as [_ Hrows]; [simpl; lia|].
  destruct (@rows_spec reference.engine reference_ops
              (ConstantNode [5; 7; 2] [] false) [0; 3])
    as [Hraise _]; [simpl; lia|].
  split; [apply (Hrows 5 7); reflexivity|].
  apply Hraise. vm_compute. discriminate.
Defined.

(* ===================================================================== *)
(** ** Dropout on an expression *)

Section DropoutOn.
Context `{Engine} `{LibC}.

Lemma to_int_mul_l (x d : Z) : to_int (to_int x * d) = to_int (x * d).
Proof.
  unfold to_int. f_equal.
  rewrite (Z.mod_eq (x + 2 ^ 31) (2 ^ 32)) by lia.
  replace ((x + 2 ^ 31 - 2 ^ 32 * ((x + 2 ^ 31) / 2 ^ 32) - 2 ^ 31) * d
           + 2 ^ 31)
    with (x * d + 2 ^ 31 + (- ((x + 2 ^ 31) / 2 ^ 32) * d) * 2 ^ 32) by lia.
  apply Z_mod_plus_full.
Qed.

Lemma Shape_elements_fold (l : Shape) (acc : Z) :
  fold_left (fun acc d => to_int (acc * d)) l (to_int acc)
  = to_int (acc * product l).
Proof.
  revert acc. induction l as [|d l IH]; intros acc; cbn [fold_left product fold_right].
  - rewrite Z.mul_1_r. reflexivity.
  - rewrite to_int_mul_l, IH. apply (f_equal to_int). unfold product. ring.
Qed.

Lemma Shape_elements_product (s : Shape) :
  Shape_elements s = to_int (product s).
Proof.
  unfold Shape_elements. change 1 with (to_int 1) at 1.
  rewrite Shape_elements_fold. apply (f_equal to_int). ring.
Qed.

Lemma elements_ToNDShape (s : Shape) :
  ShapeProxy.elements (mappers.ToNDShape s) = Shape_elements s.
Proof.
  unfold ShapeProxy.elements, mappers.ToNDShape.
  rewrite TotalSize_product, product_to_size_t, to_int_to_size_t,
    product_rev, Shape_elements_product.
  reflexivity.
Qed.

Lemma dropout_runtime (x : Node) (dropProb : float) (rt : marian.Runtime) :
  snd (marian.dropout (Some x) dropProb rt)
  = snd (marian.DropoutMask
           (to_size_t (ShapeProxy.elements (marian.Node_Shape x)))
           dropProb rt).
Proof.
  unfold marian.dropout, marian.DropoutMask_Proxy.
  cbn [marian.Expr_Shape marian.deref bind].
  destruct (marian.DropoutMask _ dropProb rt) as [mask rt']. reflexivity.
Qed.
End DropoutOn.

(** X15.  [dropout(x, dropProb)] on an operand of fewer than 2^31
    elements multiplies it with a constant of its own shape holding one
    mask value per element, and moves the seed counter by one; on an
    empty expression it fails before a mask is drawn and leaves the
    counter alone.  The two mask builders of the graph agree: a mask
    asked for by a [Shape] is the mask asked for by the engine shape it
    converts to. *)
Theorem dropout_multiplies_by_mask `{Engine} `{LibC} (x : Node)
        (dropProb : float) (rt : marian.Runtime) :
  let shape := marian.Node_Shape x in
  TotalSize shape < 2 ^ 31 ->
  let mask := fst (marian.DropoutMask (TotalSize shape) dropProb rt) in
  fst (marian.dropout (Some x) dropProb rt)
  = OK (Some (ElementTimes x (ConstantNode shape mask false))) /\
  Z.of_nat (length mask) = TotalSize shape /\
  marian.seed (snd (marian.dropout (Some x) dropProb rt))
  = to_int (marian.seed rt + 1) /\
  marian.dropout None dropProb rt
  = (Raise (EngineFault "empty Variable"), rt) /\
  forall s : Shape,
    ops.graph_dropout_Shape dropProb s rt
    = ops.graph_dropout_Proxy dropProb (mappers.ToNDShape s) rt.
Proof.
  intros shape Hsmall mask.
  pose proof (to_size_t_range (product shape)) as Hrange.
  rewrite <- TotalSize_product in Hrange. fold shape in Hrange.
  unfold is_size_t in Hrange.
  assert (Hn : to_size_t (ShapeProxy.elements shape) = TotalSize shape).
  { unfold ShapeProxy.elements.
    rewrite to_int_small by (unfold is_int, INT_MIN, INT_MAX; lia).
    apply to_size_t_small. unfold is_size_t, SIZE_MAX. lia. }
  split; [|split; [|split; [|split]]].
  - rewrite dropout_result; fold shape; rewrite Hn; [reflexivity|].
    rewrite Z2Nat.id by lia.
    apply to_size_t_small. unfold is_size_t, SIZE_MAX. lia.
  - unfold mask.
    destruct (DropoutMask_values (TotalSize shape) dropProb rt) as [-> _].
    apply Z2Nat.id. lia.
  - rewrite dropout_runtime. fold shape. rewrite Hn.
    apply DropoutMask_seed.
  - reflexivity.
  - intros s. unfold ops.graph_dropout_Shape, ops.graph_dropout_Proxy,
      marian.DropoutMask_Shape, marian.DropoutMask_Proxy, marian.Constant_np.
    rewrite elements_ToNDShape. reflexivity.
Qed.

Lemma dropout_multiplies_by_mask_witness :
  let x := ConstantNode [2; 3] [] false in
  let rt := @Spec.process_start reference.msvcrt 0 in
  let r := @marian.dropout reference.engine reference.msvcrt (Some x) f_0_2 rt in
  (exists mask, fst r = OK (Some (ElementTimes x (ConstantNode [2; 3] mask false)))
                /\ Z.of_nat (length mask) = 6) /\
  marian.seed (snd r) = 2.
Proof.
  intros x rt r.
  destruct (@dropout_multiplies_by_mask reference.engine reference.msvcrt
              x f_0_2 rt) as (H1 & H2 & H3 & _).
  - vm_compute. reflexivity.
  - split; [|exact H3]. eexists. split; [exact H1|exact H2].
Defined.

(* ===================================================================== *)
(** ** Invariants of the graph and the optimizer *)

Section GraphInvariants.
Context `{Engine}.

Lemma fold_alter_is_Some (f : ParameterHandle -> Tensor -> Tensor)
      (ps : list ParameterHandle) (vals : gmap nat Tensor) (k : nat) :
  is_Some (fold_left (fun v p => alter (f p) (p_uid p) v) ps vals !! k)
  <-> is_Some (vals !! k).
Proof.
  revert vals. induction ps as [|p ps IH]; intros vals; [reflexivity|].
  cbn [fold_left]. rewrite IH.
  destruct (decide (p_uid p = k)) as [->|Hne].
  - rewrite lookup_alter_eq. rewrite fmap_is_Some. reflexivity.
  - rewrite lookup_alter_ne by exact Hne. reflexivity.
Qed.

Lemma fold_alter_each (f : ParameterHandle -> Tensor -> Tensor)
      (ps : list ParameterHandle) (vals : gmap nat Tensor)
      (p : ParameterHandle) :
  NoDup (map p_uid ps) -> p ∈ ps ->
  fold_left (fun v q => alter (f q) (p_uid q) v) ps vals !! p_uid p
  = f p <$> vals !! p_uid p.
Proof.
  revert vals. induction ps as [|q ps IH]; intros vals Hnd Hin.
  - inversion Hin.
  - cbn [map] in Hnd. apply NoDup_cons in Hnd as [Hq Hnd].
    cbn [fold_left].
    apply elem_of_cons in Hin as [->|Hin].
    + assert (Hframe : forall (l : list ParameterHandle) (v : gmap nat Tensor),
                 p_uid q ∉ map p_uid l ->
                 fold_left (fun v q0 => alter (f q0) (p_uid q0) v) l v
                   !! p_uid q = v !! p_uid q).
      { induction l as [|r l IHl]; intros v Hno; [reflexivity|].
        cbn [fold_left]. cbn [map] in Hno.
        apply not_elem_of_cons in Hno as [Hr Hno].
        rewrite IHl by exact Hno.
        apply lookup_alter_ne. congruence. }
      rewrite Hframe by exact Hq. apply lookup_alter_eq.
    + rewrite IH by assumption.
      rewrite lookup_alter_ne; [reflexivity|].
      intros Heq. apply Hq. rewrite Heq.
      apply list_elem_of_fmap. exists p. split; [reflexivity|exact Hin].
Qed.

Lemma step_consistent (s : marian.Session) (c : marian.Call) :
  graph_consistent s -> graph_consistent (marian.step s c).
Proof.
  intros (Hnd & Hiff & Hsize & Hlive).
  destruct c as [name shape init fixed|b|root|]; cbn [marian.step].
  - destruct (marian.param _ _ _ _ _ _) as [[[x g] e]|] eqn:Hpar;
      [|repeat split; assumption || apply Hiff || apply Hlive; assumption].
    apply param_graph in Hpar
        as [(-> & -> & _)|(q & v & Hnew & Huid & -> & ->)].
    { repeat split; assumption || apply Hiff || apply Hlive; assumption. }
    unfold graph_consistent.
    cbn [marian.graph marian.engine marian.register marian.m_allParameters
           marian.m_allParametersMap marian.next_uid marian.values].
    split; [|split; [|split]].
    + rewrite map_app. apply NoDup_app. split; [exact Hnd|]. split.
      * intros u Hu Hu'. cbn [map] in Hu'.
        apply list_elem_of_singleton in Hu'. subst u.
        apply list_elem_of_fmap in Hu as (p & Hp & Hin).
        destruct (Hlive p Hin) as [Hlt _]. lia.
      * cbn [map]. apply NoDup_singleton.
    + intros p. rewrite elem_of_app, list_elem_of_singleton. split.
      * intros [Hin| ->].
        -- apply Hiff in Hin as [name' Hname'].
           exists name'. rewrite lookup_insert_ne; [exact Hname'|].
           intros ->. congruence.
        -- exists name. apply lookup_insert_eq.
      * intros [name' Hname'].
        destruct (decide (name = name')) as [<-|Hne].
        -- rewrite lookup_insert_eq in Hname'. right. congruence.
        -- rewrite lookup_insert_ne in Hname' by exact Hne.
           left. apply Hiff. eauto.
    + rewrite map_size_insert_None by exact Hnew.
      rewrite length_app. cbn [length]. lia.
    + intros p. rewrite elem_of_app, list_elem_of_singleton.
      intros [Hin| ->].
      * destruct (Hlive p Hin) as [Hlt Hsome]. split; [lia|].
        rewrite lookup_insert_ne by lia. exact Hsome.
      * split; [lia|]. rewrite Huid, lookup_insert_eq. eauto.
  - split; [exact Hnd|]. split; [exact Hiff|]. split; [exact Hsize|exact Hlive].
  - unfold marian.backward, marian.backprop.
    destruct (marian.deref root); cbn [bind];
      (split; [exact Hnd|]; split; [exact Hiff|];
       split; [exact Hsize|exact Hlive]).
  - unfold marian.update.
    destruct (marian.Learner_Update _ _ _) as [l' e'] eqn:HU.
    unfold marian.Learner_Update in HU. injection HU as _ <-.
    split; [exact Hnd|]. split; [exact Hiff|]. split; [exact Hsize|].
    intros p Hin. destruct (Hlive p Hin) as [Hlt Hsome].
    split; [exact Hlt|].
    cbn [marian.graph marian.engine marian.values].
    apply fold_alter_is_Some. exact Hsome.
Qed.

Lemma run_consistent (calls : list marian.Call) (s : marian.Session) :
  graph_consistent s -> graph_consistent (marian.run s calls).
Proof.
  revert s. induction calls as [|c calls IH]; intros s Hs; [exact Hs|].
  simpl. apply IH, step_consistent, Hs.
Qed.

Lemma new_consistent (o : marian.OptimizerWrapper) (e : marian.EngineState) :
  graph_consistent (marian.mkSession marian.ExpressionGraph_new o e).
Proof.
  split; [apply NoDup_nil; exact I|]. split; [|split; [reflexivity|]].
  - intros p. split.
    + intros Hin. inversion Hin.
    + intros [name Hname]. cbn in Hname. rewrite lookup_empty in Hname.
      discriminate.
  - intros p Hin. inversion Hin.
Qed.

(** a registered handle stays in the list *)
Lemma step_keeps_parameter (s : marian.Session) (c : marian.Call)
      (p : ParameterHandle) :
  p ∈ marian.m_allParameters (marian.graph s) ->
  p ∈ marian.m_allParameters (marian.graph (marian.step s c)).
Proof.
  intros Hin.
  destruct (step_graph_engine s c) as [[-> _]|(q & _ & -> & _)];
    [exact Hin|].
  apply elem_of_app. left. exact Hin.
Qed.

Lemma run_keeps_parameter (calls : list marian.Call) (s : marian.Session)
      (p : ParameterHandle) :
  p ∈ marian.m_allParameters (marian.graph s) ->
  p ∈ marian.m_allParameters (marian.graph (marian.run s calls)).
Proof.
  revert s. induction calls as [|c calls IH]; intros s Hin; [exact Hin|].
  simpl. apply IH, step_keeps_parameter, Hin.
Qed.

(** what a successful [param] returns is registered under the name *)
Lemma param_result (name : string) (shape : Shape) (init : Dictionary)
      (fixed : bool) (g g' : marian.ExpressionGraph)
      (e e' : marian.EngineState) (x : Expr) :
  marian.param name shape init fixed g e = OK (x, g', e') ->
  exists p, x = Some (ParameterNode p) /\
            marian.m_allParametersMap g' !! name = Some p.
Proof.
  unfold marian.param.
  destruct (marian.m_allParametersMap g !! name) as [p|] eqn:Hp.
  - destruct (negb _); [discriminate|].
    intros [= <- <- <-]. eauto.
  - intros Hpar.
    destruct (Dict.Contains init "from_vector").
    + destruct (Dict.at_ init "from_vector") as [v|]; [|discriminate].
      cbn [bind] in Hpar.
      destruct (Dict.Value_NDArrayView v) as [view|]; [|discriminate].
      cbn [bind] in Hpar. destruct (negb _); [discriminate|].
      injection Hpar as <- <- <-. eexists. split; [reflexivity|].
      apply lookup_insert_eq.
    + injection Hpar as <- <- <-. eexists. split; [reflexivity|].
      apply lookup_insert_eq.
Qed.

(** only [param] under that name registers a name *)
Lemma step_keeps_absent (s : marian.Session) (c : marian.Call)
      (name : string) :
  is_param_of name c = false ->
  marian.m_allParametersMap (marian.graph s) !! name = None ->
  marian.m_allParametersMap (marian.graph (marian.step s c)) !! name = None.
Proof.
  intros Hc Hnone.
  destruct c as [name' shape init fixed|b|root|]; cbn [marian.step].
  - cbn [is_param_of] in Hc. apply bool_decide_eq_false in Hc.
    destruct (marian.param _ _ _ _ _ _) as [[[x g] e]|] eqn:Hpar;
      [|exact Hnone].
    apply param_graph in Hpar
        as [(-> & -> & _)|(q & v & _ & _ & -> & ->)]; [exact Hnone|].
    cbn [marian.graph marian.register marian.m_allParametersMap].
    rewrite lookup_insert_ne by exact Hc. exact Hnone.
  - exact Hnone.
  - unfold marian.backward, marian.backprop.
    destruct (marian.deref root); exact Hnone.
  - unfold marian.update.
    destruct (marian.Learner_Update _ _ _). exact Hnone.
Qed.

Lemma run_keeps_absent (calls : list marian.Call) (s : marian.Session)
      (name : string) :
  Forall (fun c => is_param_of name c = false) calls ->
  marian.m_allParametersMap (marian.graph s) !! name = None ->
  marian.m_allParametersMap (marian.graph (marian.run s calls)) !! name = None.
Proof.
  intros Hcalls. revert s.
  induction Hcalls as [|c calls Hc _ IH]; intros s Hnone; [exact Hnone|].
  simpl. apply IH, step_keeps_absent; assumption.
Qed.

(** the learner counts its updates *)
Lemma step_learner (s : marian.Session) (c : marian.Call) (l : marian.Learner) :
  marian.m_learner (marian.optimizer s) = Some l ->
  exists l',
    marian.m_learner (marian.optimizer (marian.step s c)) = Some l' /\
    marian.l_parameters l' = marian.l_parameters l /\
    marian.l_algorithm l' = marian.l_algorithm l /\
    marian.l_eta l' = marian.l_eta l /\
    marian.l_updates l'
    = (marian.l_updates l + (if is_update c then 1 else 0))%nat.
Proof.
  intros Hl. destruct c as [name shape init fixed|b|root|];
    cbn [marian.step is_update].
  - destruct (marian.param _ _ _ _ _ _) as [[[x g] e]|];
      exists l; repeat split; try assumption; lia.
  - exists l. repeat split; try assumption; lia.
  - destruct (marian.backward _ _ _);
      exists l; repeat split; try assumption; lia.
  - unfold marian.update. rewrite Hl.
    unfold marian.Learner_Update.
    eexists. split; [reflexivity|]. cbn. repeat split. lia.
Qed.

Lemma run_learner (calls : list marian.Call) (s : marian.Session)
      (l : marian.Learner) :
  marian.m_learner (marian.optimizer s) = Some l ->
  exists l',
    marian.m_learner (marian.optimizer (marian.run s calls)) = Some l' /\
    marian.l_parameters l' = marian.l_parameters l /\
    marian.l_algorithm l' = marian.l_algorithm l /\
    marian.l_eta l' = marian.l_eta l /\
    marian.l_updates l' = (marian.l_updates l + updates calls)%nat.
Proof.
  revert s l. induction calls as [|c calls IH]; intros s l Hl.
  - exists l. repeat split; try assumption. unfold updates. simpl. lia.
  - destruct (step_learner s c l Hl) as (l1 & Hl1 & Hp1 & Ha1 & He1 & Hu1).
    destruct (IH _ _ Hl1) as (l2 & Hl2 & Hp2 & Ha2 & He2 & Hu2).
    exists l2. split; [exact Hl2|].
    repeat split; try congruence.
    rewrite Hu2, Hu1. unfold updates. rewrite filter_cons.
    destruct (decide (is_update c = true)) as [Hc|Hc];
      destruct c; cbn [is_update] in *;
      try discriminate; try congruence; cbn [length]; lia.
Qed.

(** an update through a bound learner *)
Lemma update_bound (s : marian.Session) (l : marian.Learner)
      (p : ParameterHandle) :
  marian.m_learner (marian.optimizer s) = Some l ->
  NoDup (map p_uid (marian.l_parameters l)) ->
  p ∈ marian.l_parameters l ->
  marian.values (marian.engine (marian.step s marian.CallUpdate)) !! p_uid p
  = ApplyGradient (marian.l_algorithm l) (marian.l_eta l) (marian.l_updates l)
                  p (marian.gradient_of
                       (marian.m_allGradients (marian.graph s)) p)
      <$> marian.values (marian.engine s) !! p_uid p.
Proof.
  intros Hl Hnd Hin. cbn [marian.step]. unfold marian.update. rewrite Hl.
  unfold marian.Learner_Update. cbn [marian.engine marian.values].
  apply (fold_alter_each
           (fun q => ApplyGradient (marian.l_algorithm l) (marian.l_eta l)
                       (marian.l_updates l) q
                       (marian.gradient_of
                          (marian.m_allGradients (marian.graph s)) q)));
    assumption.
Qed.
End GraphInvariants.

(** X16.  Whatever is called on a new graph, its two registries stay in
    step: the parameter list holds no handle twice, a handle is in the
    list exactly when some name maps to it, there are as many names as
    handles, and every handle was allocated by the engine and still has
    its tensor. *)
Theorem graph_registries_agree `{Engine} (o : marian.OptimizerWrapper)
        (e0 : marian.EngineState) (calls : list marian.Call) :
  let s := marian.run (marian.mkSession marian.ExpressionGraph_new o e0)
                      calls in
  let g := marian.graph s in
  NoDup (map p_uid (marian.m_allParameters g)) /\
  (forall p, p ∈ marian.m_allParameters g <->
             exists name, marian.m_allParametersMap g !! name = Some p) /\
  size (marian.m_allParametersMap g) = length (marian.m_allParameters g) /\
  (forall p, p ∈ marian.m_allParameters g ->
             (p_uid p < marian.next_uid (marian.engine s))%nat /\
             is_Some (marian.values (marian.engine s) !! p_uid p)).
Proof.
  intros s g. apply (run_consistent calls). apply new_consistent.
Qed.

(** X17.  [get] returns what [param] registered: after a successful
    [param] under a name, and whatever is called afterwards, [get] of
    that name is the expression [param] returned, which is never the
    empty one; and on a graph that never saw [param] under a name, [get]
    of it is the empty expression. *)
Theorem get_returns_registered `{Engine} (s0 : marian.Session)
        (name : string) (shape : Shape) (init : Dictionary) (fixed : bool)
        (x : Expr) (g1 : marian.ExpressionGraph) (e1 : marian.EngineState)
        (calls : list marian.Call) :
  marian.param name shape init fixed (marian.graph s0) (marian.engine s0)
  = OK (x, g1, e1) ->
  (x <> None /\
   marian.get name
     (marian.graph (marian.run (marian.mkSession g1 (marian.optimizer s0) e1)
                               calls)) = x) /\
  forall (other : string) (o : marian.OptimizerWrapper)
         (e0 : marian.EngineState),
    Forall (fun c => is_param_of other c = false) calls ->
    marian.get other
      (marian.graph
         (marian.run (marian.mkSession marian.ExpressionGraph_new o e0) calls))
    = None.
Proof.
  intros Hpar. split.
  - apply param_result in Hpar as (p & -> & Hp). split; [discriminate|].
    unfold marian.get. rewrite (run_keeps_name calls _ name p); [reflexivity|].
    exact Hp.
  - intros other o e0 Hcalls. unfold marian.get.
    rewrite (run_keeps_absent calls _ other Hcalls); [reflexivity|].
    apply lookup_empty.
Qed.

Lemma get_returns_registered_witness :
  let s0 := @marian.mkSession reference.engine marian.ExpressionGraph_new
              (marian.Optimizer f_0_1 Sgd) (marian.mkEngineState 0 ∅) in
  let W2 := marian.CallParam "W2" [3] inits.ones false in
  exists x g1 e1,
    marian.param "W1" [2; 2] inits.zeros false (marian.graph s0)
                 (marian.engine s0) = OK (x, g1, e1) /\
    marian.get "W1"
      (marian.graph (marian.run (marian.mkSession g1 (marian.optimizer s0) e1)
                                [W2; marian.CallUpdate])) = x /\
    marian.get "W1" (marian.graph (marian.run s0 [W2; marian.CallUpdate]))
    = None.
Proof.
  intros s0 W2. eexists _, _, _. split; [reflexivity|].
  destruct (@get_returns_registered reference.engine s0 "W1" [2; 2]
              inits.zeros false _ _ _ [W2; marian.CallUpdate] eq_refl)
    as [[_ Hget] Hnone].
  split; [exact Hget|].
  apply (Hnone "W1").
  repeat (constructor; [reflexivity|]). constructor.
Defined.

(** X18.  Every update applies one gradient step to each parameter the
    learner is bound to, and to each exactly once: the first update
    steps every parameter the graph has at that moment with step count
    0, and an update after [k] earlier ones steps those same parameters
    with step count [k], each from the gradient the graph holds for it
    at that time. *)
Theorem update_steps_each_parameter `{Engine}
        (eta : float) (algorithmType : AlgorithmType)
        (e0 : marian.EngineState) (before after : list marian.Call)
        (p : ParameterHandle) :
  marian.CallUpdate ∉ before ->
  let s0 := marian.mkSession marian.ExpressionGraph_new
                             (marian.Optimizer eta algorithmType) e0 in
  let s1 := marian.run s0 before in
  let s2 := marian.step s1 marian.CallUpdate in
  let s3 := marian.run s2 after in
  let s4 := marian.step s3 marian.CallUpdate in
  p ∈ marian.m_allParameters (marian.graph s1) ->
  (exists v,
      marian.values (marian.engine s1) !! p_uid p = Some v /\
      marian.values (marian.engine s2) !! p_uid p
      = Some (ApplyGradient algorithmType eta 0 p
                (marian.gradient_of (marian.m_allGradients (marian.graph s1)) p)
                v)) /\
  (exists v,
      marian.values (marian.engine s3) !! p_uid p = Some v /\
      marian.values (marian.engine s4) !! p_uid p
      = Some (ApplyGradient algorithmType eta (S (updates after)) p
                (marian.gradient_of (marian.m_allGradients (marian.graph s3)) p)
                v)).
Proof.
  intros Hno s0 s1 s2 s3 s4 Hin.
  assert (Hc1 : graph_consistent s1)
    by (apply run_consistent, new_consistent).
  assert (Hc3 : graph_consistent s3)
    by (apply run_consistent, step_consistent, Hc1).
  assert (Hopt1 : marian.optimizer s1
                  = marian.mkOptimizerWrapper eta algorithmType None).
  { subst s1. rewrite run_unbound by exact Hno. reflexivity. }
  destruct Hc1 as (Hnd1 & _ & _ & Hlive1).
  assert (Hbind : exists l,
             marian.m_learner (marian.optimizer s2) = Some l /\
             marian.l_parameters l = marian.m_allParameters (marian.graph s1) /\
             marian.l_algorithm l = algorithmType /\ marian.l_eta l = eta /\
             marian.l_updates l = 1%nat).
  { subst s2. cbn [marian.step]. unfold marian.update. rewrite Hopt1.
    cbn [marian.m_learner]. unfold marian.m_LazyCreateLearner.
    cbn [marian.m_algorithmType marian.m_eta].
    destruct algorithmType; cbn; eexists; repeat split. }
  destruct Hbind as (l2 & Hl2 & Hp2 & Ha2 & He2 & Hu2).
  split.
  - destruct (Hlive1 p Hin) as [_ [v Hv]]. exists v. split; [exact Hv|].
    subst s2. cbn [marian.step]. unfold marian.update. rewrite Hopt1.
    cbn [marian.m_learner]. unfold marian.m_LazyCreateLearner.
    cbn [marian.m_algorithmType marian.m_eta].
    assert (Hstep :
              fold_left
                (fun vals q =>
                   alter (ApplyGradient algorithmType eta 0 q
                            (marian.gradient_of
                               (marian.m_allGradients (marian.graph s1)) q))
                         (p_uid q) vals)
                (marian.m_allParameters (marian.graph s1))
                (marian.values (marian.engine s1)) !! p_uid p
              = Some (ApplyGradient algorithmType eta 0 p
                        (marian.gradient_of
                           (marian.m_allGradients (marian.graph s1)) p) v)).
    { rewrite (fold_alter_each
                 (fun q => ApplyGradient algorithmType eta 0 q
                             (marian.gradient_of
                                (marian.m_allGradients (marian.graph s1)) q)))
        by assumption.
      rewrite Hv. reflexivity. }
    destruct algorithmType; exact Hstep.
  - destruct (run_learner after s2 l2 Hl2)
      as (l3 & Hl3 & Hp3 & Ha3 & He3 & Hu3).
    fold s3 in Hl3.
    assert (Hin3 : p ∈ marian.m_allParameters (marian.graph s3)).
    { subst s3. apply run_keeps_parameter. subst s2.
      apply step_keeps_parameter. exact Hin. }
    destruct Hc3 as (_ & _ & _ & Hlive3).
    destruct (Hlive3 p Hin3) as [_ [v Hv]]. exists v. split; [exact Hv|].
    subst s4. rewrite (update_bound s3 l3 p Hl3).
    + rewrite Hv, Ha3, He3, Hu3, Ha2, He2, Hu2. reflexivity.
    + rewrite Hp3, Hp2. exact Hnd1.
    + rewrite Hp3, Hp2. exact Hin.
Qed.

Lemma update_steps_each_parameter_witness :
  let W1 := marian.CallParam "W1" [2; 2] inits.zeros false in
  let W2 := marian.CallParam "W2" [3] inits.ones false in
  let s0 := @marian.mkSession reference.engine marian.ExpressionGraph_new
              (marian.Optimizer f_0_1 Adam) (marian.mkEngineState 0 ∅) in
  let s1 := marian.run s0 [W1] in
  let s3 := marian.run s1 [marian.CallUpdate; W2; marian.CallUpdate] in
  let p := mkParameter 0 [2; 2] "W1" in
  exists v,
    marian.values (marian.engine s3) !! 0%nat = Some v /\
    marian.values (marian.engine (marian.step s3 marian.CallUpdate)) !! 0%nat
    = Some (@ApplyGradient reference.engine Adam f_0_1 2 p
              (marian.gradient_of (marian.m_allGradients (marian.graph s3)) p)
              v).
Proof.
  intros W1 W2 s0 s1 s3 p.
  destruct (@update_steps_each_parameter reference.engine f_0_1 Adam
              (marian.mkEngineState 0 ∅) [W1] [W2; marian.CallUpdate] p)
    as [_ Hlater].
  - intros Hin. apply elem_of_cons in Hin as [Heq|Hin]; [discriminate|].
    inversion Hin.
  - apply elem_of_cons. left. reflexivity.
  - exact Hlater.
Defined.

(* ===================================================================== *)
(** ** Batches *)

Lemma map_const_replicate {A B : Type} (c : B) (l : list A) :
  map (fun _ => c) l = replicate (length l) c.
Proof. induction l as [|a l IH]; [reflexivity|]. simpl. rewrite IH. reflexivity. Qed.

Lemma valid_tokens_ones (n : nat) :
  data.valid_tokens (replicate n (F32.of_Z 1)) = Z.of_nat n.
Proof.
  unfold data.valid_tokens. f_equal.
  induction n as [|n IH]; [reflexivity|].
  cbn [replicate]. rewrite filter_cons.
  destruct (decide (F32.eqb (F32.of_Z 1) F32.zero = false)) as [_|Hne].
  - cbn [length]. rewrite IH. reflexivity.
  - exfalso. apply Hne. reflexivity.
Qed.

Lemma valid_tokens_zeros (n : nat) :
  data.valid_tokens (replicate n (F32.of_Z 0)) = 0.
Proof.
  unfold data.valid_tokens.
  induction n as [|n IH]; [reflexivity|].
  cbn [replicate]. rewrite filter_cons.
  destruct (decide (F32.eqb (F32.of_Z 0) F32.zero = false)) as [Heq|_].
  - discriminate Heq.
  - exact IH.
Qed.

Lemma fakeStream_spec (batchSize len : Z) :
  0 <= batchSize <= INT_MAX -> 0 <= len <= INT_MAX ->
  batchSize * len <= INT_MAX ->
  let sb := data.fakeStream batchSize len in
  data.batchSize sb = batchSize /\
  data.batchWidth sb = len /\
  data.m_mask sb = replicate (Z.to_nat (batchSize * len)) (F32.of_Z 1) /\
  data.m_indices sb = replicate (Z.to_nat (batchSize * len)) 0 /\
  data.batchWords sb = batchSize * len /\
  data.batchWords sb = data.valid_tokens (data.m_mask sb).
Proof.
  intros Hb Hl Hbl sb. unfold INT_MAX in *.
  assert (Hint : forall z, 0 <= z <= 2 ^ 31 - 1 -> to_int z = z)
    by (intros z Hz; apply to_int_small; unfold is_int, INT_MIN, INT_MAX; lia).
  assert (Hsz : forall z, 0 <= z <= 2 ^ 31 - 1 -> to_size_t z = z)
    by (intros z Hz; apply to_size_t_small; unfold is_size_t, SIZE_MAX; lia).
  unfold sb, data.fakeStream, data.SubBatch_new, data.setWords,
    data.batchSize, data.batchWidth, data.batchWords.
  cbn [data.m_numSequences data.m_maxSequenceLength data.m_totalNumTokens
         data.m_indices data.m_mask].
  rewrite (Hint batchSize), (Hint len), (Hint (batchSize * len)),
    (Hsz batchSize), (Hsz len), (Hsz (batchSize * len)), (Hint batchSize),
    (Hint len) by lia.
  rewrite map_const_replicate, !length_replicate.
  rewrite Z2Nat.id, (Hsz (batchSize * len)), (Hint (batchSize * len)) by lia.
  repeat (split; [reflexivity|]).
  rewrite valid_tokens_ones. rewrite Z2Nat.id by lia. reflexivity.
Qed.

(** X19.  A new sub-batch and every stream of a fake batch keep the
    class's invariant that the token count is the number of non-0 mask
    entries: the constructor gives size * width indices and mask
    entries, all 0, and no tokens; [fakeBatch] gives one stream per
    length, of the batch size and that width, with every mask entry 1
    and batchSize * len tokens, and leaves the guided alignment empty
    unless asked for it. *)
Theorem fakeBatch_streams (lengths : list Z) (batchSize : Z) :
  0 <= batchSize <= INT_MAX ->
  Forall (fun len => 0 <= len <= INT_MAX /\ batchSize * len <= INT_MAX)
         lengths ->
  exists batch,
    data.fakeBatch lengths batchSize false = OK batch /\
    data.getGuidedAlignment batch = [] /\
    Forall2
      (fun len sb =>
         data.batchSize sb = batchSize /\
         data.batchWidth sb = len /\
         data.m_mask sb = replicate (Z.to_nat (batchSize * len)) (F32.of_Z 1) /\
         data.m_indices sb = replicate (Z.to_nat (batchSize * len)) 0 /\
         data.batchWords sb = batchSize * len /\
         data.batchWords sb = data.valid_tokens (data.m_mask sb) /\
         let empty := data.SubBatch_new batchSize len in
         data.m_mask empty = replicate (Z.to_nat (batchSize * len)) (F32.of_Z 0) /\
         length (data.m_indices empty) = length (data.m_mask empty) /\
         data.batchWords empty = data.valid_tokens (data.m_mask empty))
      lengths (data.m_streams batch).
Proof.
  intros Hb Hall. eexists. split; [reflexivity|]. split; [reflexivity|].
  cbn [data.m_streams].
  induction Hall as [|len lengths [Hl Hbl] _ IH]; [constructor|].
  cbn [map]. constructor; [|exact IH].
  destruct (fakeStream_spec batchSize len Hb Hl Hbl)
    as (H1 & H2 & H3 & H4 & H5 & H6).
  repeat (split; [assumption|]).
  unfold data.SubBatch_new, data.batchWords.
  cbn [data.m_mask data.m_indices data.m_totalNumTokens].
  unfold INT_MAX in *.
  rewrite to_int_small by (unfold is_int, INT_MIN, INT_MAX; lia).
  rewrite to_size_t_small by (unfold is_size_t, SIZE_MAX; lia).
  split; [reflexivity|]. split; [rewrite !length_replicate; reflexivity|].
  rewrite valid_tokens_zeros. reflexivity.
Qed.

Lemma fakeBatch_streams_witness :
  exists batch,
    data.fakeBatch [3; 5] 2 false = OK batch /\
    Forall2 (fun len sb => data.batchWords sb = 2 * len /\
                           data.batchWords sb
                           = data.valid_tokens (data.m_mask sb))
            [3; 5] (data.m_streams batch).
Proof.
  destruct (fakeBatch_streams [3; 5] 2) as (batch & Hb & _ & Hs).
  - unfold INT_MAX. lia.
  - repeat (constructor; [unfold INT_MAX; lia|]). constructor.
  - exists batch. split; [exact Hb|].
    eapply Forall2_impl; [exact Hs|].
    intros len sb (_ & _ & _ & _ & H5 & H6 & _). split; assumption.
Defined.

Section FakeAlignment.
Context `{Engine}.

Lemma sum_all_flattened (q : Node) :
  Spec.sum_all (Some q)
  = OK (Some (ReduceSum (Reshape q [TotalSize (marian.Node_Shape q)])
                        (StaticAxis 0))).
Proof.
  assert (Haxis : mappers.ToCNTKAxis_rank 1 0 = OK (StaticAxis 0))
    by (vm_compute; reflexivity).
  unfold Spec.sum_all, marian.flatten. cbn [marian.deref bind].
  unfold marian.sum, marian.ToCNTKAxis.
  cbn [marian.Expr_Shape marian.deref bind marian.Node_Shape].
  change (Rank [TotalSize (marian.Node_Shape q)]) with 1.
  rewrite Haxis. reflexivity.
Qed.

Lemma add_en_OK (x : Node) (k : Number) :
  exists r, marian.add_en (Some x) k = OK (Some r).
Proof.
  unfold marian.add_en. destruct (Number_eq k 0); eexists; reflexivity.
Qed.

Lemma raw_loss_OK (l : Spec.AlignmentLoss) (att aln : Node) :
  exists r, Spec.raw_loss l (Some att) (Some aln) = OK (Some r).
Proof.
  destruct l; unfold Spec.raw_loss.
  - unfold marian.sub, marian.square, marian.mul, marian.lift2.
    cbn [marian.deref bind]. rewrite sum_all_flattened. eauto.
  - unfold marian.mul, marian.lift2. cbn [marian.deref bind].
    rewrite sum_all_flattened. cbn [bind].
    destruct (add_en_OK (ReduceSum
                           (Reshape (ElementTimes att aln)
                              [TotalSize (marian.Node_Shape (ElementTimes att aln))])
                           (StaticAxis 0)) (Float marian.eps)) as [t ->].
    cbn [bind]. unfold marian.log, marian.neg, marian.lift1.
    cbn [marian.deref bind]. eauto.
  - destruct (add_en_OK att (Float marian.eps)) as [t ->].
    cbn [bind]. unfold marian.log, marian.mul, marian.neg, marian.lift1,
      marian.lift2.
    cbn [marian.deref bind]. rewrite sum_all_flattened. cbn [bind marian.deref].
    eauto.
Qed.

Lemma div_en_OK (x : Node) (k : Number) :
  exists r, marian.div_en (Some x) k = OK (Some r).
Proof.
  unfold marian.div_en. destruct (Number_eq k 1); eexists; reflexivity.
Qed.

Lemma mul_ne_OK (k : Number) (x : Node) :
  exists r, marian.mul_ne k (Some x) = OK (Some r).
Proof.
  unfold marian.mul_ne. destruct (Number_eq k 1); eexists; reflexivity.
Qed.

Lemma alignment_shape_read (n : Node) (dimBatch dimSrc dimTrg : Z) :
  0 <= dimBatch <= INT_MAX -> 0 <= dimSrc <= INT_MAX ->
  0 <= dimTrg <= INT_MAX ->
  marian.Node_Shape n = mappers.ToNDShape [dimBatch; 1; dimSrc; dimTrg] ->
  ShapeProxy.at_ (marian.Node_Shape n) 0 = OK dimBatch /\
  ShapeProxy.at_ (marian.Node_Shape n) 2 = OK dimSrc /\
  ShapeProxy.at_ (marian.Node_Shape n) 3 = OK dimTrg.
Proof.
  intros Hb Hs Ht ->.
  assert (Hint : Forall is_int [dimBatch; 1; dimSrc; dimTrg]).
  { unfold INT_MAX in *.
    repeat (constructor; [unfold is_int, INT_MIN, INT_MAX; lia|]).
    constructor. }
  assert (Hlen : Z.of_nat (length [dimBatch; 1; dimSrc; dimTrg]) <= INT_MAX)
    by (unfold INT_MAX; simpl; lia).
  split; [|split].
  - apply (proxy_reads_Shape _ 0 dimBatch Hint Hlen). reflexivity.
  - apply (proxy_reads_Shape _ 2 dimSrc Hint Hlen). reflexivity.
  - apply (proxy_reads_Shape _ 3 dimTrg Hint Hlen). reflexivity.
Qed.

Lemma alignment_size (dimBatch dimSrc dimTrg : Z) :
  TotalSize (mappers.ToNDShape [dimBatch; 1; dimSrc; dimTrg])
  = to_size_t (to_size_t (dimBatch * dimSrc) * dimTrg).
Proof.
  unfold mappers.ToNDShape.
  rewrite TotalSize_product, product_to_size_t, product_rev.
  cbn [product fold_right]. unfold to_size_t.
  rewrite Z.mul_mod_idemp_l by lia. f_equal. ring.
Qed.
End FakeAlignment.

(** X20.  A fake batch made with guided alignment fits the attention it
    was made for: for an attention node of Marian shape
    [batch, 1, src, trg] and a batch faked for that batch size with
    first length src and last length trg, [guidedAlignmentCost] returns
    a cost for each of its three cost types.  A fake batch made without
    guided alignment does not: unless the attention has no element, the
    cost stops at the size check of the reference alignment. *)
Theorem fakeBatch_guided_alignment `{Engine} (n : Node)
        (dimBatch dimSrc dimTrg : Z) (lengths : list Z) (costType : string) :
  0 <= dimBatch <= INT_MAX -> 0 <= dimSrc <= INT_MAX ->
  0 <= dimTrg <= INT_MAX ->
  marian.Node_Shape n = mappers.ToNDShape [dimBatch; 1; dimSrc; dimTrg] ->
  head lengths = Some dimSrc -> last lengths = Some dimTrg ->
  In costType alignment_cost_types ->
  (exists batch,
      data.fakeBatch lengths dimBatch true = OK batch /\
      is_OK (marian.guidedAlignmentCost (data.alignment_of batch)
               (alignment_options costType) (Some n)) = true) /\
  (to_size_t (to_size_t (dimBatch * dimSrc) * dimTrg) <> 0 ->
   exists batch,
     data.fakeBatch lengths dimBatch false = OK batch /\
     marian.guidedAlignmentCost (data.alignment_of batch)
       (alignment_options costType) (Some n)
     = Raise (InvalidArgument
                "marian::constant: vector size does not match viewShape")).
Proof.
  intros Hb Hs Ht Hshape Hhead Hlast Hin.
  destruct (alignment_shape_read n dimBatch dimSrc dimTrg Hb Hs Ht Hshape)
    as (H0 & H2 & H3).
  pose proof (alignment_size dimBatch dimSrc dimTrg) as Hsize.
  set (count := to_size_t (to_size_t (dimBatch * dimSrc) * dimTrg)) in *.
  assert (Hcount : is_size_t count) by apply to_size_t_range.
  split.
  - unfold data.fakeBatch. destruct lengths as [|front rest]; [discriminate|].
    injection Hhead as ->. rewrite Hlast. fold count.
    eexists. split; [reflexivity|].
    unfold data.alignment_of, data.getGuidedAlignment, data.setGuidedAlignment.
    cbn [data.m_guidedAlignment].
    unfold marian.guidedAlignmentCost.
    cbn [marian.Expr_Shape marian.deref bind].
    rewrite H0, H2, H3. cbn [bind marian.m_guidedAlignment].
    unfold marian.Constant_np, inits.from_vector.
    rewrite Constant_from_vector, length_replicate.
    unfold is_size_t in Hcount.
    rewrite Z2Nat.id, (to_size_t_small count), Hsize, Z.eqb_refl
      by (unfold is_size_t; lia).
    cbn [bind].
    assert (Hget : Options.get_string (alignment_options costType)
                                      "guided-alignment-cost" = OK costType).
    { unfold Options.get_string, alignment_options, Dict.at_.
      rewrite lookup_insert_eq. cbn [bind Dict.Value_String].
      rewrite narrow_widen. reflexivity. }
    rewrite Hget. cbn [bind]. rewrite alignment_dispatch.
    assert (Hloss : exists l, Spec.alignment_loss_of costType = Some l).
    { simpl in Hin. destruct Hin as [<-|[<-|[<-|[]]]]; eexists; reflexivity. }
    destruct Hloss as [l ->].
    destruct (raw_loss_OK l n
                (ConstantNode (mappers.ToNDShape [dimBatch; 1; dimSrc; dimTrg])
                              (replicate (Z.to_nat count) (F32.of_Z 0)) false))
      as [r ->].
    cbn [bind].
    destruct (div_en_OK r (Int (Spec.divisor_amended l dimBatch))) as [q ->].
    cbn [bind].
    assert (Hw : Options.get_float (alignment_options costType)
                                   "guided-alignment-weight" = OK F32.one)
      by reflexivity.
    rewrite Hw. cbn [bind].
    destruct (mul_ne_OK (Float F32.one) q) as [c ->]. reflexivity.
  - intros Hne. eexists. split; [reflexivity|].
    unfold data.alignment_of, data.getGuidedAlignment.
    cbn [data.m_guidedAlignment].
    unfold marian.guidedAlignmentCost.
    cbn [marian.Expr_Shape marian.deref bind].
    rewrite H0, H2, H3. cbn [bind marian.m_guidedAlignment].
    unfold marian.Constant_np, inits.from_vector.
    rewrite Constant_from_vector, Hsize.
    assert (Hneq : (to_size_t (Z.of_nat (length (@nil float))) =? count) = false)
      by (apply Z.eqb_neq; intros Heq; apply Hne; fold count;
          rewrite <- Heq; reflexivity).
    rewrite Hneq. reflexivity.
Qed.

Lemma fakeBatch_guided_alignment_witness :
  let att := ConstantNode [3; 2; 1; 2] [] false in
  (exists batch,
      data.fakeBatch [2; 3] 2 true = OK batch /\
      is_OK (@marian.guidedAlignmentCost reference.engine
               (data.alignment_of batch) (alignment_options "ce") (Some att))
      = true) /\
  (exists batch,
      data.fakeBatch [2; 3] 2 false = OK batch /\
      @marian.guidedAlignmentCost reference.engine
        (data.alignment_of batch) (alignment_options "ce") (Some att)
      = Raise (InvalidArgument
                 "marian::constant: vector size does not match viewShape")).
Proof.
  intros att.
  destruct (@fakeBatch_guided_alignment reference.engine att 2 2 3 [2; 3] "ce")
    as [Hyes Hno]; try (unfold INT_MAX; lia); try reflexivity.
  - simpl. auto.
  - split; [exact Hyes|]. apply Hno. vm_compute. discriminate.
Defined.

(* ===================================================================== *)
(** ** The cost without a mask, and remaining shortcuts *)

(** X21.  The cost types "ce-mean-words" and "perplexity" divide by the
    sum of the mask and so need one: called with the empty expression as
    mask, [Cost] never returns a cost for them, whatever the logits, the
    indices and the smoothing. *)
Theorem Cost_needs_mask `{Engine} (logits indices : Expr)
        (smoothing : float) :
  is_OK (marian.Cost logits indices None "ce-mean-words" smoothing) = false /\
  is_OK (marian.Cost logits indices None "perplexity" smoothing) = false.
Proof.
  unfold marian.Cost.
  destruct (marian.cross_entropy logits indices) as [ce|];
    [|split; reflexivity].
  cbn [bind].
  destruct (if F32.ltb (F32.of_Z 0) smoothing then _ else _) as [ce'|];
    [|split; reflexivity].
  cbn [bind String.eqb Ascii.eqb Bool.eqb orb].
  split.
  - destruct (marian.sum ce' (-3)) as [a|]; [|reflexivity]. cbn [bind].
    destruct (marian.sum a (-2)) as [a'|]; reflexivity.
  - destruct (marian.sum ce' (-3)) as [a|]; [|reflexivity]. cbn [bind].
    destruct (marian.sum a (-2)) as [a'|]; reflexivity.
Qed.

(** X22.  The shortcuts of subtraction and of [sqrt]: x - 0 is x itself,
    0 - x is the negation of x with no constant node, and [sqrt(x, 0)],
    which adds its second argument before taking the root, takes the
    root of x itself; a zero is whatever compares equal to 0 in its
    type, the negative zero of [float] and [double] included.  Division
    has no shortcut on the left: 1 / x builds the constant and the
    division. *)
Theorem subtraction_shortcuts `{EngineOps} (x : Expr) (n : Node)
        (zero : Number) (z : float) (k : Number) :
  Number_eq zero 0 = true -> Number_eq (Float z) 0 = true ->
  marian.sub_en x zero = OK x /\
  marian.sub_ne zero (Some n) = OK (Some (Negate n)) /\
  ops.sqrt (Some n) z = OK (Some (CNTK_Sqrt n)) /\
  marian.div_ne k (Some n)
  = OK (Some (ElementDivide (ScalarNode (Number_to_float k)) n)).
Proof.
  intros Hzero Hz.
  unfold marian.sub_en, marian.sub_ne, ops.sqrt, marian.add_en.
  rewrite Hzero, Hz. repeat split; reflexivity.
Qed.

Lemma subtraction_shortcuts_witness :
  let n := Exp (ScalarNode (F32.of_Z 7)) in
  marian.sub_en (Some n) (Double (S754_zero true)) = OK (Some n) /\
  marian.sub_ne (Float (S754_zero true)) (Some n) = OK (Some (Negate n)) /\
  @ops.sqrt reference_ops (Some n) (S754_zero true)
  = OK (Some (@CNTK_Sqrt reference_ops n)).
Proof.
  intros n.
  destruct (@subtraction_shortcuts reference_ops (Some n) n
              (Double (S754_zero true)) (S754_zero true) (Int 1))
    as (H1 & _ & H3 & _); [reflexivity|reflexivity|].
  destruct (@subtraction_shortcuts reference_ops (Some n) n
              (Float (S754_zero true)) (S754_zero true) (Int 1))
    as (_ & H2 & _); [reflexivity|reflexivity|].
  split; [exact H1|]. split; [exact H2|exact H3].
Defined.

(** X23.  The overloads of [leakyrelu] and [prelu] on a vector never
    return an expression: on a non-empty vector of non-empty expressions
    they build the whole sum and then raise the logic error naming the
    operator, and on any other vector they fail no later. *)
Theorem unimplemented_on_vectors (xs : list Expr) (alpha : float)
        (x : Node) (rest : list Node) :
  is_OK (ops.leakyrelu_vec xs) = false /\
  is_OK (ops.prelu_vec xs alpha) = false /\
  ops.leakyrelu_vec (Some x :: map Some rest) = Raise (LogicError "leakyrelu") /\
  ops.prelu_vec (Some x :: map Some rest) alpha = Raise (LogicError "prelu").
Proof.
  unfold ops.leakyrelu_vec, ops.prelu_vec.
  split; [destruct (ops.plus xs); reflexivity|].
  split; [destruct (ops.plus xs); reflexivity|].
  destruct (plus_range_sum (fun _ _ => tt) (fun _ => tt)
              (fun _ _ _ => eq_refl) (fun _ _ => eq_refl)
              (S (length rest)) rest x) as (t & Ht & _); [lia|].
  unfold ops.plus. cbn [length]. rewrite length_map, Ht.
  split; reflexivity.
Qed.
